(** * Fused, camera-coloured point-cloud export (export_pointclouds_as_obj.py)

    A shallow embedding of [export_scene_pointcloud] and
    [pointcloud_color_from_image] together with the properties of the
    frame-transform chain, the visibility mask, colour precedence, the
    ego-frame distance filter, the scene traversal and the OBJ writer.

    - Numbers are IEEE-754 binary64 values (Python [float], numpy [float64]),
      taken from the bit-exact specification of the standard library
      ([SpecFloat]).  Coordinates are kept in binary64 throughout; the format
      in which the loader of the repository hands them over is not part of
      the script.
    - Arrays of shape (k, n) are lists of n columns; the dictionaries of the
      record store are finite maps.
    - A run is the list of events it performed (record fetches, files loaded
      and opened, strings written and printed) and its outcome: a value, a
      Python exception, or [Unfinished] when the step budget of the [while]
      loop is used up.
    - [assert] is taken as active, as it is unless Python runs with [-O].
    - A picture is a decoded 8-bit RGB image; pictures of another mode and
      files that do not decode are outside the model, and so are the
      exceptions they would bring.  Every failure of [open(path, 'w')] is
      written [PermissionError], whichever error of the operating system it
      is. *)

From Stdlib Require Import ZArith List String Ascii Bool Lia.
From Stdlib Require Import Strings.Byte.
From Stdlib Require Import Floats.SpecFloat DecimalString.
From stdpp Require Import gmap strings list.

Open Scope Z_scope.

(** ** Binary64 arithmetic *)

Module F64.

Definition prec : Z := 53.
Definition emax : Z := 1024.

Definition float : Type := spec_float.

Definition add : float -> float -> float := SFadd prec emax.
Definition sub : float -> float -> float := SFsub prec emax.
Definition mul : float -> float -> float := SFmul prec emax.
Definition div : float -> float -> float := SFdiv prec emax.
Definition sqrt : float -> float := SFsqrt prec emax.
Definition opp : float -> float := SFopp.
Definition eqb : float -> float -> bool := SFeqb.
Definition ltb : float -> float -> bool := SFltb.
Definition leb : float -> float -> bool := SFleb.

(** A Python [int] used where a float is expected. *)
Definition of_Z (z : Z) : float := binary_normalize prec emax z 0 false.

(** Nearest integer of [num / den], ties to the even one ([den > 0]). *)
Definition round_half_even (num den : Z) : Z :=
  let q := num / den in
  let r := num mod den in
  match 2 * r ?= den with
  | Lt => q
  | Gt => q + 1
  | Eq => if Z.even q then q else q + 1
  end.

(** [numpy.round] with zero decimals: round to the nearest integer, ties to
    even, the result still a float (the sign of a zero result is kept). *)
Definition rint (x : float) : float :=
  match x with
  | S754_finite s m e =>
      if 0 <=? e then x
      else binary_normalize prec emax
             (cond_Zopp s (round_half_even (Zpos m) (2 ^ (- e)))) 0 s
  | _ => x
  end.

(** Truncation toward zero of a finite value. *)
Definition trunc (x : float) : option Z :=
  match x with
  | S754_zero _ => Some 0
  | S754_finite s m e =>
      Some (cond_Zopp s (if 0 <=? e then Zpos m * 2 ^ e else Zpos m / 2 ^ (- e)))
  | _ => None
  end.

Definition int32_min : Z := - 2 ^ 31.
Definition int32_max : Z := 2 ^ 31 - 1.

(** [.astype(numpy.int32)]: the truncated value when it fits; NaN, the
    infinities and values out of range give the "integer indefinite"
    value of the x86-64 conversion instruction. *)
Definition astype_int32 (x : float) : Z :=
  match trunc x with
  | Some z => if (int32_min <=? z) && (z <=? int32_max) then z else int32_min
  | None => int32_min
  end.

(** *** Fixed-point formatting, Python's [format(x, '.<d>f')] *)

Definition digits_of (n : Z) : string :=
  NilZero.string_of_uint (N.to_uint (Z.to_N n)).

Definition digit_char (n : Z) : ascii := ascii_of_nat (48 + Z.to_nat (n mod 10)).

(** The last [d] decimal digits of [n], most significant first. *)
Fixpoint frac_digits (d : nat) (n : Z) : string :=
  match d with
  | O => EmptyString
  | S d' => (frac_digits d' (n / 10) ++ String (digit_char n) EmptyString)%string
  end.

(** The decimal expansion of [n / 10^d] with exactly [d] decimals. *)
Definition fixed_digits (d : nat) (n : Z) : string :=
  match d with
  | O => digits_of n
  | _ => (digits_of (n / 10 ^ Z.of_nat d) ++ "." ++ frac_digits d n)%string
  end.

(** The exact binary value is scaled by [10^d] and rounded to the nearest
    integer, ties to even, as the correctly rounded conversion does. *)
Definition format_f (d : nat) (x : float) : string :=
  match x with
  | S754_nan => "nan"
  | S754_infinity s => if s then "-inf" else "inf"
  | S754_zero s => ((if s then "-" else "") ++ fixed_digits d 0)%string
  | S754_finite s m e =>
      let p := 10 ^ Z.of_nat d in
      let n := if 0 <=? e then Zpos m * 2 ^ e * p
               else round_half_even (Zpos m * p) (2 ^ (- e)) in
      ((if s then "-" else "") ++ fixed_digits d n)%string
  end.

End F64.

Abbreviation float := F64.float.

(** ** Vectors, matrices and point clouds *)

Record Vec3 : Type := mkVec3 { v0 : float; v1 : float; v2 : float }.

Record Mat3 : Type := mkMat3 { row0 : Vec3; row1 : Vec3; row2 : Vec3 }.

Definition vec_add (a b : Vec3) : Vec3 :=
  mkVec3 (F64.add (v0 a) (v0 b)) (F64.add (v1 a) (v1 b)) (F64.add (v2 a) (v2 b)).

(** [-np.array(t)] *)
Definition vec_neg (a : Vec3) : Vec3 :=
  mkVec3 (F64.opp (v0 a)) (F64.opp (v1 a)) (F64.opp (v2 a)).

Definition dot3 (a b : Vec3) : float :=
  F64.add (F64.add (F64.mul (v0 a) (v0 b)) (F64.mul (v1 a) (v1 b)))
          (F64.mul (v2 a) (v2 b)).

(** [np.dot(m, p)] for one column [p] *)
Definition mat_vec (m : Mat3) (p : Vec3) : Vec3 :=
  mkVec3 (dot3 (row0 m) p) (dot3 (row1 m) p) (dot3 (row2 m) p).

(** [m.T] *)
Definition transpose (m : Mat3) : Mat3 :=
  mkMat3 (mkVec3 (v0 (row0 m)) (v0 (row1 m)) (v0 (row2 m)))
         (mkVec3 (v1 (row0 m)) (v1 (row1 m)) (v1 (row2 m)))
         (mkVec3 (v2 (row0 m)) (v2 (row1 m)) (v2 (row2 m))).

(** One column of [pc.points]: the position rows [:3] and whatever rows
    follow them (intensity, radar attributes). *)
Record Point : Type := mkPoint { xyz : Vec3; extra : list float }.

(** A point cloud, column by column. *)
Abbreviation PointCloud := (list Point).

(** Scalar-first quaternion, as stored in the calibration and pose records. *)
Record Quaternion : Type := mkQuaternion { qw : float; qx : float; qy : float; qz : float }.

(** Modelled from the spec: [PointCloud.rotate] of nuscenes_utils.data_classes
    is not among the sources; it applies the rotation matrix to the position
    block of every point, in place. *)
Definition rotate (rot_matrix : Mat3) (pc : PointCloud) : PointCloud :=
  map (fun p => mkPoint (mat_vec rot_matrix (xyz p)) (extra p)) pc.

(** Modelled from the spec: [PointCloud.translate] of nuscenes_utils.data_classes
    is not among the sources; it adds the vector to the position block of
    every point, in place. *)
Definition translate (x : Vec3) (pc : PointCloud) : PointCloud :=
  map (fun p => mkPoint (vec_add (xyz p) x) (extra p)) pc.

(** Modelled from the spec: [view_points] of nuscenes_utils.geometry_utils is
    not among the sources; [p' = K p], and with [normalize] the first two rows
    are divided by the third, which is left as 1. *)
Definition view_points (points : list Vec3) (view : Mat3) (normalize : bool) : list Vec3 :=
  let points := map (mat_vec view) points in
  if normalize
  then map (fun p => mkVec3 (F64.div (v0 p) (v2 p)) (F64.div (v1 p) (v2 p)) (F64.of_Z 1)) points
  else points.

(** ** numpy array operations used by the script *)

(** [np.ones(n, dtype=bool)] *)
Definition np_ones_bool (n : nat) : list bool := replicate n true.

(** [np.logical_and(a, b)] on arrays of one shape *)
Definition logical_and (a b : list bool) : list bool := zip_with andb a b.

(** [xs > c], [xs < c], [c <= xs], [xs <= c] against a scalar *)
Definition np_gt (xs : list float) (c : float) : list bool := map (fun x => F64.ltb c x) xs.
Definition np_lt (xs : list float) (c : float) : list bool := map (fun x => F64.ltb x c) xs.
Definition np_ge (xs : list float) (c : float) : list bool := map (fun x => F64.leb c x) xs.
Definition np_le (xs : list float) (c : float) : list bool := map (fun x => F64.leb x c) xs.

(** [a[:, mask]]: the columns where the mask holds, in order *)
Fixpoint compress {A : Type} (mask : list bool) (a : list A) : list A :=
  match mask, a with
  | b :: mask', x :: a' => if b then x :: compress mask' a' else compress mask' a'
  | _, _ => []
  end.

(** [a[:, mask] = vals]: the columns where the mask holds are replaced, in
    order, by the columns of [vals]; numpy refuses a mask of another length
    and a number of columns that differs from the number of selected ones. *)
Fixpoint mask_assign {A : Type} (a : list A) (mask : list bool) (vals : list A)
  : option (list A) :=
  match a, mask with
  | [], [] => match vals with [] => Some [] | _ => None end
  | x :: a', b :: mask' =>
      if b then
        match vals with
        | y :: vals' => cons y <$> mask_assign a' mask' vals'
        | [] => None
        end
      else cons x <$> mask_assign a' mask' vals
  | _, _ => None
  end.

(** [mask.sum()]: the number of entries that hold *)
Fixpoint count_true (mask : list bool) : nat :=
  match mask with
  | [] => O
  | b :: mask' => ((if b then 1 else 0) + count_true mask')%nat
  end.

(** The position, among the selected columns, of a selected column [i]. *)
Definition rank (mask : list bool) (i : nat) : nat := count_true (take i mask).

(** An index into an axis of length [n], with Python's wrap-around for
    negative indices; [None] is an IndexError. *)
Definition np_index (n : Z) (i : Z) : option Z :=
  if (0 <=? i) && (i <? n) then Some i
  else if (- n <=? i) && (i <? 0) then Some (i + n)
  else None.

(** ** Images *)

(** An 8-bit RGB pixel. *)
Record Pixel : Type := mkPixel { red : byte; green : byte; blue : byte }.

(** A decoded image: [im.size = (width, height)] and [np.array(im)], an array
    of shape (height, width, 3) read at (row, column).  The image library
    keeps both sizes in C integers, so they are below 2^31. *)
Record Image : Type := mkImage {
  im_width : N;
  im_height : N;
  im_data : Z -> Z -> Pixel;
  im_width_int : (Z.of_N im_width <? 2 ^ 31) = true;
  im_height_int : (Z.of_N im_height <? 2 ^ 31) = true
}.

Definition byte_to_float (b : byte) : float := F64.of_Z (Z.of_N (Byte.to_N b)).

(** A colour, one column of a (3, n) float array. *)
Definition pixel_to_color (p : Pixel) : Vec3 :=
  mkVec3 (byte_to_float (red p)) (byte_to_float (green p)) (byte_to_float (blue p)).

(** [im_data[row, col, :]] *)
Definition im_data_get (im : Image) (row col : Z) : option Pixel :=
  match np_index (Z.of_N (im_height im)) row, np_index (Z.of_N (im_width im)) col with
  | Some r, Some c => Some (im_data im r c)
  | _, _ => None
  end.

(** ** The record store *)

(** A [scene] record. *)
Record SceneRec : Type := mkSceneRec { first_sample_token : string }.

(** A [sample] record: [data] maps a channel name to a [sample_data] token. *)
Record SampleRec : Type := mkSampleRec { data : gmap string string }.

(** A [sample_data] record; [sd_next] is the empty string on the last one. *)
Record SampleDataRec : Type := mkSampleDataRec {
  sd_token : string;
  sd_filename : string;
  sd_sample_token : string;
  sd_calibrated_sensor_token : string;
  sd_ego_pose_token : string;
  sd_next : string
}.

(** A [calibrated_sensor] record; the intrinsic matrix exists for cameras only. *)
Record CalibratedSensorRec : Type := mkCalibratedSensorRec {
  cs_rotation : Quaternion;
  cs_translation : Vec3;
  cs_camera_intrinsic : option Mat3
}.

(** An [ego_pose] record. *)
Record EgoPoseRec : Type := mkEgoPoseRec {
  ep_rotation : Quaternion;
  ep_translation : Vec3
}.

Record NuScenes : Type := mkNuScenes {
  dataroot : string;
  scene : gmap string SceneRec;
  sample : gmap string SampleRec;
  sample_data : gmap string SampleDataRec;
  calibrated_sensor : gmap string CalibratedSensorRec;
  ego_pose : gmap string EgoPoseRec
}.

Record NuScenesExplorer : Type := mkNuScenesExplorer { nusc : NuScenes }.

(** The files the loaders can read and the paths that can be opened for writing. *)
Record FileSystem : Type := mkFileSystem {
  pointcloud_files : gmap string PointCloud;
  image_files : gmap string Image;
  writable : string -> bool
}.

(** ** Effects: a trace of what the program did, and how it ended *)

Inductive exn : Type :=
  | AssertionError (msg : string)
  | KeyError (key : string)
  | NameError (name : string)
  | FileNotFoundError (path : string)
  | PermissionError (path : string)
  | IndexError
  | ValueError.

Inductive event : Type :=
  | EvGet (table token : string)
  | EvLoadPointCloud (path : string)
  | EvOpenImage (path : string)
  | EvOpenFile (path : string)
  | EvWrite (s : string)
  | EvPrint (s : string).

(** [Unfinished]: the loop was cut off by the step budget of the model. *)
Inductive outcome (A : Type) : Type :=
  | Return (a : A)
  | Raise (e : exn)
  | Unfinished.

Arguments Return {A} a.
Arguments Raise {A} e.
Arguments Unfinished {A}.

(** A computation: the events it performed, in order, and its outcome. *)
Definition M (A : Type) : Type := (list event * outcome A)%type.

Definition ret {A : Type} (a : A) : M A := ([], Return a).

Definition raise {A : Type} (e : exn) : M A := ([], Raise e).

Definition unfinished {A : Type} : M A := ([], Unfinished).

Definition emit (ev : event) : M unit := ([ev], Return tt).

Definition bind {A B : Type} (m : M A) (k : A -> M B) : M B :=
  match m with
  | (tr, Return a) => let '(tr', r) := k a in (tr ++ tr', r)
  | (tr, Raise e) => (tr, Raise e)
  | (tr, Unfinished) => (tr, Unfinished)
  end.

Declare Scope monad_scope.
Delimit Scope monad_scope with monad.
Notation "x <- m ;; k" := (bind m (fun x => k))
  (at level 100, m at next level, right associativity) : monad_scope.
Notation "m ;; k" := (bind m (fun _ => k))
  (at level 100, right associativity) : monad_scope.
Open Scope monad_scope.

Definition trace {A : Type} (m : M A) : list event := fst m.
Definition result {A : Type} (m : M A) : outcome A := snd m.

(** The strings written to the output file, in order. *)
Fixpoint written (tr : list event) : list string :=
  match tr with
  | [] => []
  | EvWrite s :: tr' => s :: written tr'
  | _ :: tr' => written tr'
  end.

Definition file_opened (tr : list event) : bool :=
  existsb (fun ev => match ev with EvOpenFile _ => true | _ => false end) tr.

(** What the trace leaves in the output file: [None] when it was never opened. *)
Definition file_content (tr : list event) : option string :=
  if file_opened tr then Some (String.concat "" (written tr)) else None.

Fixpoint mapM {A B : Type} (f : A -> M B) (l : list A) : M (list B) :=
  match l with
  | [] => ret []
  | x :: l' => y <- f x ;; ys <- mapM f l' ;; ret (y :: ys)
  end.

Fixpoint foldM {A B : Type} (f : A -> B -> M A) (a : A) (l : list B) : M A :=
  match l with
  | [] => ret a
  | x :: l' => a' <- f a x ;; foldM f a' l'
  end.

Fixpoint forM_ {A : Type} (l : list A) (f : A -> M unit) : M unit :=
  match l with
  | [] => ret tt
  | x :: l' => f x ;; forM_ l' f
  end.

Definition when (b : bool) (m : M unit) : M unit := if b then m else ret tt.

(** ** Strings and paths *)

Definition nl : string := String (ascii_of_nat 10) EmptyString.

Fixpoint ends_with_slash (s : string) : bool :=
  match s with
  | EmptyString => false
  | String c EmptyString => Ascii.eqb c "/"
  | String _ s' => ends_with_slash s'
  end.

(** [os.path.join(a, b)] on a POSIX system *)
Definition osp_join (a b : string) : string :=
  if String.prefix "/" b then b
  else if String.eqb a "" || ends_with_slash a then (a ++ b)%string
  else (a ++ "/" ++ b)%string.

(** ['%d' % n] *)
Definition format_d (n : Z) : string :=
  if n <? 0 then ("-" ++ F64.digits_of (- n))%string else F64.digits_of n.

(** ** The script *)

Definition valid_channels : list string :=
  ["LIDAR_TOP"; "RADAR_FRONT"; "RADAR_FRONT_RIGHT"; "RADAR_FRONT_LEFT"; "RADAR_BACK_LEFT";
   "RADAR_BACK_RIGHT"]%string.

Definition camera_channels : list string :=
  ["CAM_FRONT_LEFT"; "CAM_FRONT"; "CAM_FRONT_RIGHT";
   "CAM_BACK_LEFT"; "CAM_BACK"; "CAM_BACK_RIGHT"]%string.

(** The defaults of the signature of [export_scene_pointcloud]. *)
Definition default_channel : string := "LIDAR_TOP".
Definition default_min_dist : float := F64.of_Z 3.
Definition default_max_dist : float := F64.of_Z 30.
Definition default_verbose : bool := true.

(** An entry of [np.ones((3, n)) * -1], and the [-1] it is compared with. *)
Definition minus_one : float := F64.of_Z (-1).
Definition no_color : Vec3 :=
  let c := F64.mul (F64.of_Z 1) minus_one in mkVec3 c c c.

(** [pc.points[:3, :] ** 2], [np.sum(_, axis=0)], [np.sqrt(_)] *)
Definition np_square (a : list Vec3) : list Vec3 :=
  map (fun p => mkVec3 (F64.mul (v0 p) (v0 p)) (F64.mul (v1 p) (v1 p)) (F64.mul (v2 p) (v2 p))) a.
Definition np_sum_axis0 (a : list Vec3) : list float :=
  map (fun p => F64.add (F64.add (v0 p) (v1 p)) (v2 p)) a.
Definition np_sqrt (a : list float) : list float := map F64.sqrt a.

(** [(c == -1).any()] *)
Definition any_minus_one (c : Vec3) : bool :=
  F64.eqb (v0 c) minus_one || F64.eqb (v1 c) minus_one || F64.eqb (v2 c) minus_one.

(** [c / 255.0] *)
Definition div_255 (c : Vec3) : Vec3 :=
  mkVec3 (F64.div (v0 c) (F64.of_Z 255)) (F64.div (v1 c) (F64.of_Z 255))
         (F64.div (v2 c) (F64.of_Z 255)).

(** ["v {v[0]:.8f} {v[1]:.8f} {v[2]:.8f} {c[0]:.4f} {c[1]:.4f} {c[2]:.4f}\n".format(v=v, c=c)] *)
Definition obj_line (v c : Vec3) : string :=
  ("v " ++ F64.format_f 8 (v0 v) ++ " " ++ F64.format_f 8 (v1 v) ++ " " ++ F64.format_f 8 (v2 v)
   ++ " " ++ F64.format_f 4 (v0 c) ++ " " ++ F64.format_f 4 (v1 c) ++ " " ++ F64.format_f 4 (v2 c)
   ++ nl)%string.

Definition obj_header : string := ("OBJ File:" ++ nl)%string.

Section Program.

(** [Quaternion(q).rotation_matrix] of pyquaternion, an external library. *)
Variable rotation_matrix : Quaternion -> Mat3.

(** The file system the script runs on. *)
Variable fs : FileSystem.

(** Modelled from the spec: [NuScenes.get(table, token)] is not among the
    sources; it returns the record of that token and fails with the
    missing-record error when the table has none. *)
Definition nusc_get {A : Type} (table : string) (rows : gmap string A) (token : string) : M A :=
  emit (EvGet table token) ;;
  match rows !! token with
  | Some rec => ret rec
  | None => raise (KeyError token)
  end.

(** Modelled from the spec: [PointCloud.from_file] is the external point-cloud
    loader; given a path it returns a point cloud. *)
Definition PointCloud_from_file (path : string) : M PointCloud :=
  emit (EvLoadPointCloud path) ;;
  match pointcloud_files fs !! path with
  | Some pc => ret pc
  | None => raise (FileNotFoundError path)
  end.

(** [Image.open] of PIL, the external image loader. *)
Definition Image_open (path : string) : M Image :=
  emit (EvOpenImage path) ;;
  match image_files fs !! path with
  | Some im => ret im
  | None => raise (FileNotFoundError path)
  end.

(** [open(path, 'w')], [f.write(s)], [print(s)]; the error of [open], be it
    for a missing directory or a missing permission, is written
    [PermissionError]. *)
Definition open_w (path : string) : M unit :=
  if writable fs path then emit (EvOpenFile path) else raise (PermissionError path).
Definition f_write (s : string) : M unit := emit (EvWrite s).
Definition print (s : string) : M unit := emit (EvPrint s).

(** [d[key]] on a dictionary, [name] read from the module's globals *)
Definition dict_get (d : gmap string string) (key : string) : M string :=
  match d !! key with
  | Some v => ret v
  | None => raise (KeyError key)
  end.
Definition global_get {A : Type} (name : string) (binding : option A) : M A :=
  match binding with
  | Some v => ret v
  | None => raise (NameError name)
  end.

(** [a[:, mask] = vals] with numpy's two checks *)
Definition setitem_mask {A : Type} (a : list A) (mask : list bool) (vals : list A) : M (list A) :=
  if negb (length mask =? length a)%nat then raise IndexError
  else match mask_assign a mask vals with
       | Some a' => ret a'
       | None => raise ValueError
       end.

(** The body of the colour loop: the pixel a projected point falls on. *)
Definition pick_color (im : Image) (p : Vec3) : M Vec3 :=
  let point0 := F64.astype_int32 (F64.rint (v0 p)) in
  let point1 := F64.astype_int32 (F64.rint (v1 p)) in
  match im_data_get im point1 point0 with
  | Some px => ret (pixel_to_color px)
  | None => raise IndexError
  end.

(** Lines 104-129: the records, the two files, and the four steps that take
    the points from the point sensor frame to the camera frame. *)
Definition camera_frame (nusc : NuScenes) (pointsensor_token camera_token : string)
  : M (Image * CalibratedSensorRec * PointCloud) :=
  cam <- nusc_get "sample_data" (sample_data nusc) camera_token ;;
  pointsensor <- nusc_get "sample_data" (sample_data nusc) pointsensor_token ;;
  pc <- PointCloud_from_file (osp_join (dataroot nusc) (sd_filename pointsensor)) ;;
  im <- Image_open (osp_join (dataroot nusc) (sd_filename cam)) ;;
  (* First step: to the ego vehicle frame for the timestamp of the sweep. *)
  cs_record <- nusc_get "calibrated_sensor" (calibrated_sensor nusc)
                 (sd_calibrated_sensor_token pointsensor) ;;
  let pc := rotate (rotation_matrix (cs_rotation cs_record)) pc in
  let pc := translate (cs_translation cs_record) pc in
  (* Second step: to the global frame. *)
  poserecord <- nusc_get "ego_pose" (ego_pose nusc) (sd_ego_pose_token pointsensor) ;;
  let pc := rotate (rotation_matrix (ep_rotation poserecord)) pc in
  let pc := translate (ep_translation poserecord) pc in
  (* Third step: into the ego vehicle frame for the timestamp of the image. *)
  poserecord <- nusc_get "ego_pose" (ego_pose nusc) (sd_ego_pose_token cam) ;;
  let pc := translate (vec_neg (ep_translation poserecord)) pc in
  let pc := rotate (transpose (rotation_matrix (ep_rotation poserecord))) pc in
  (* Fourth step: into the camera. *)
  cs_record <- nusc_get "calibrated_sensor" (calibrated_sensor nusc)
                 (sd_calibrated_sensor_token cam) ;;
  let pc := translate (vec_neg (cs_translation cs_record)) pc in
  let pc := rotate (transpose (rotation_matrix (cs_rotation cs_record))) pc in
  ret (im, cs_record, pc).

(** Lines 138-144: the visibility mask. *)
Definition camera_mask (im : Image) (depths : list float) (points : list Vec3) : list bool :=
  let mask := np_ones_bool (length depths) in
  let mask := logical_and mask (np_gt depths (F64.of_Z 0)) in
  let mask := logical_and mask (np_gt (map v0 points) (F64.of_Z 1)) in
  let mask := logical_and mask (np_lt (map v0 points) (F64.of_Z (Z.of_N (im_width im) - 1))) in
  let mask := logical_and mask (np_gt (map v1 points) (F64.of_Z 1)) in
  let mask := logical_and mask (np_lt (map v1 points) (F64.of_Z (Z.of_N (im_height im) - 1))) in
  mask.

(** Lines 131-136: the depths and the projected points of a cloud in the
    camera frame; the intrinsic matrix is missing on a sensor that is no camera. *)
Definition take_picture (cs_record : CalibratedSensorRec) (pc : PointCloud)
  : M (list float * list Vec3) :=
  let depths := map (fun p => v2 (xyz p)) pc in
  camera_intrinsic <- match cs_camera_intrinsic cs_record with
                      | Some k => ret k
                      | None => raise IndexError
                      end ;;
  ret (depths, view_points (map xyz pc) camera_intrinsic true).

Definition pointcloud_color_from_image (nusc : NuScenes) (pointsensor_token camera_token : string)
  : M (list Vec3 * list bool) :=
  r <- camera_frame nusc pointsensor_token camera_token ;;
  let '(im, cs_record, pc) := r in
  r <- take_picture cs_record pc ;;
  let '(depths, points) := r in
  let mask := camera_mask im depths points in
  let points := compress mask points in
  coloring <- mapM (pick_color im) points ;;
  ret (coloring, mask).

(** Lines 57-58: the colours and the mask one camera gives. [globals_nusc] is
    the binding of the name [nusc] in the module's globals, which line 58 reads. *)
Definition camera_colors (globals_nusc : option NuScenes) (sample_rec : SampleRec)
    (lidar_token : string) (channel : string) : M (list Vec3 * list bool) :=
  camera_token <- dict_get (data sample_rec) channel ;;
  nusc <- global_get "nusc" globals_nusc ;;
  pointcloud_color_from_image nusc lidar_token camera_token.

(** Lines 57-59: the body of the colour loop. *)
Definition color_step (globals_nusc : option NuScenes) (sample_rec : SampleRec)
    (lidar_token : string) (coloring : list Vec3) (channel : string) : M (list Vec3) :=
  r <- camera_colors globals_nusc sample_rec lidar_token channel ;;
  let '(cam_coloring, cam_mask) := r in
  setitem_mask coloring cam_mask cam_coloring.

(** Lines 55-59: the colour loop over the six cameras. *)
Definition point_cloud_colors (globals_nusc : option NuScenes) (sample_rec : SampleRec)
    (lidar_token : string) (pc : PointCloud) : M (list Vec3) :=
  let coloring := replicate (length pc) no_color in
  foldM (color_step globals_nusc sample_rec lidar_token) coloring camera_channels.

(** Lines 68-71: the distance filter on a cloud in the ego frame. *)
Definition distance_keep (min_dist max_dist : float) (pc : PointCloud) : list bool :=
  let dists_origin := np_sqrt (np_sum_axis0 (np_square (map xyz pc))) in
  logical_and (np_ge dists_origin min_dist) (np_le dists_origin max_dist).

(** Lines 81-86: the points are written, those without a colour are not. *)
Definition write_points (pc : PointCloud) (coloring : list Vec3) : M unit :=
  forM_ (zip (map xyz pc) coloring)
    (fun vc => let '(v, c) := vc in
               if any_minus_one c then ret tt
               else f_write (obj_line v (div_255 c))).

(** Lines 47-86: one frame. *)
Definition process_frame (globals_nusc : option NuScenes) (explorer : NuScenesExplorer)
    (min_dist max_dist : float) (verbose : bool) (sd_rec : SampleDataRec) : M unit :=
  when verbose (print ("Processing frame: " ++ sd_filename sd_rec)) ;;
  sample_rec <- nusc_get "sample" (sample (nusc explorer)) (sd_sample_token sd_rec) ;;
  let lidar_token := sd_token sd_rec in
  lidar_rec <- nusc_get "sample_data" (sample_data (nusc explorer)) lidar_token ;;
  pc <- PointCloud_from_file (osp_join (dataroot (nusc explorer)) (sd_filename lidar_rec)) ;;
  (* Get point cloud colors. *)
  coloring <- point_cloud_colors globals_nusc sample_rec lidar_token pc ;;
  (* First step: to the ego vehicle frame for the timestamp of the sweep. *)
  cs_record <- nusc_get "calibrated_sensor" (calibrated_sensor (nusc explorer))
                 (sd_calibrated_sensor_token lidar_rec) ;;
  let pc := rotate (rotation_matrix (cs_rotation cs_record)) pc in
  let pc := translate (cs_translation cs_record) pc in
  (* Filter by distance to remove the ego vehicle. *)
  let keep := distance_keep min_dist max_dist pc in
  let pc := compress keep pc in
  let coloring := compress keep coloring in
  when verbose (print ("Distance filter: Keeping " ++ format_d (Z.of_nat (count_true keep))
                       ++ " of " ++ format_d (Z.of_nat (length keep)) ++ " points...")) ;;
  (* Second step: to the global frame. *)
  poserecord <- nusc_get "ego_pose" (ego_pose (nusc explorer)) (sd_ego_pose_token lidar_rec) ;;
  let pc := rotate (rotation_matrix (ep_rotation poserecord)) pc in
  let pc := translate (ep_translation poserecord) pc in
  (* The points go to the file. *)
  write_points pc coloring.

(** Lines 46-92: the loop over the frames; its state is [has_more_frames],
    [sd_rec] and [frame_ind]. [fuel] bounds the number of iterations, and the
    final [frame_ind] is handed back to make the number of frames visible. *)
Fixpoint frames_loop (fuel : nat) (globals_nusc : option NuScenes) (explorer : NuScenesExplorer)
    (min_dist max_dist : float) (verbose : bool)
    (has_more_frames : bool) (sd_rec : SampleDataRec) (frame_ind : Z) : M Z :=
  if has_more_frames then
    match fuel with
    | O => unfinished
    | S fuel' =>
        process_frame globals_nusc explorer min_dist max_dist verbose sd_rec ;;
        st <- (if negb (String.eqb (sd_next sd_rec) "")
               then sd_rec' <- nusc_get "sample_data" (sample_data (nusc explorer))
                                 (sd_next sd_rec) ;;
                    ret (sd_rec', true)
               else ret (sd_rec, false)) ;;
        let '(sd_rec, has_more_frames) := st in
        frames_loop fuel' globals_nusc explorer min_dist max_dist verbose
          has_more_frames sd_rec (frame_ind + 1)
    end
  else ret frame_ind.

Definition export_scene_pointcloud (fuel : nat) (globals_nusc : option NuScenes)
    (explorer : NuScenesExplorer) (out_path scene_token channel : string)
    (min_dist max_dist : float) (verbose : bool) : M Z :=
  (* Check inputs. *)
  (if bool_decide (channel ∈ valid_channels) then ret tt
   else raise (AssertionError ("Input channel " ++ channel ++ " not valid."))) ;;
  (* Get records from DB. *)
  scene_rec <- nusc_get "scene" (scene (nusc explorer)) scene_token ;;
  start_sample_rec <- nusc_get "sample" (sample (nusc explorer)) (first_sample_token scene_rec) ;;
  start_token <- dict_get (data start_sample_rec) channel ;;
  sd_rec <- nusc_get "sample_data" (sample_data (nusc explorer)) start_token ;;
  (* Write point-cloud. *)
  open_w out_path ;;
  f_write obj_header ;;
  frames_loop fuel globals_nusc explorer min_dist max_dist verbose true sd_rec 0.

End Program.

(** ** The frame transforms, point by point

    The elementary transforms of the frame chain as the design states them:
    forward, rotate then translate; backward, translate by the negated vector
    then rotate by the transposed matrix. *)

Section Frames.

Variable rotation_matrix : Quaternion -> Mat3.

Definition sensor_to_ego (cs : CalibratedSensorRec) (v : Vec3) : Vec3 :=
  vec_add (mat_vec (rotation_matrix (cs_rotation cs)) v) (cs_translation cs).

Definition ego_to_global (ego : EgoPoseRec) (v : Vec3) : Vec3 :=
  vec_add (mat_vec (rotation_matrix (ep_rotation ego)) v) (ep_translation ego).

Definition global_to_ego (ego : EgoPoseRec) (v : Vec3) : Vec3 :=
  mat_vec (transpose (rotation_matrix (ep_rotation ego)))
          (vec_add v (vec_neg (ep_translation ego))).

Definition ego_to_sensor (cs : CalibratedSensorRec) (v : Vec3) : Vec3 :=
  mat_vec (transpose (rotation_matrix (cs_rotation cs)))
          (vec_add v (vec_neg (cs_translation cs))).

(** Source sensor frame to destination sensor frame, through ego and global. *)
Definition frame_chain (cs_src : CalibratedSensorRec) (ego_src ego_dst : EgoPoseRec)
    (cs_dst : CalibratedSensorRec) (v : Vec3) : Vec3 :=
  ego_to_sensor cs_dst (global_to_ego ego_dst (ego_to_global ego_src (sensor_to_ego cs_src v))).

End Frames.

(** ** Projection and visibility, point by point *)

(** The pixel coordinates [(u, v)] of a point of the camera frame. *)
Definition project (intrinsic : Mat3) (p : Vec3) : float * float :=
  let q := mat_vec intrinsic p in (F64.div (v0 q) (v2 q), F64.div (v1 q) (v2 q)).

(** In front of the camera, and more than one pixel inside every border. *)
Definition visible (im : Image) (depth u v : float) : Prop :=
  F64.ltb (F64.of_Z 0) depth = true /\
  (F64.ltb (F64.of_Z 1) u = true /\ F64.ltb u (F64.of_Z (Z.of_N (im_width im) - 1)) = true) /\
  (F64.ltb (F64.of_Z 1) v = true /\ F64.ltb v (F64.of_Z (Z.of_N (im_height im) - 1)) = true).

(** ** The colour buffer, point by point *)

(** What one more camera does to the entry of point [i]: its colour for that
    point replaces the entry when its mask holds there. *)
Definition paint_step (i : nat) (entry : option Vec3) (cam : list Vec3 * list bool)
  : option Vec3 :=
  match snd cam !! i with
  | Some true => fst cam !! rank (snd cam) i
  | _ => entry
  end.

(** The entry of point [i] after the cameras [cams], taken in order. *)
Definition painted (entry : option Vec3) (cams : list (list Vec3 * list bool)) (i : nat)
  : option Vec3 :=
  fold_left (paint_step i) cams entry.

(** No colour for point [i] from this camera. *)
Definition unseen (i : nat) (cam : list Vec3 * list bool) : Prop := snd cam !! i <> Some true.

(** ** A frame, point by point *)

(** The distance of a point from the origin of the frame it is expressed in. *)
Definition distance_from_origin (v : Vec3) : float :=
  F64.sqrt (F64.add (F64.add (F64.mul (v0 v) (v0 v)) (F64.mul (v1 v) (v1 v)))
                    (F64.mul (v2 v) (v2 v))).

(** Membership of the closed interval [[min_dist, max_dist]]. *)
Definition in_range (min_dist max_dist d : float) : bool :=
  F64.leb min_dist d && F64.leb d max_dist.

(** The line emission gives a point with its buffer entry, if any. *)
Definition emitted (vc : Vec3 * Vec3) : option string :=
  if any_minus_one (snd vc) then None else Some (obj_line (fst vc) (div_255 (snd vc))).

(** The vertex lines of one frame: the points are taken to the ego frame,
    those within range are kept, taken on to the global frame and emitted. *)
Definition frame_lines (rotation_matrix : Quaternion -> Mat3)
    (cs_record : CalibratedSensorRec) (poserecord : EgoPoseRec)
    (min_dist max_dist : float) (pc : PointCloud) (coloring : list Vec3) : list string :=
  omap (fun pcol : Point * Vec3 =>
          let e := sensor_to_ego rotation_matrix cs_record (xyz (fst pcol)) in
          if in_range min_dist max_dist (distance_from_origin e)
          then emitted (ego_to_global rotation_matrix poserecord e, snd pcol)
          else None)
       (zip pc coloring).

(** A line of the output that stands for a point coloured from a pixel. *)
Definition vertex_line (line : string) : Prop :=
  exists (v : Vec3) (px : Pixel), line = obj_line v (div_255 (pixel_to_color px)).

(** A computation that writes nothing to the file and comes to an end. *)
Definition quiet {A : Type} (m : M A) : Prop :=
  written (trace m) = [] /\ result m <> Unfinished.

(** ** The chain of a scene *)

(** [chain nusc r l]: the [next] links from [r] lead through the records [l],
    [r] first, and the last of them has the empty link. *)
Inductive chain (nusc : NuScenes) : SampleDataRec -> list SampleDataRec -> Prop :=
  | chain_last (r : SampleDataRec) :
      sd_next r = "" -> chain nusc r [r]
  | chain_next (r r' : SampleDataRec) (l : list SampleDataRec) :
      sd_next r <> "" -> sample_data nusc !! sd_next r = Some r' ->
      chain nusc r' l -> chain nusc r (r :: l).

(** [dangling nusc r l token]: the links from [r] lead through the records
    [l], and the last of them names [token], of which the store has no record. *)
Inductive dangling (nusc : NuScenes) : SampleDataRec -> list SampleDataRec -> string -> Prop :=
  | dangling_last (r : SampleDataRec) :
      sd_next r <> "" -> sample_data nusc !! sd_next r = None ->
      dangling nusc r [r] (sd_next r)
  | dangling_next (r r' : SampleDataRec) (l : list SampleDataRec) (token : string) :
      sd_next r <> "" -> sample_data nusc !! sd_next r = Some r' ->
      dangling nusc r' l token -> dangling nusc r (r :: l) token.

(** What the loop does at the end of a frame: nothing more on the last
    record, the fetch of the next record otherwise. *)
Definition link_events (r : SampleDataRec) : list event :=
  if String.eqb (sd_next r) "" then [] else [EvGet "sample_data" (sd_next r)].

(** What happens before the loop when the records of the scene are found. *)
Definition prelude_events (out_path scene_token start_token : string) (scene_rec : SceneRec)
  : list event :=
  [EvGet "scene" scene_token; EvGet "sample" (first_sample_token scene_rec);
   EvGet "sample_data" start_token; EvOpenFile out_path; EvWrite obj_header].

(** A mantissa of at most 53 bits, as every result of an operation has. *)
Definition mantissa_bounded (x : float) : bool :=
  match x with
  | S754_finite _ m _ => Z.pos (digits2_pos m) <=? F64.prec
  | _ => true
  end.

(** A finite value, zero included. *)
Definition is_finite (x : float) : bool :=
  match x with
  | S754_zero _ | S754_finite _ _ _ => true
  | _ => false
  end.

(** ** A small scene to run the script on *)

Module Demo.

Definition f (z : Z) : float := F64.of_Z z.

(** The rotation matrix of a unit quaternion, by the textbook formula. *)
Definition rotation_matrix (q : Quaternion) : Mat3 :=
  let w := qw q in let x := qx q in let y := qy q in let z := qz q in
  let two := f 2 in
  let one := f 1 in
  let m a b := F64.mul a b in
  mkMat3
    (mkVec3 (F64.sub one (m two (F64.add (m y y) (m z z))))
            (m two (F64.sub (m x y) (m z w)))
            (m two (F64.add (m x z) (m y w))))
    (mkVec3 (m two (F64.add (m x y) (m z w)))
            (F64.sub one (m two (F64.add (m x x) (m z z))))
            (m two (F64.sub (m y z) (m x w))))
    (mkVec3 (m two (F64.sub (m x z) (m y w)))
            (m two (F64.add (m y z) (m x w)))
            (F64.sub one (m two (F64.add (m x x) (m y y))))).

Definition q_id : Quaternion := mkQuaternion (f 1) (f 0) (f 0) (f 0).
Definition vec (x y z : Z) : Vec3 := mkVec3 (f x) (f y) (f z).
Definition k_id : Mat3 := mkMat3 (vec 1 0 0) (vec 0 1 0) (vec 0 0 1).

(** Three chained lidar sweeps [l1 -> l2 -> l3], one sample each. *)
Definition sweep (tok file smp next : string) : SampleDataRec :=
  mkSampleDataRec tok file smp "cs_lidar" "pose" next.
Definition l1 : SampleDataRec := sweep "l1" "sweeps/l1.bin" "s1" "l2".
Definition l2 : SampleDataRec := sweep "l2" "sweeps/l2.bin" "s2" "l3".
Definition l3 : SampleDataRec := sweep "l3" "sweeps/l3.bin" "s3" "".

Definition camera (tok file cs : string) : SampleDataRec :=
  mkSampleDataRec tok file "s1" cs "pose" "".
Definition cam_fr : SampleDataRec := camera "cam_fr" "img/fr.jpg" "cs_here".
Definition cameras : list (string * SampleDataRec) :=
  [("cam_fl", camera "cam_fl" "img/fl.jpg" "cs_away");
   ("cam_f", camera "cam_f" "img/f.jpg" "cs_here");
   ("cam_bl", camera "cam_bl" "img/bl.jpg" "cs_away");
   ("cam_b", camera "cam_b" "img/b.jpg" "cs_away");
   ("cam_br", camera "cam_br" "img/br.jpg" "cs_away")]%string.

Definition sample_of (lidar : string) : SampleRec :=
  mkSampleRec (list_to_map
    [("LIDAR_TOP", lidar); ("CAM_FRONT_LEFT", "cam_fl"); ("CAM_FRONT", "cam_f");
     ("CAM_FRONT_RIGHT", "cam_fr"); ("CAM_BACK_LEFT", "cam_bl"); ("CAM_BACK", "cam_b");
     ("CAM_BACK_RIGHT", "cam_br")]%string).

Definition cs_lidar : CalibratedSensorRec := mkCalibratedSensorRec q_id (vec 0 0 0) None.
Definition cs_here : CalibratedSensorRec := mkCalibratedSensorRec q_id (vec 0 0 0) (Some k_id).
Definition cs_away : CalibratedSensorRec := mkCalibratedSensorRec q_id (vec 0 0 100) (Some k_id).
Definition pose : EgoPoseRec := mkEgoPoseRec q_id (vec 1 2 3).

(** The store with a given front-right camera record and a given last sweep.
    Cameras calibrated at the lidar's place look along +z; those moved 100 m
    along +z have every point of the demo behind them. *)
Definition store_with (front_right last : SampleDataRec) : NuScenes :=
  mkNuScenes "/data"
    (list_to_map [("scene-1", mkSceneRec "s1")]%string)
    (list_to_map [("s1", sample_of "l1"); ("s2", sample_of "l2"); ("s3", sample_of "l3")]%string)
    (list_to_map
       ([("l1", l1); ("l2", l2); ("l3", last); ("cam_fr", front_right)]%string ++ cameras))
    (list_to_map
       [("cs_lidar", cs_lidar); ("cs_here", cs_here); ("cs_away", cs_away)]%string)
    (list_to_map [("pose", pose)]%string).

Definition store : NuScenes := store_with cam_fr l3.

(** The same store, its front-right camera reading the picture of the front one. *)
Definition store_alt : NuScenes := store_with (camera "cam_fr" "img/f.jpg" "cs_here") l3.

(** The same store, its last sweep linked to a record that does not exist. *)
Definition l3_broken : SampleDataRec := sweep "l3" "sweeps/l3.bin" "s3" "l4".
Definition store_broken : NuScenes := store_with cam_fr l3_broken.

Definition plain (r g b : byte) : Image :=
  mkImage 5 5 (fun _ _ => mkPixel r g b) eq_refl eq_refl.

(** The points of a sweep, in the lidar frame, which is the frame of the
    front and front-right cameras: seen at pixel (2, 2) from 15 m; projected
    on (0, 0); seen from exactly 3 m; behind the cameras; seen from exactly
    30 m; seen from 60 m. *)
Definition cloud : PointCloud :=
  [mkPoint (vec 10 10 5) []; mkPoint (vec 0 0 5) []; mkPoint (vec 2 2 1) [];
   mkPoint (vec 10 10 (-5)) []; mkPoint (vec 20 20 10) []; mkPoint (vec 40 40 20) []].

Definition files : FileSystem :=
  mkFileSystem
    (list_to_map [("/data/sweeps/l1.bin", cloud); ("/data/sweeps/l2.bin", cloud);
                  ("/data/sweeps/l3.bin", [])]%string)
    (list_to_map
       [("/data/img/fl.jpg", plain x01 x01 x01); ("/data/img/f.jpg", plain xff x00 x00);
        ("/data/img/fr.jpg", plain x80 x40 x20); ("/data/img/bl.jpg", plain x02 x02 x02);
        ("/data/img/b.jpg", plain x03 x03 x03); ("/data/img/br.jpg", plain x04 x04 x04)]%string)
    (fun _ => true).

Definition explorer : NuScenesExplorer := mkNuScenesExplorer store.
Definition explorer_broken : NuScenesExplorer := mkNuScenesExplorer store_broken.

Definition out_path : string := "/out/scene-1.obj".

(** The export of the scene, by default distances and without messages. *)
Definition run (fuel : nat) (globals_nusc : option NuScenes) (explorer : NuScenesExplorer)
    (channel : string) : M Z :=
  export_scene_pointcloud rotation_matrix files fuel globals_nusc explorer
    out_path "scene-1" channel default_min_dist default_max_dist false.

(** The first frame, and the colours of its points camera by camera. *)
Definition frame1 (globals_nusc : option NuScenes) : M unit :=
  process_frame rotation_matrix files globals_nusc explorer
    default_min_dist default_max_dist false l1.

Definition view (channel : string) : M (list Vec3 * list bool) :=
  camera_colors rotation_matrix files (Some store) (sample_of "l1") "l1" channel.

Definition colors1 : M (list Vec3) :=
  point_cloud_colors rotation_matrix files (Some store) (sample_of "l1") "l1" cloud.

Definition red_pixel : Vec3 := pixel_to_color (mkPixel xff x00 x00).
Definition brown_pixel : Vec3 := pixel_to_color (mkPixel x80 x40 x20).

(** What the front and front-right cameras see of the cloud, and the buffer
    of the first frame after the six cameras. *)
Definition mask_here : list bool := [true; false; true; false; true; true].
Definition coloring1 : list Vec3 :=
  [brown_pixel; no_color; brown_pixel; no_color; brown_pixel; brown_pixel].

End Demo.

(** ** Events, failures and links, for the properties of the whole run *)

(** The events of one kind in a trace. *)
Definition is_load (ev : event) : bool :=
  match ev with EvLoadPointCloud _ => true | _ => false end.
Definition is_image (ev : event) : bool :=
  match ev with EvOpenImage _ => true | _ => false end.
Definition is_print (ev : event) : bool :=
  match ev with EvPrint _ => true | _ => false end.
Definition is_open_file (ev : event) : bool :=
  match ev with EvOpenFile _ => true | _ => false end.

(** A trace without its messages. *)
Definition unprinted (tr : list event) : list event :=
  List.filter (fun ev => negb (is_print ev)) tr.

(** A bound on the failures of a frame of the model, which serves to tell
    the exceptions the statements of the script never raise: a record or a
    dictionary key that is missing, a file that is missing, the name [nusc]
    unbound, and an index error. *)
Definition frame_error (g : option NuScenes) (explorer : NuScenesExplorer) (e : exn) : Prop :=
  (exists key, e = KeyError key) \/
  (exists path, e = FileNotFoundError path) \/
  (e = NameError "nusc" /\ g = None) \/
  (e = IndexError /\
   ((exists (store : NuScenes) (token : string) (cs_record : CalibratedSensorRec),
       g = Some store /\ calibrated_sensor store !! token = Some cs_record /\
       cs_camera_intrinsic cs_record = None) \/
    g <> Some (nusc explorer))).

(** A computation none of whose events is of the kind [p]. *)
Definition never {A : Type} (p : event -> bool) (m : M A) : Prop :=
  List.filter p (trace m) = [].

(** Two computations with one outcome and, the messages apart, one trace. *)
Definition same_but_prints {A : Type} (m1 m2 : M A) : Prop :=
  result m1 = result m2 /\ unprinted (trace m1) = unprinted (trace m2).


(** [float('inf')], and the tests for NaN and for a number that is not
    negative: +0, a positive finite value or +inf. *)
Definition float_inf : float := S754_infinity false.

Definition is_nan (x : float) : bool :=
  match x with S754_nan => true | _ => false end.

Definition not_negative (x : float) : bool :=
  match x with
  | S754_zero false | S754_finite false _ _ | S754_infinity false => true
  | _ => false
  end.

Definition has_nan (v : Vec3) : bool := is_nan (v0 v) || is_nan (v1 v) || is_nan (v2 v).

(** ** The demo scene with faults *)

Module Faults.

(** The front-right camera calibrated as the lidar is: its record has no
    intrinsic matrix. *)
Definition store_blind : NuScenes :=
  Demo.store_with (Demo.camera "cam_fr" "img/fr.jpg" "cs_lidar") Demo.l3.
Definition explorer_blind : NuScenesExplorer := mkNuScenesExplorer store_blind.


(** The last sweep linked back to the first. *)
Definition l3_loop : SampleDataRec := Demo.sweep "l3" "sweeps/l3.bin" "s3" "l1".
Definition store_loop : NuScenes := Demo.store_with Demo.cam_fr l3_loop.
Definition explorer_loop : NuScenesExplorer := mkNuScenesExplorer store_loop.
Definition on_loop (r : SampleDataRec) : Prop := r ∈ [Demo.l1; Demo.l2; l3_loop].

(** The file system of the demo, the picture of the front camera two pixels
    wide. *)
Definition narrow : Image := mkImage 2 5 (fun _ _ => mkPixel xff x00 x00) eq_refl eq_refl.
Definition files_narrow : FileSystem :=
  mkFileSystem
    (pointcloud_files Demo.files)
    (<["/data/img/f.jpg"%string := narrow]> (image_files Demo.files))
    (fun _ => true).

End Faults.

(** ** The main block *)

(** A record of the scene table as the main block reads it: [s['token']]
    and [s['name']]. *)
Record SceneRow : Type := mkSceneRow { row_token : string; row_name : string }.

(** What the main block asks of the operating system: [osp.isdir(path)],
    [osp.exists(path)], and [os.mkdir(path)], which makes the directory or
    raises an error. *)
Record World : Type := mkWorld {
  isdir : string -> bool;
  path_exists : string -> bool;
  mkdir : string -> option exn
}.

(** [s.rstrip('/')] *)
Fixpoint rstrip_slash (s : string) : string :=
  match s with
  | EmptyString => EmptyString
  | String c s' =>
      match rstrip_slash s' with
      | EmptyString => if Ascii.eqb c "/" then EmptyString else String c EmptyString
      | r => String c r
      end
  end.

(** [osp.expanduser('~' + rest)] on a POSIX system, [rest] beginning with a
    slash and [home] being the home directory of the environment. *)
Definition expanduser (home rest : string) : string := (rstrip_slash home ++ rest)%string.

Section Main.

Variable rotation_matrix : Quaternion -> Mat3.
Variable fs : FileSystem.

(** Lines 164-169: the loop over the scenes.  [nusc] is the store bound to
    the global name, [scene_table] its scene table as [nusc.get] reads it,
    [explorer] the value of [nusc.explorer].  [created] holds the files the
    exports so far have opened: they exist from then on. *)
Fixpoint scenes_loop (fuel : nat) (w : World) (nusc : NuScenes)
    (scene_table : gmap string SceneRow) (explorer : NuScenesExplorer)
    (pointcloud_dir : string) (scene_tokens : list string) (created : list string) : M unit :=
  match scene_tokens with
  | [] => ret tt
  | scene_token :: scene_tokens' =>
      scene <- nusc_get "scene" scene_table scene_token ;;
      let out_path := osp_join pointcloud_dir (row_name scene ++ ".obj") in
      if negb (path_exists w out_path || bool_decide (out_path ∈ created)) then
        export_scene_pointcloud rotation_matrix fs fuel (Some nusc) explorer out_path
          (row_token scene) "LIDAR_TOP" default_min_dist default_max_dist default_verbose ;;
        scenes_loop fuel w nusc scene_table explorer pointcloud_dir scene_tokens'
          (out_path :: created)
      else
        scenes_loop fuel w nusc scene_table explorer pointcloud_dir scene_tokens' created
  end.

(** Lines 156-169: the main block, after [nusc = NuScenes()] has given the
    store; [scene_rows] is the list [nusc.scene]. *)
Definition main (fuel : nat) (w : World) (home : string) (nusc : NuScenes)
    (scene_rows : list SceneRow) (scene_table : gmap string SceneRow)
    (explorer : NuScenesExplorer) : M unit :=
  let scene_tokens := map row_token scene_rows in
  (* Extract point-cloud for each scene. *)
  let pointcloud_dir := expanduser home "/nuscenes-visualization/pointclouds" in
  (if negb (isdir w pointcloud_dir)
   then match mkdir w pointcloud_dir with
        | None => ret tt
        | Some e => raise e
        end
   else ret tt) ;;
  scenes_loop fuel w nusc scene_table explorer pointcloud_dir scene_tokens [].

End Main.

(** The path of the file of a scene. *)
Definition scene_file (home : string) (scene : SceneRow) : string :=
  osp_join (expanduser home "/nuscenes-visualization/pointclouds") (row_name scene ++ ".obj").

(** At most the one event [ev] among the events of the kind [p]. *)
Definition at_most_once {A : Type} (p : event -> bool) (ev : event) (m : M A) : Prop :=
  List.filter p (trace m) = [] \/ List.filter p (trace m) = [ev].

(** ** The script on the demo scene *)

Module Script.

Definition home : string := "/home/user/".

(** A world in which nothing exists yet and the directory can be made. *)
Definition world : World := mkWorld (fun _ => false) (fun _ => false) (fun _ => None).

(** The same world after a first run: the file of the scene is there. *)
Definition world_after : World :=
  mkWorld (fun _ => true)
          (String.eqb "/home/user/nuscenes-visualization/pointclouds/scene-0001.obj")
          (fun _ => None).

Definition row : SceneRow := mkSceneRow "scene-1" "scene-0001".
Definition scene_rows : list SceneRow := [row].
Definition scene_table : gmap string SceneRow := list_to_map [("scene-1"%string, row)].

Definition run (w : World) (store : NuScenes) : M unit :=
  main Demo.rotation_matrix Demo.files 3 w home store scene_rows scene_table
    (mkNuScenesExplorer store).

End Script.

(** * Properties *)

(** ** The effect monad *)

Lemma result_bind {A B : Type} (m : M A) (k : A -> M B) :
  result (bind m k) =
  match result m with
  | Return a => result (k a)
  | Raise e => Raise e
  | Unfinished => Unfinished
  end.
Proof.
  destruct m as [tr [a | e |]]; simpl; trivial.
  destruct (k a); reflexivity.
Qed.

Lemma trace_bind {A B : Type} (m : M A) (k : A -> M B) :
  trace (bind m k) =
  trace m ++ match result m with
             | Return a => trace (k a)
             | _ => []
             end.
Proof.
  destruct m as [tr [a | e |]]; simpl; rewrite ?app_nil_r; trivial.
  destruct (k a); reflexivity.
Qed.

Lemma bind_Return_inv {A B : Type} (m : M A) (k : A -> M B) (b : B) :
  result (bind m k) = Return b ->
  exists a, result m = Return a /\ result (k a) = Return b.
Proof.
  rewrite result_bind. destruct (result m) as [a | e |]; try discriminate.
  intros H. exists a. split; [reflexivity | exact H].
Qed.

Lemma bind_Return {A B : Type} (m : M A) (k : A -> M B) (a : A) :
  result m = Return a -> result (bind m k) = result (k a).
Proof. intros H. rewrite result_bind, H. reflexivity. Qed.

(** ** Arrays: masks, selection and masked assignment *)

Lemma lookup_map {A B : Type} (f : A -> B) (l : list A) (i : nat) :
  map f l !! i = f <$> l !! i.
Proof.
  revert i. induction l as [| x l IH]; intros [| i]; simpl; auto.
Qed.

Lemma logical_and_lookup (a b : list bool) (i : nat) (x y : bool) :
  a !! i = Some x -> b !! i = Some y -> logical_and a b !! i = Some (x && y).
Proof.
  intros Ha Hb. unfold logical_and. rewrite lookup_zip_with, Ha. simpl. rewrite Hb. reflexivity.
Qed.

Lemma logical_and_length (a b : list bool) :
  length a = length b -> length (logical_and a b) = length a.
Proof. intros H. unfold logical_and. rewrite length_zip_with. lia. Qed.

Lemma compress_length {A : Type} (mask : list bool) (a : list A) :
  length mask = length a -> length (compress mask a) = count_true mask.
Proof.
  revert a. induction mask as [| b mask IH]; intros [| x a] H; simpl in *; try discriminate; trivial.
  injection H as H. destruct b; simpl; rewrite IH; trivial.
Qed.

Lemma compress_lookup {A : Type} (mask : list bool) (a : list A) (i : nat) (x : A) :
  mask !! i = Some true -> a !! i = Some x -> compress mask a !! rank mask i = Some x.
Proof.
  unfold rank. revert a i. induction mask as [| b mask IH]; intros [| y a] [| i] Hm Ha;
    simpl in *; try discriminate.
  - injection Hm as ->. exact Ha.
  - destruct b; simpl; apply IH; assumption.
Qed.

Lemma compress_lookup_inv {A : Type} (mask : list bool) (a : list A) (j : nat) (x : A) :
  compress mask a !! j = Some x ->
  exists i, mask !! i = Some true /\ a !! i = Some x /\ j = rank mask i.
Proof.
  unfold rank. revert a j. induction mask as [| b mask IH]; intros [| y a] j H;
    simpl in *; try discriminate.
  destruct b.
  - destruct j as [| j]; simpl in H.
    + exists O. auto.
    + destruct (IH _ _ H) as (i & Hm & Ha & ->). exists (S i). auto.
  - destruct (IH _ _ H) as (i & Hm & Ha & ->). exists (S i). auto.
Qed.

Lemma mask_assign_length {A : Type} (a : list A) (mask : list bool) (vals a' : list A) :
  mask_assign a mask vals = Some a' ->
  length a' = length a /\ length mask = length a /\ length vals = count_true mask.
Proof.
  revert mask vals a'. induction a as [| x a IH]; intros [| b mask] vals a' H;
    simpl in H; try discriminate.
  - destruct vals; try discriminate. injection H as <-. auto.
  - destruct b.
    + destruct vals as [| y vals]; try discriminate.
      destruct (mask_assign a mask vals) as [r |] eqn:E; try discriminate.
      injection H as <-. destruct (IH _ _ _ E) as (H1 & H2 & H3). simpl. auto.
    + destruct (mask_assign a mask vals) as [r |] eqn:E; try discriminate.
      injection H as <-. destruct (IH _ _ _ E) as (H1 & H2 & H3). simpl. auto.
Qed.

(** Where the mask holds the entry is the matching column of [vals];
    elsewhere it is untouched. *)
Lemma mask_assign_lookup {A : Type} (a : list A) (mask : list bool) (vals a' : list A) (i : nat) :
  mask_assign a mask vals = Some a' ->
  a' !! i = match mask !! i with
            | Some true => vals !! rank mask i
            | _ => a !! i
            end.
Proof.
  unfold rank. revert mask vals a' i. induction a as [| x a IH]; intros [| b mask] vals a' i H;
    simpl in H; try discriminate.
  - destruct vals; try discriminate. injection H as <-. reflexivity.
  - destruct b.
    + destruct vals as [| y vals]; try discriminate.
      destruct (mask_assign a mask vals) as [r |] eqn:E; try discriminate.
      injection H as <-. destruct i as [| i]; simpl; trivial. apply (IH _ _ _ i) in E. exact E.
    + destruct (mask_assign a mask vals) as [r |] eqn:E; try discriminate.
      injection H as <-. destruct i as [| i]; simpl; trivial. apply (IH _ _ _ i) in E. exact E.
Qed.

Lemma mask_assign_total {A : Type} (a : list A) (mask : list bool) (vals : list A) :
  length mask = length a -> length vals = count_true mask ->
  exists a', mask_assign a mask vals = Some a'.
Proof.
  revert mask vals. induction a as [| x a IH]; intros [| b mask] vals H1 H2;
    simpl in *; try discriminate.
  - destruct vals; try discriminate. eauto.
  - injection H1 as H1. destruct b.
    + destruct vals as [| y vals]; simpl in H2; try discriminate. injection H2 as H2.
      destruct (IH _ _ H1 H2) as (a' & ->). simpl. eauto.
    + destruct (IH _ _ H1 H2) as (a' & ->). simpl. eauto.
Qed.

Lemma omap_zip_map {A B C D : Type} (g : A -> B) (h : B * C -> option D)
    (l : list A) (cs : list C) :
  omap h (zip (map g l) cs) = omap (fun xc => h (g (fst xc), snd xc)) (zip l cs).
Proof.
  revert cs. induction l as [| x l IH]; intros [| c cs]; trivial.
  cbn [map zip zip_with omap list_omap fst snd]. rewrite <- IH. reflexivity.
Qed.

Lemma omap_zip_compress {A C D : Type} (f : A -> bool) (h : A * C -> option D)
    (l : list A) (cs : list C) :
  omap h (zip (compress (map f l) l) (compress (map f l) cs)) =
  omap (fun xc => if f (fst xc) then h xc else None) (zip l cs).
Proof.
  revert cs. induction l as [| x l IH]; intros [| c cs]; trivial.
  - cbn [map compress]. destruct (f x); [reflexivity |].
    destruct (compress (map f l) l); reflexivity.
  - cbn [map compress zip zip_with omap list_omap fst snd].
    destruct (f x); cbn [zip zip_with omap list_omap]; rewrite <- IH; reflexivity.
Qed.

(** ** The colour buffer *)

Lemma rank_lt (mask : list bool) (i : nat) :
  mask !! i = Some true -> (rank mask i < count_true mask)%nat.
Proof.
  unfold rank. revert i. induction mask as [| b mask IH]; intros [| i] H; simpl in *;
    try discriminate.
  - injection H as ->. lia.
  - apply IH in H. lia.
Qed.

Lemma painted_app (entry : option Vec3) (l1 l2 : list (list Vec3 * list bool)) (i : nat) :
  painted entry (l1 ++ l2) i = painted (painted entry l1 i) l2 i.
Proof. unfold painted. apply fold_left_app. Qed.

Lemma painted_unseen (entry : option Vec3) (cams : list (list Vec3 * list bool)) (i : nat) :
  Forall (unseen i) cams -> painted entry cams i = entry.
Proof.
  unfold painted. intros H. revert entry. induction H as [| cam cams Hc _ IH]; intros entry; simpl.
  - reflexivity.
  - rewrite IH. unfold paint_step. unfold unseen in Hc.
    destruct (snd cam !! i) as [[|] |]; congruence.
Qed.

Lemma painted_last_seen (entry : option Vec3) (pre post : list (list Vec3 * list bool))
    (cam : list Vec3 * list bool) (i : nat) :
  snd cam !! i = Some true -> Forall (unseen i) post ->
  painted entry (pre ++ cam :: post) i = fst cam !! rank (snd cam) i.
Proof.
  intros Hc Hpost. rewrite painted_app.
  change (cam :: post) with ([cam] ++ post). rewrite painted_app, (painted_unseen _ post) by exact Hpost.
  unfold painted. simpl. unfold paint_step. rewrite Hc. reflexivity.
Qed.

Lemma painted_cases (entry : option Vec3) (cams : list (list Vec3 * list bool)) (i : nat) :
  (Forall (unseen i) cams /\ painted entry cams i = entry) \/
  (exists pre cam post, cams = pre ++ cam :: post /\ snd cam !! i = Some true /\
                        Forall (unseen i) post /\
                        painted entry cams i = fst cam !! rank (snd cam) i).
Proof.
  induction cams as [| cam cams IH] using rev_ind.
  - left. split; [constructor | reflexivity].
  - destruct (decide (snd cam !! i = Some true)) as [Hc | Hc].
    + right. exists cams, cam, []. repeat split; trivial.
      apply painted_last_seen; [exact Hc | constructor].
    + destruct IH as [[Hall Hp] | (pre & c & post & -> & Hs & Hpost & Hp)].
      * left. assert (Hall' : Forall (unseen i) (cams ++ [cam])).
        { apply Forall_app. split; [exact Hall |]. constructor; [exact Hc | constructor]. }
        split; [exact Hall' |]. apply painted_unseen. exact Hall'.
      * right. exists pre, c, (post ++ [cam]).
        assert (Hpost' : Forall (unseen i) (post ++ [cam])).
        { apply Forall_app. split; [exact Hpost |]. constructor; [exact Hc | constructor]. }
        rewrite <- app_assoc. simpl. repeat split; trivial.
        apply painted_last_seen; assumption.
Qed.

(** ** Pixels as colours *)

Lemma byte_never_minus_one (b : byte) : F64.eqb (byte_to_float b) minus_one = false.
Proof. destruct b; vm_compute; reflexivity. Qed.

Lemma pixel_has_color (px : Pixel) : any_minus_one (pixel_to_color px) = false.
Proof.
  unfold any_minus_one, pixel_to_color. simpl. rewrite !byte_never_minus_one. reflexivity.
Qed.

Lemma no_color_is_skipped : any_minus_one no_color = true.
Proof. vm_compute. reflexivity. Qed.

Lemma byte_over_255_in_unit (b : byte) :
  F64.leb (F64.of_Z 0) (F64.div (byte_to_float b) (F64.of_Z 255)) = true /\
  F64.leb (F64.div (byte_to_float b) (F64.of_Z 255)) (F64.of_Z 1) = true.
Proof. destruct b; vm_compute; split; reflexivity. Qed.

(** ** Computations that leave the output file alone *)

Lemma written_app (tr1 tr2 : list event) : written (tr1 ++ tr2) = written tr1 ++ written tr2.
Proof.
  induction tr1 as [| ev tr1 IH]; simpl; trivial. destruct ev; simpl; rewrite IH; reflexivity.
Qed.

Lemma written_bind {A B : Type} (m : M A) (k : A -> M B) :
  written (trace (bind m k)) =
  written (trace m) ++ match result m with
                       | Return a => written (trace (k a))
                       | _ => []
                       end.
Proof. rewrite trace_bind, written_app. destruct (result m); reflexivity. Qed.

Create HintDb quiet.

Lemma quiet_bind {A B : Type} (m : M A) (k : A -> M B) :
  quiet m -> (forall a, quiet (k a)) -> quiet (bind m k).
Proof.
  intros [Hw Hr] Hk. split.
  - rewrite written_bind, Hw. destruct (result m); trivial. apply Hk.
  - rewrite result_bind. destruct (result m); try congruence. apply Hk.
Qed.

Lemma quiet_ret {A : Type} (a : A) : quiet (ret a).
Proof. split; [reflexivity | discriminate]. Qed.

Lemma quiet_raise {A : Type} (e : exn) : quiet (@raise A e).
Proof. split; [reflexivity | discriminate]. Qed.

Lemma quiet_mapM {A B : Type} (f : A -> M B) (l : list A) :
  (forall x, quiet (f x)) -> quiet (mapM f l).
Proof.
  intros Hf. induction l as [| x l IH]; simpl.
  - apply quiet_ret.
  - apply quiet_bind; [apply Hf |]. intros y. apply quiet_bind; [exact IH |].
    intros ys. apply quiet_ret.
Qed.

Lemma quiet_foldM {A B : Type} (f : A -> B -> M A) (a : A) (l : list B) :
  (forall a x, quiet (f a x)) -> quiet (foldM f a l).
Proof.
  intros Hf. revert a. induction l as [| x l IH]; intros a; simpl.
  - apply quiet_ret.
  - apply quiet_bind; [apply Hf |]. intros a'. apply IH.
Qed.

#[local] Hint Resolve quiet_bind quiet_ret quiet_raise quiet_mapM quiet_foldM : quiet.

(** A quiet step in front of a computation: it either hands a value on or
    stops the computation with an exception, and the file is as the rest
    leaves it. *)
Lemma bind_quiet_cases {A B : Type} (m : M A) (k : A -> M B) :
  quiet m ->
  (exists a, result m = Return a /\ result (bind m k) = result (k a) /\
             written (trace (bind m k)) = written (trace (k a))) \/
  (exists e, result m = Raise e /\ result (bind m k) = Raise e /\
             written (trace (bind m k)) = []).
Proof.
  intros [Hw Hr]. rewrite written_bind, result_bind, Hw.
  destruct (result m) as [a | e |]; [left; eauto | right; eauto | congruence].
Qed.

(** ** Binary64 facts: conversion, comparison and rounding *)

Ltac pow_atoms :=
  repeat match goal with
         | |- context [2 ^ ?e] => let x := fresh "pw" in set (x := 2 ^ e) in *; clearbody x
         | H : context [2 ^ ?e] |- _ => let x := fresh "pw" in set (x := 2 ^ e) in *; clearbody x
         end.

Lemma digits2_pos_bounds (p : positive) :
  2 ^ (Z.pos (digits2_pos p) - 1) <= Z.pos p < 2 ^ Z.pos (digits2_pos p).
Proof.
  induction p as [p IH | p IH |]; cbn [digits2_pos].
  - rewrite Pos2Z.inj_succ, (Pos2Z.inj_xI p).
    replace (Z.succ (Z.pos (digits2_pos p)) - 1) with (Z.succ (Z.pos (digits2_pos p) - 1)) by lia.
    rewrite !Z.pow_succ_r by lia. pow_atoms. lia.
  - rewrite Pos2Z.inj_succ, (Pos2Z.inj_xO p).
    replace (Z.succ (Z.pos (digits2_pos p)) - 1) with (Z.succ (Z.pos (digits2_pos p) - 1)) by lia.
    rewrite !Z.pow_succ_r by lia. pow_atoms. lia.
  - simpl. lia.
Qed.

Lemma digits2_pos_le (p : positive) (d : Z) :
  0 <= d -> Z.pos p < 2 ^ d -> Z.pos (digits2_pos p) <= d.
Proof.
  intros Hd Hp. destruct (digits2_pos_bounds p) as [Hlo _].
  destruct (Z_le_gt_dec (Z.pos (digits2_pos p)) d) as [H | H]; trivial.
  assert (2 ^ d <= 2 ^ (Z.pos (digits2_pos p) - 1)) by (apply Z.pow_le_mono_r; lia). lia.
Qed.

Lemma digits2_pos_shift (p : positive) (k : positive) :
  digits2_pos (Pos.iter xO p k) = (digits2_pos p + k)%positive.
Proof.
  induction k as [| k IH] using Pos.peano_ind.
  - simpl. lia.
  - rewrite Pos.iter_succ. cbn [digits2_pos]. rewrite IH. lia.
Qed.

Lemma pos_shift_value (p : positive) (k : positive) :
  Z.pos (Pos.iter xO p k) = Z.pos p * 2 ^ Z.pos k.
Proof.
  induction k as [| k IH] using Pos.peano_ind.
  - simpl. lia.
  - rewrite Pos.iter_succ, (Pos2Z.inj_xO (Pos.iter xO p k)), IH, Pos2Z.inj_succ, Z.pow_succ_r by lia.
    pow_atoms. lia.
Qed.

(** The conversion of a positive integer below 2^53 is exact. *)
Lemma of_Z_pos (n : positive) :
  Z.pos n < 2 ^ 53 ->
  let d := Z.pos (digits2_pos n) in
  F64.of_Z (Z.pos n) = S754_finite false (Z.to_pos (Z.pos n * 2 ^ (53 - d))) (d - 53).
Proof.
  intros Hn d.
  assert (Hd : 1 <= d <= 53).
  { unfold d. split; [lia |]. apply digits2_pos_le; lia. }
  unfold F64.of_Z, binary_normalize, binary_round.
  unfold fexp, emin, F64.prec, F64.emax. fold d.
  replace (Z.max (d + 0 - 53) (3 - 1024 - 53)) with (d - 53) by lia.
  unfold shl_align.
  destruct (d - 53 - 0) as [| q | q] eqn:Hq; try lia.
  - (* d = 53 *)
    assert (d = 53) by lia.
    unfold binary_round_aux, shr_fexp. cbn [Zdigits2]. fold d.
    unfold fexp, emin. replace (Z.max (d + 0 - 53) (3 - 1024 - 53) - 0) with 0 by lia.
    cbn [shr shr_record_of_loc shr_m loc_of_shr_record round_nearest_even Zdigits2]. fold d.
    replace (Z.max (d + 0 - 53) (3 - 1024 - 53) - 0) with 0 by lia.
    cbn [shr shr_m]. replace (53 - d) with 0 by lia. replace (d - 53) with 0 by lia.
    simpl. rewrite Pos.mul_1_r. reflexivity.
  - unfold binary_round_aux, shr_fexp. cbn [Zdigits2].
    rewrite digits2_pos_shift. rewrite Pos2Z.inj_add. fold d.
    unfold fexp, emin.
    assert (Hq' : Z.pos q = 53 - d) by lia.
    replace (Z.max (d + Z.pos q + (d - 53) - 53) (3 - 1024 - 53) - (d - 53)) with 0 by lia.
    cbn [shr shr_record_of_loc shr_m loc_of_shr_record round_nearest_even Zdigits2].
    rewrite digits2_pos_shift. rewrite Pos2Z.inj_add. fold d.
    replace (Z.max (d + Z.pos q + (d - 53) - 53) (3 - 1024 - 53) - (d - 53)) with 0 by lia.
    cbn [shr shr_m].
    replace (d - 53 <=? 1024 - 53) with true by (symmetry; apply Z.leb_le; lia).
    f_equal. rewrite <- Hq', <- pos_shift_value. reflexivity.
Qed.

Lemma shr_1_m (mrs : shr_record) :
  0 <= shr_m mrs -> shr_m (shr_1 mrs) = shr_m mrs / 2.
Proof.
  destruct mrs as [m r s]. cbn [shr_m shr_1]. intros Hm.
  destruct m as [| [p | p |] | p]; cbn [shr_m]; try lia.
  - reflexivity.
  - rewrite (Pos2Z.inj_xI p). apply Z.div_unique with (r := 1); lia.
  - rewrite (Pos2Z.inj_xO p). apply Z.div_unique with (r := 0); lia.
  - reflexivity.
Qed.

Lemma iter_pos_shr_1 (p : positive) (mrs : shr_record) :
  0 <= shr_m mrs -> shr_m (@SpecFloat.iter_pos shr_record shr_1 p mrs) = shr_m mrs / 2 ^ Z.pos p.
Proof.
  revert mrs. induction p as [p IH | p IH |]; intros mrs Hm; cbn [SpecFloat.iter_pos].
  - assert (H1 : 0 <= shr_m (shr_1 mrs)) by (rewrite shr_1_m by exact Hm; apply Z.div_pos; lia).
    assert (H2 : 0 <= shr_m (@SpecFloat.iter_pos shr_record shr_1 p (shr_1 mrs)))
      by (rewrite IH by exact H1; apply Z.div_pos; [exact H1 | apply Z.pow_pos_nonneg; lia]).
    rewrite IH by exact H2. rewrite IH by exact H1. rewrite shr_1_m by exact Hm.
    rewrite !Z.div_div by (try apply Z.pow_pos_nonneg; lia).
    f_equal. rewrite (Pos2Z.inj_xI p).
    replace (2 * Z.pos p + 1) with (1 + Z.pos p + Z.pos p) by lia.
    rewrite !Z.pow_add_r by lia. change (2 ^ 1) with 2. ring.
  - assert (H2 : 0 <= shr_m (@SpecFloat.iter_pos shr_record shr_1 p mrs))
      by (rewrite IH by exact Hm; apply Z.div_pos; [exact Hm | apply Z.pow_pos_nonneg; lia]).
    rewrite IH by exact H2. rewrite IH by exact Hm.
    rewrite !Z.div_div by (try apply Z.pow_pos_nonneg; lia).
    f_equal. rewrite (Pos2Z.inj_xO p).
    replace (2 * Z.pos p) with (Z.pos p + Z.pos p) by lia.
    rewrite !Z.pow_add_r by lia. ring.
  - rewrite shr_1_m by exact Hm. reflexivity.
Qed.

Lemma Zdigits2_bound (m : Z) : 0 <= m -> m < 2 ^ Zdigits2 m.
Proof.
  destruct m as [| p | p]; cbn [Zdigits2]; try lia.
  intros _. apply digits2_pos_bounds.
Qed.

Lemma shr_record_of_loc_m (m : Z) (l : location) : shr_m (shr_record_of_loc m l) = m.
Proof. destruct l as [| []]; reflexivity. Qed.

(** After the shift to the canonical exponent at most 53 bits are left. *)
Lemma shr_fexp_bound (m e : Z) (l : location) :
  0 <= m -> 0 <= shr_m (fst (shr_fexp F64.prec F64.emax m e l)) < 2 ^ 53.
Proof.
  intros Hm. unfold shr_fexp, shr.
  pose proof (Zdigits2_bound m Hm) as Hd.
  assert (Hd0 : 0 <= Zdigits2 m) by (destruct m; cbn [Zdigits2]; lia).
  destruct (fexp F64.prec F64.emax (Zdigits2 m + e) - e) as [| n | n] eqn:Hn;
    cbn [fst]; rewrite ?shr_record_of_loc_m.
  - unfold fexp, emin, F64.prec, F64.emax in Hn. split; [exact Hm |].
    assert (2 ^ Zdigits2 m <= 2 ^ 53) by (apply Z.pow_le_mono_r; lia). lia.
  - rewrite iter_pos_shr_1 by (rewrite shr_record_of_loc_m; exact Hm).
    rewrite shr_record_of_loc_m. split.
    + apply Z.div_pos; [exact Hm | apply Z.pow_pos_nonneg; lia].
    + apply Z.div_lt_upper_bound; [apply Z.pow_pos_nonneg; lia |].
      rewrite <- Z.pow_add_r by lia.
      unfold fexp, emin, F64.prec, F64.emax in Hn.
      assert (2 ^ Zdigits2 m <= 2 ^ (Z.pos n + 53)) by (apply Z.pow_le_mono_r; lia). lia.
  - unfold fexp, emin, F64.prec, F64.emax in Hn. split; [exact Hm |].
    assert (2 ^ Zdigits2 m <= 2 ^ 53) by (apply Z.pow_le_mono_r; lia). lia.
Qed.

Lemma round_nearest_even_nonneg (m : Z) (l : location) :
  0 <= m -> 0 <= round_nearest_even m l.
Proof. intros Hm. destruct l as [| []]; cbn [round_nearest_even]; try destruct (Z.even m); lia. Qed.

(** What rounding returns has a mantissa of at most 53 bits. *)
Lemma binary_round_aux_bounded (sx : bool) (mx ex : Z) (lx : location) :
  0 <= mx -> mantissa_bounded (binary_round_aux F64.prec F64.emax sx mx ex lx) = true.
Proof.
  intros Hm. unfold binary_round_aux.
  pose proof (shr_fexp_bound mx ex lx Hm) as [H1 _].
  destruct (shr_fexp F64.prec F64.emax mx ex lx) as [mrs' e'] eqn:E1. cbn [fst] in H1.
  pose proof (shr_fexp_bound (round_nearest_even (shr_m mrs') (loc_of_shr_record mrs')) e'
                loc_Exact (round_nearest_even_nonneg _ _ H1)) as [_ H2].
  destruct (shr_fexp F64.prec F64.emax _ e' loc_Exact) as [mrs'' e''] eqn:E2. cbn [fst] in H2.
  destruct (shr_m mrs'') as [| m | m]; trivial.
  destruct (e'' <=? F64.emax - F64.prec); trivial.
  cbn [mantissa_bounded]. apply Z.leb_le. apply digits2_pos_le; [unfold F64.prec; lia | exact H2].
Qed.

Lemma div_bounded (a b : float) : mantissa_bounded (F64.div a b) = true.
Proof.
  unfold F64.div, SFdiv.
  destruct a as [sa | sa | | sa ma ea], b as [sb | sb | | sb mb eb]; trivial.
  unfold SFdiv_core_binary.
  set (e' := Z.min _ _). set (s := ea - eb - e').
  set (m' := match s with Z.pos _ => Z.shiftl (Z.pos ma) s | 0 => Z.pos ma | Z.neg _ => 0 end).
  assert (Hm' : 0 <= m').
  { unfold m'. destruct s; try lia. apply Z.shiftl_nonneg. lia. }
  pose proof (Z.div_pos m' (Z.pos mb) Hm' ltac:(lia)) as Hq.
  unfold Z.div in Hq. destruct (Z.div_eucl m' (Z.pos mb)) as [q r]. cbn [fst] in Hq.
  apply binary_round_aux_bounded. exact Hq.
Qed.

(** A positive float below a positive integer, read on mantissa and exponent. *)
Lemma ltb_of_Z_value (m : positive) (e : Z) (n : positive) :
  Z.pos (digits2_pos m) <= 53 -> Z.pos n < 2 ^ 53 ->
  F64.ltb (S754_finite false m e) (F64.of_Z (Z.pos n)) = true ->
  if 0 <=? e then Z.pos m * 2 ^ e < Z.pos n else Z.pos m < Z.pos n * 2 ^ (- e).
Proof.
  intros Hm Hn. rewrite (of_Z_pos n Hn). cbv zeta.
  set (d := Z.pos (digits2_pos n)).
  assert (Hd : 1 <= d <= 53).
  { unfold d. split; [lia |]. apply digits2_pos_le; lia. }
  destruct (digits2_pos_bounds n) as [Hlo _]. fold d in Hlo.
  destruct (digits2_pos_bounds m) as [_ Hhi].
  assert (Hm53 : Z.pos m < 2 ^ 53).
  { assert (2 ^ Z.pos (digits2_pos m) <= 2 ^ 53) by (apply Z.pow_le_mono_r; lia). lia. }
  assert (Hpos : 0 < Z.pos n * 2 ^ (53 - d)).
  { apply Z.mul_pos_pos; [lia | apply Z.pow_pos_nonneg; lia]. }
  unfold F64.ltb, SFltb, SFcompare.
  destruct (e ?= d - 53) eqn:C.
  - apply Z.compare_eq in C.
    destruct (Pos.compare_cont Eq m (Z.to_pos (Z.pos n * 2 ^ (53 - d)))) eqn:Cm;
      try discriminate. intros _.
    change (Pos.compare_cont Eq m (Z.to_pos (Z.pos n * 2 ^ (53 - d))))
      with (Pos.compare m (Z.to_pos (Z.pos n * 2 ^ (53 - d)))) in Cm.
    apply Pos.compare_lt_iff in Cm.
    assert (Hlt : Z.pos m < Z.pos n * 2 ^ (53 - d)).
    { apply Pos2Z.pos_lt_pos in Cm. rewrite Z2Pos.id in Cm by exact Hpos. exact Cm. }
    destruct (0 <=? e) eqn:He.
    + apply Z.leb_le in He. replace e with 0 by lia.
      replace (53 - d) with 0 in Hlt by lia. rewrite Z.pow_0_r in Hlt |- *. lia.
    + replace (- e) with (53 - d) by lia. exact Hlt.
  - intros _. change (e < d - 53) in C.
    destruct (0 <=? e) eqn:He; [apply Z.leb_le in He; lia |].
    assert (H1 : 2 ^ (d - 1) * 2 ^ (- e) <= Z.pos n * 2 ^ (- e)).
    { apply Z.mul_le_mono_nonneg_r; [apply Z.pow_nonneg; lia | exact Hlo]. }
    rewrite <- Z.pow_add_r in H1 by lia.
    assert (H2 : 2 ^ 53 <= 2 ^ (d - 1 + - e)) by (apply Z.pow_le_mono_r; lia).
    lia.
  - discriminate.
Qed.

Lemma round_half_even_bounds (num den : Z) :
  0 <= num -> 0 < den ->
  num / den <= F64.round_half_even num den <= num / den + 1.
Proof.
  intros Hn Hd. unfold F64.round_half_even.
  destruct (2 * (num mod den) ?= den); try destruct (Z.even (num / den)); lia.
Qed.

Lemma trunc_of_Z_pos (n : positive) :
  Z.pos n < 2 ^ 53 -> F64.trunc (F64.of_Z (Z.pos n)) = Some (Z.pos n).
Proof.
  intros Hn. rewrite (of_Z_pos n Hn). cbv zeta.
  set (d := Z.pos (digits2_pos n)).
  assert (Hd : 1 <= d <= 53).
  { unfold d. split; [lia |]. apply digits2_pos_le; lia. }
  assert (Hpw : 0 < 2 ^ (53 - d)) by (apply Z.pow_pos_nonneg; lia).
  unfold F64.trunc, cond_Zopp. rewrite Z2Pos.id by (apply Z.mul_pos_pos; lia).
  destruct (0 <=? d - 53) eqn:He.
  - apply Z.leb_le in He. replace (53 - d) with 0 by lia. replace (d - 53) with 0 by lia.
    simpl. f_equal. lia.
  - replace (- (d - 53)) with (53 - d) by lia. rewrite Z.div_mul by lia. reflexivity.
Qed.

(** A finite positive float below the integer [n] rounds to an index in [0, n]. *)
Lemma rint_index_bounds (m : positive) (e : Z) (n : positive) :
  Z.pos n < 2 ^ 31 ->
  (if 0 <=? e then Z.pos m * 2 ^ e < Z.pos n else Z.pos m < Z.pos n * 2 ^ (- e)) ->
  0 <= F64.astype_int32 (F64.rint (S754_finite false m e)) <= Z.pos n.
Proof.
  intros Hn Hv. unfold F64.rint. destruct (0 <=? e) eqn:He.
  - apply Z.leb_le in He.
    assert (Hpos : 0 < Z.pos m * 2 ^ e) by (apply Z.mul_pos_pos; [lia | apply Z.pow_pos_nonneg; lia]).
    unfold F64.astype_int32, F64.trunc, cond_Zopp. rewrite (proj2 (Z.leb_le 0 e) He).
    unfold F64.int32_min, F64.int32_max.
    destruct ((- 2 ^ 31 <=? Z.pos m * 2 ^ e) && (Z.pos m * 2 ^ e <=? 2 ^ 31 - 1)) eqn:Hr; [lia |].
    apply andb_false_iff in Hr as [Hr | Hr]; [apply Z.leb_gt in Hr | apply Z.leb_gt in Hr]; lia.
  - apply Z.leb_gt in He.
    assert (Hden : 0 < 2 ^ (- e)) by (apply Z.pow_pos_nonneg; lia).
    pose proof (round_half_even_bounds (Z.pos m) (2 ^ (- e)) ltac:(lia) Hden) as [Hlo Hhi].
    assert (Hq : 0 <= Z.pos m / 2 ^ (- e)) by (apply Z.div_pos; lia).
    assert (Hqn : Z.pos m / 2 ^ (- e) < Z.pos n)
      by (apply Z.div_lt_upper_bound; [exact Hden | lia]).
    cbn [cond_Zopp].
    set (r := F64.round_half_even (Z.pos m) (2 ^ (- e))) in *.
    assert (Hr : 0 <= r <= Z.pos n) by lia.
    destruct r as [| p | p] eqn:Er; try lia.
    + change (F64.astype_int32 (binary_normalize F64.prec F64.emax 0 0 false)) with 0. lia.
    + change (binary_normalize F64.prec F64.emax (Z.pos p) 0 false) with (F64.of_Z (Z.pos p)).
      unfold F64.astype_int32. rewrite trunc_of_Z_pos by lia.
      unfold F64.int32_min, F64.int32_max.
      destruct ((- 2 ^ 31 <=? Z.pos p) && (Z.pos p <=? 2 ^ 31 - 1)) eqn:Hb; [lia |].
      apply andb_false_iff in Hb as [Hb | Hb]; apply Z.leb_gt in Hb; lia.
Qed.

(** The margin of the mask keeps the rounded coordinate inside the axis. *)
Lemma rounded_coordinate_in_axis (u : float) (size : N) :
  mantissa_bounded u = true -> Z.of_N size <= 2 ^ 31 ->
  F64.ltb (F64.of_Z 1) u = true ->
  F64.ltb u (F64.of_Z (Z.of_N size - 1)) = true ->
  0 <= F64.astype_int32 (F64.rint u) <= Z.of_N size - 1.
Proof.
  intros Hb Hsize H1 H2.
  destruct u as [s | s | | s m e].
  - destruct s; vm_compute in H1; discriminate.
  - destruct (F64.of_Z (Z.of_N size - 1)) as [s' | s' | | s' m' e'], s;
      try destruct s'; vm_compute in H1, H2; discriminate.
  - vm_compute in H1. discriminate.
  - destruct s; [vm_compute in H1; discriminate |].
    cbn [mantissa_bounded] in Hb. apply Z.leb_le in Hb. unfold F64.prec in Hb.
    destruct (Z.of_N size - 1) as [| n | n] eqn:En.
    + vm_compute in H2. discriminate.
    + assert (Hn : Z.pos n < 2 ^ 31) by lia.
      apply rint_index_bounds; [exact Hn |].
      apply ltb_of_Z_value; [exact Hb | lia | exact H2].
    + assert (n = 1%positive) by lia. subst n. vm_compute in H2. discriminate.
Qed.

(** ** Fixed-point formatting *)

Lemma string_length_app (s1 s2 : string) :
  String.length (s1 ++ s2) = (String.length s1 + String.length s2)%nat.
Proof. induction s1 as [| c s1 IH]; simpl; [reflexivity | rewrite IH; reflexivity]. Qed.

Lemma frac_digits_length (d : nat) (n : Z) : String.length (F64.frac_digits d n) = d.
Proof.
  revert n. induction d as [| d IH]; intros n; simpl; trivial.
  rewrite string_length_app, IH. simpl. lia.
Qed.

(** A finite value is printed as an optional sign, an integer part, a point
    and exactly [d] further characters. *)
Lemma format_f_decimals (d : nat) (x : float) :
  is_finite x = true ->
  exists sign int frac : string,
    F64.format_f (S d) x = (sign ++ int ++ "." ++ frac)%string /\
    (sign = "" \/ sign = "-")%string /\ String.length frac = S d.
Proof.
  destruct x as [s | s | | s m e]; try discriminate; intros _; unfold F64.format_f.
  - exists (if s then "-" else "")%string, (F64.digits_of (0 / 10 ^ Z.of_nat (S d))),
      (F64.frac_digits (S d) 0).
    split; [reflexivity |]. split; [destruct s; auto | apply frac_digits_length].
  - cbv zeta.
    set (n := if 0 <=? e then Z.pos m * 2 ^ e * 10 ^ Z.of_nat (S d)
              else F64.round_half_even (Z.pos m * 10 ^ Z.of_nat (S d)) (2 ^ (- e))).
    exists (if s then "-" else "")%string, (F64.digits_of (n / 10 ^ Z.of_nat (S d))),
      (F64.frac_digits (S d) n).
    split; [reflexivity |]. split; [destruct s; auto | apply frac_digits_length].
Qed.

Section Properties.

Variable rotation_matrix : Quaternion -> Mat3.
Variable fs : FileSystem.

(** ** The collaborators: record store, loaders, output *)

Lemma nusc_get_result {A : Type} (table : string) (rows : gmap string A) (token : string) :
  result (nusc_get table rows token) =
  match rows !! token with
  | Some rec => Return rec
  | None => Raise (KeyError token)
  end.
Proof. unfold nusc_get. rewrite result_bind. simpl. destruct (rows !! token); reflexivity. Qed.

Lemma nusc_get_trace {A : Type} (table : string) (rows : gmap string A) (token : string) :
  trace (nusc_get table rows token) = [EvGet table token].
Proof. unfold nusc_get. rewrite trace_bind. simpl. destruct (rows !! token); reflexivity. Qed.

Lemma nusc_get_Return {A : Type} (table : string) (rows : gmap string A) (token : string) (r : A) :
  result (nusc_get table rows token) = Return r <-> rows !! token = Some r.
Proof.
  rewrite nusc_get_result. destruct (rows !! token); split; intros H;
    try discriminate; congruence.
Qed.

Lemma PointCloud_from_file_result (path : string) :
  result (PointCloud_from_file fs path) =
  match pointcloud_files fs !! path with
  | Some pc => Return pc
  | None => Raise (FileNotFoundError path)
  end.
Proof.
  unfold PointCloud_from_file. rewrite result_bind. simpl.
  destruct (pointcloud_files fs !! path); reflexivity.
Qed.

Lemma PointCloud_from_file_Return (path : string) (pc : PointCloud) :
  result (PointCloud_from_file fs path) = Return pc <-> pointcloud_files fs !! path = Some pc.
Proof.
  rewrite PointCloud_from_file_result. destruct (pointcloud_files fs !! path); split; intros H;
    try discriminate; congruence.
Qed.

Lemma Image_open_result (path : string) :
  result (Image_open fs path) =
  match image_files fs !! path with
  | Some im => Return im
  | None => Raise (FileNotFoundError path)
  end.
Proof.
  unfold Image_open. rewrite result_bind. simpl.
  destruct (image_files fs !! path); reflexivity.
Qed.

Lemma Image_open_Return (path : string) (im : Image) :
  result (Image_open fs path) = Return im <-> image_files fs !! path = Some im.
Proof.
  rewrite Image_open_result. destruct (image_files fs !! path); split; intros H;
    try discriminate; congruence.
Qed.

(** ** The transform chain *)

(** The eight whole-cloud operations act on each point as the four steps. *)
Lemma four_steps_pointwise (cs_src : CalibratedSensorRec) (ego_src ego_dst : EgoPoseRec)
    (cs_dst : CalibratedSensorRec) (pc : PointCloud) :
  rotate (transpose (rotation_matrix (cs_rotation cs_dst)))
    (translate (vec_neg (cs_translation cs_dst))
      (rotate (transpose (rotation_matrix (ep_rotation ego_dst)))
        (translate (vec_neg (ep_translation ego_dst))
          (translate (ep_translation ego_src)
            (rotate (rotation_matrix (ep_rotation ego_src))
              (translate (cs_translation cs_src)
                (rotate (rotation_matrix (cs_rotation cs_src)) pc)))))))
  = map (fun p => mkPoint (frame_chain rotation_matrix cs_src ego_src ego_dst cs_dst (xyz p))
                          (extra p)) pc.
Proof.
  unfold rotate, translate. rewrite !map_map.
  apply map_ext. intros p. reflexivity.
Qed.

Ltac bind_inv H :=
  let a := fresh "a" in
  let Ha := fresh "Ha" in
  apply bind_Return_inv in H as (a & Ha & H).

(** C1. In [pointcloud_color_from_image] every point of the loaded cloud
    reaches the camera frame by four steps in this order: rotate by the
    source calibration's rotation then add its translation; rotate by the
    source ego pose's rotation then add its translation; subtract the
    destination ego pose's translation then rotate by its transposed
    rotation; subtract the destination calibration's translation then rotate
    by its transposed rotation.  The four records are those of the point
    sensor and of the camera, and the call gets that far exactly when the
    records and the two files exist. *)
Theorem camera_frame_four_steps (nusc : NuScenes) (pointsensor_token camera_token : string)
    (im : Image) (cs_dst : CalibratedSensorRec) (pc' : PointCloud) :
  result (camera_frame rotation_matrix fs nusc pointsensor_token camera_token)
    = Return (im, cs_dst, pc') <->
  exists (cam pointsensor : SampleDataRec) (pc : PointCloud)
         (cs_src : CalibratedSensorRec) (ego_src ego_dst : EgoPoseRec),
    sample_data nusc !! camera_token = Some cam /\
    sample_data nusc !! pointsensor_token = Some pointsensor /\
    pointcloud_files fs !! osp_join (dataroot nusc) (sd_filename pointsensor) = Some pc /\
    image_files fs !! osp_join (dataroot nusc) (sd_filename cam) = Some im /\
    calibrated_sensor nusc !! sd_calibrated_sensor_token pointsensor = Some cs_src /\
    ego_pose nusc !! sd_ego_pose_token pointsensor = Some ego_src /\
    ego_pose nusc !! sd_ego_pose_token cam = Some ego_dst /\
    calibrated_sensor nusc !! sd_calibrated_sensor_token cam = Some cs_dst /\
    pc' = map (fun p =>
                 mkPoint (ego_to_sensor rotation_matrix cs_dst
                            (global_to_ego rotation_matrix ego_dst
                               (ego_to_global rotation_matrix ego_src
                                  (sensor_to_ego rotation_matrix cs_src (xyz p)))))
                         (extra p)) pc.
Proof.
  unfold camera_frame. split.
  - intros H.
    bind_inv H. apply nusc_get_Return in Ha.
    bind_inv H. apply nusc_get_Return in Ha0.
    bind_inv H. apply PointCloud_from_file_Return in Ha1.
    bind_inv H. apply Image_open_Return in Ha2.
    bind_inv H. apply nusc_get_Return in Ha3.
    bind_inv H. apply nusc_get_Return in Ha4.
    bind_inv H. apply nusc_get_Return in Ha5.
    bind_inv H. apply nusc_get_Return in Ha6.
    simpl in H. injection H as -> -> <-.
    exists a, a0, a1, a3, a4, a5. repeat (split; [assumption |]).
    apply four_steps_pointwise.
  - intros (cam & pointsensor & pc & cs_src & ego_src & ego_dst
            & Hcam & Hps & Hpc & Him & Hcs & Hes & Hed & Hcd & ->).
    rewrite (bind_Return _ _ cam) by (apply nusc_get_Return; exact Hcam).
    rewrite (bind_Return _ _ pointsensor) by (apply nusc_get_Return; exact Hps).
    rewrite (bind_Return _ _ pc) by (apply PointCloud_from_file_Return; exact Hpc).
    rewrite (bind_Return _ _ im) by (apply Image_open_Return; exact Him).
    rewrite (bind_Return _ _ cs_src) by (apply nusc_get_Return; exact Hcs).
    rewrite (bind_Return _ _ ego_src) by (apply nusc_get_Return; exact Hes).
    rewrite (bind_Return _ _ ego_dst) by (apply nusc_get_Return; exact Hed).
    rewrite (bind_Return _ _ cs_dst) by (apply nusc_get_Return; exact Hcd).
    simpl. rewrite four_steps_pointwise. reflexivity.
Qed.

(** ** The visibility mask *)

Lemma mapM_result_inv {A B : Type} (f : A -> M B) (l : list A) (ys : list B) :
  result (mapM f l) = Return ys ->
  length ys = length l /\
  forall j x, l !! j = Some x -> exists y, ys !! j = Some y /\ result (f x) = Return y.
Proof.
  revert ys. induction l as [| x l IH]; intros ys H; simpl in H.
  - injection H as <-. split; [reflexivity |]. intros j x Hx. discriminate.
  - bind_inv H. bind_inv H. simpl in H. injection H as <-.
    destruct (IH _ Ha0) as [Hlen Hall]. split; [simpl; congruence |].
    intros [| j] x' Hx; simpl in *.
    + injection Hx as <-. eauto.
    + apply Hall. exact Hx.
Qed.

Lemma camera_mask_length (im : Image) (depths : list float) (points : list Vec3) :
  length points = length depths -> length (camera_mask im depths points) = length depths.
Proof.
  intros H. unfold camera_mask.
  assert (L : forall a b : list bool, length a = length depths -> length b = length depths ->
                length (logical_and a b) = length depths).
  { intros a b Ha Hb. rewrite logical_and_length; congruence. }
  repeat apply L; unfold np_ones_bool, np_gt, np_lt;
    rewrite ?length_map, ?length_replicate; auto.
Qed.

(** The five comparisons of the mask, read at one point. *)
Lemma camera_mask_lookup (im : Image) (depths : list float) (points : list Vec3)
    (i : nat) (d : float) (p : Vec3) :
  depths !! i = Some d -> points !! i = Some p ->
  camera_mask im depths points !! i =
    Some (true && F64.ltb (F64.of_Z 0) d
          && F64.ltb (F64.of_Z 1) (v0 p)
          && F64.ltb (v0 p) (F64.of_Z (Z.of_N (im_width im) - 1))
          && F64.ltb (F64.of_Z 1) (v1 p)
          && F64.ltb (v1 p) (F64.of_Z (Z.of_N (im_height im) - 1))).
Proof.
  intros Hd Hp. unfold camera_mask.
  assert (Hi : (i < length depths)%nat) by (eapply lookup_lt_Some; exact Hd).
  repeat (apply logical_and_lookup);
    unfold np_ones_bool, np_gt, np_lt;
    rewrite ?lookup_map, ?Hd, ?Hp; try reflexivity.
  apply lookup_replicate_2. exact Hi.
Qed.

Lemma camera_mask_visible (im : Image) (depths : list float) (points : list Vec3)
    (i : nat) (d : float) (p : Vec3) :
  depths !! i = Some d -> points !! i = Some p ->
  (camera_mask im depths points !! i = Some true <-> visible im d (v0 p) (v1 p)) /\
  (camera_mask im depths points !! i = Some false <-> ~ visible im d (v0 p) (v1 p)).
Proof.
  intros Hd Hp. rewrite (camera_mask_lookup im _ _ _ _ _ Hd Hp). unfold visible.
  destruct (F64.ltb (F64.of_Z 0) d), (F64.ltb (F64.of_Z 1) (v0 p)),
    (F64.ltb (v0 p) (F64.of_Z (Z.of_N (im_width im) - 1))), (F64.ltb (F64.of_Z 1) (v1 p)),
    (F64.ltb (v1 p) (F64.of_Z (Z.of_N (im_height im) - 1))); simpl;
    intuition (try discriminate; try congruence).
Qed.

Lemma view_points_lookup (points : list Vec3) (intrinsic : Mat3) (i : nat) (p : Vec3) :
  points !! i = Some p ->
  view_points points intrinsic true !! i =
    Some (mkVec3 (fst (project intrinsic p)) (snd (project intrinsic p)) (F64.of_Z 1)).
Proof.
  intros H. unfold view_points. rewrite !lookup_map, H. reflexivity.
Qed.

(** What a successful call of [pointcloud_color_from_image] went through. *)
Lemma pointcloud_color_from_image_inv (nusc : NuScenes) (pointsensor_token camera_token : string)
    (coloring : list Vec3) (mask : list bool) :
  result (pointcloud_color_from_image rotation_matrix fs nusc pointsensor_token camera_token)
    = Return (coloring, mask) ->
  exists (im : Image) (cs_record : CalibratedSensorRec) (pc : PointCloud) (intrinsic : Mat3),
    result (camera_frame rotation_matrix fs nusc pointsensor_token camera_token)
      = Return (im, cs_record, pc) /\
    cs_camera_intrinsic cs_record = Some intrinsic /\
    mask = camera_mask im (map (fun p => v2 (xyz p)) pc)
             (view_points (map xyz pc) intrinsic true) /\
    result (mapM (pick_color im) (compress mask (view_points (map xyz pc) intrinsic true)))
      = Return coloring.
Proof.
  unfold pointcloud_color_from_image, take_picture. intros H.
  bind_inv H. destruct a as [[im cs_record] pc].
  bind_inv H. destruct a as [depths points].
  bind_inv Ha0. simpl in Ha0. injection Ha0 as <- <-.
  destruct (cs_camera_intrinsic cs_record) as [k |] eqn:Hk; try discriminate.
  simpl in Ha1. injection Ha1 as <-.
  bind_inv H. simpl in H. injection H as <- <-.
  exists im, cs_record, pc, k. auto.
Qed.

(** ** The colour loop *)

Lemma setitem_mask_inv {A : Type} (a : list A) (mask : list bool) (vals a' : list A) :
  result (setitem_mask a mask vals) = Return a' -> mask_assign a mask vals = Some a'.
Proof.
  unfold setitem_mask. destruct (negb (length mask =? length a)%nat); try discriminate.
  destruct (mask_assign a mask vals); simpl; congruence.
Qed.

(** One turn of the loop repaints every entry by [paint_step]. *)
Lemma color_step_inv (g : option NuScenes) (s : SampleRec) (lt : string)
    (a a' : list Vec3) (ch : string) :
  result (color_step rotation_matrix fs g s lt a ch) = Return a' ->
  exists cam, result (camera_colors rotation_matrix fs g s lt ch) = Return cam /\
              length a' = length a /\ length (snd cam) = length a /\
              length (fst cam) = count_true (snd cam) /\
              forall i, a' !! i = paint_step i (a !! i) cam.
Proof.
  unfold color_step. intros H. bind_inv H. destruct a0 as [col mask].
  apply setitem_mask_inv in H. exists (col, mask).
  destruct (mask_assign_length _ _ _ _ H) as (H1 & H2 & H3).
  repeat split; trivial. intros i. unfold paint_step. simpl.
  apply mask_assign_lookup. exact H.
Qed.

Lemma color_loop_inv (g : option NuScenes) (s : SampleRec) (lt : string)
    (chs : list string) (a a' : list Vec3) :
  result (foldM (color_step rotation_matrix fs g s lt) a chs) = Return a' ->
  length a' = length a /\
  exists cams,
    Forall2 (fun ch cam => result (camera_colors rotation_matrix fs g s lt ch) = Return cam)
            chs cams /\
    Forall (fun cam => length (snd cam) = length a /\ length (fst cam) = count_true (snd cam))
           cams /\
    forall i, a' !! i = painted (a !! i) cams i.
Proof.
  revert a. induction chs as [| ch chs IH]; intros a H; simpl in H.
  - injection H as <-. split; [reflexivity |]. exists []. repeat split; constructor.
  - bind_inv H. destruct (color_step_inv _ _ _ _ _ _ Ha) as (cam & Hcam & Hl & Hm & Hc & Hp).
    destruct (IH _ H) as (Hl' & cams & HF & Hdims & Hpaint).
    split; [congruence |]. exists (cam :: cams). repeat split.
    + constructor; assumption.
    + constructor; [auto |]. rewrite Hl in Hdims. exact Hdims.
    + intros i. rewrite Hpaint, Hp. reflexivity.
Qed.

(** C3. When several cameras see a point, the colour it ends with is the
    sample of the last camera, in the order front-left, front, front-right,
    back-left, back, back-right, whose mask holds for it: a later camera
    overwrites an earlier one.  In particular a point seen by the front and
    the front-right cameras, and by none of the three back cameras, ends with
    the colour of the front-right camera. *)
Theorem last_camera_wins (g : option NuScenes) (s : SampleRec) (lt : string)
    (pc : PointCloud) (coloring : list Vec3) :
  result (point_cloud_colors rotation_matrix fs g s lt pc) = Return coloring ->
  (forall (i k : nat) (ch : string) (col : list Vec3) (mask : list bool),
     camera_channels !! k = Some ch ->
     result (camera_colors rotation_matrix fs g s lt ch) = Return (col, mask) ->
     mask !! i = Some true ->
     (forall (k' : nat) (ch' : string) (col' : list Vec3) (mask' : list bool),
        (k < k')%nat -> camera_channels !! k' = Some ch' ->
        result (camera_colors rotation_matrix fs g s lt ch') = Return (col', mask') ->
        mask' !! i <> Some true) ->
     exists c, col !! rank mask i = Some c /\ coloring !! i = Some c) /\
  (forall (i : nat) (col_f col_fr : list Vec3) (mask_f mask_fr : list bool),
     result (camera_colors rotation_matrix fs g s lt "CAM_FRONT") = Return (col_f, mask_f) ->
     result (camera_colors rotation_matrix fs g s lt "CAM_FRONT_RIGHT")
       = Return (col_fr, mask_fr) ->
     mask_f !! i = Some true -> mask_fr !! i = Some true ->
     (forall (ch' : string) (col' : list Vec3) (mask' : list bool),
        ch' ∈ ["CAM_BACK_LEFT"; "CAM_BACK"; "CAM_BACK_RIGHT"]%string ->
        result (camera_colors rotation_matrix fs g s lt ch') = Return (col', mask') ->
        mask' !! i <> Some true) ->
     exists c, col_fr !! rank mask_fr i = Some c /\ coloring !! i = Some c).
Proof.
  intros H. unfold point_cloud_colors in H.
  destruct (color_loop_inv _ _ _ _ _ _ H) as (Hlen & cams & HF & Hdims & Hpaint).
  assert (General : forall (i k : nat) (ch : string) (col : list Vec3) (mask : list bool),
     camera_channels !! k = Some ch ->
     result (camera_colors rotation_matrix fs g s lt ch) = Return (col, mask) ->
     mask !! i = Some true ->
     (forall (k' : nat) (ch' : string) (col' : list Vec3) (mask' : list bool),
        (k < k')%nat -> camera_channels !! k' = Some ch' ->
        result (camera_colors rotation_matrix fs g s lt ch') = Return (col', mask') ->
        mask' !! i <> Some true) ->
     exists c, col !! rank mask i = Some c /\ coloring !! i = Some c).
  { intros i k ch col mask Hk Hcam Hm Hlater.
    destruct (Forall2_lookup_l _ _ _ _ _ HF Hk) as (cam & Hck & Hres).
    rewrite Hcam in Hres. injection Hres as <-.
    assert (Hpost : Forall (unseen i) (drop (S k) cams)).
    { apply Forall_lookup. intros j cam' Hj. rewrite lookup_drop in Hj.
      destruct (Forall2_lookup_r _ _ _ _ _ HF Hj) as (ch' & Hch' & Hres').
      destruct cam' as [col' mask']. unfold unseen. simpl.
      apply (Hlater (S k + j)%nat ch' col' mask'); [lia | exact Hch' | exact Hres']. }
    rewrite Hpaint, <- (take_drop_middle _ _ _ Hck),
      (painted_last_seen _ _ _ (col, mask) i Hm Hpost). simpl.
    destruct (proj1 (Forall_lookup _ _) Hdims _ _ Hck) as [_ Hcount]. simpl in Hcount.
    destruct (lookup_lt_is_Some_2 col (rank mask i)) as [c Hc].
    { rewrite Hcount. apply rank_lt. exact Hm. }
    exists c. auto. }
  split; [exact General |].
  intros i col_f col_fr mask_f mask_fr Hf Hfr Hmf Hmfr Hback.
  apply (General i 2%nat "CAM_FRONT_RIGHT"%string col_fr mask_fr); trivial.
  intros k' ch' col' mask' Hlt Hch'. apply Hback.
  do 3 (destruct k' as [| k']; [lia |]).
  do 3 (destruct k' as [| k']; [injection Hch' as <-; set_solver |]).
  discriminate.
Qed.

Lemma camera_colors_inv (g : option NuScenes) (s : SampleRec) (lt ch : string)
    (cam : list Vec3 * list bool) :
  result (camera_colors rotation_matrix fs g s lt ch) = Return cam <->
  exists tok nusc, data s !! ch = Some tok /\ g = Some nusc /\
    result (pointcloud_color_from_image rotation_matrix fs nusc lt tok) = Return cam.
Proof.
  unfold camera_colors, dict_get, global_get. split.
  - intros H. bind_inv H. bind_inv H.
    destruct (data s !! ch) as [tok |]; try discriminate. injection Ha as ->.
    destruct g as [nusc |]; try discriminate. injection Ha0 as ->.
    exists a, a0. auto.
  - intros (tok & nusc & -> & -> & H).
    rewrite (bind_Return _ _ tok) by reflexivity.
    rewrite (bind_Return _ _ nusc) by reflexivity. exact H.
Qed.

(** The mask of a camera, read at one point of the cloud in its frame. *)
Lemma camera_mask_of_frame (im : Image) (intrinsic : Mat3) (pc : PointCloud) (i : nat) (q : Point) :
  pc !! i = Some q ->
  let mask := camera_mask im (map (fun p => v2 (xyz p)) pc)
                (view_points (map xyz pc) intrinsic true) in
  (mask !! i = Some true <->
     visible im (v2 (xyz q)) (fst (project intrinsic (xyz q))) (snd (project intrinsic (xyz q)))) /\
  (mask !! i = Some false <->
     ~ visible im (v2 (xyz q)) (fst (project intrinsic (xyz q))) (snd (project intrinsic (xyz q)))).
Proof.
  intros Hq mask.
  assert (Hd : map (fun p => v2 (xyz p)) pc !! i = Some (v2 (xyz q)))
    by (rewrite lookup_map, Hq; reflexivity).
  assert (Hp : view_points (map xyz pc) intrinsic true !! i =
               Some (mkVec3 (fst (project intrinsic (xyz q))) (snd (project intrinsic (xyz q)))
                            (F64.of_Z 1)))
    by (apply view_points_lookup; rewrite lookup_map, Hq; reflexivity).
  exact (camera_mask_visible im _ _ i _ _ Hd Hp).
Qed.

Lemma view_points_length (points : list Vec3) (intrinsic : Mat3) (normalize : bool) :
  length (view_points points intrinsic normalize) = length points.
Proof. unfold view_points. destruct normalize; rewrite ?length_map; reflexivity. Qed.

Lemma camera_mask_frame_length (im : Image) (intrinsic : Mat3) (pc : PointCloud) :
  length (camera_mask im (map (fun p => v2 (xyz p)) pc)
            (view_points (map xyz pc) intrinsic true)) = length pc.
Proof.
  rewrite camera_mask_length; rewrite ?view_points_length, ?length_map; reflexivity.
Qed.


(** ** One frame *)

Ltac quiet_tac :=
  repeat first
    [ apply quiet_ret
    | apply quiet_raise
    | apply quiet_bind; [| intros ?]
    | apply quiet_mapM; intros ?
    | apply quiet_foldM; intros ? ?
    | match goal with
      | |- quiet (match ?x with _ => _ end) => destruct x
      | |- quiet (if ?x then _ else _) => destruct x
      end
    | solve [auto with quiet]
    | split; [reflexivity | discriminate] ].

Lemma quiet_nusc_get {A : Type} (table : string) (rows : gmap string A) (token : string) :
  quiet (nusc_get table rows token).
Proof. unfold nusc_get, emit. quiet_tac. Qed.

Lemma quiet_PointCloud_from_file (path : string) : quiet (PointCloud_from_file fs path).
Proof. unfold PointCloud_from_file, emit. quiet_tac. Qed.

Lemma quiet_Image_open (path : string) : quiet (Image_open fs path).
Proof. unfold Image_open, emit. quiet_tac. Qed.

Lemma quiet_dict_get (d : gmap string string) (key : string) : quiet (dict_get d key).
Proof. unfold dict_get. quiet_tac. Qed.

Lemma quiet_global_get {A : Type} (name : string) (binding : option A) :
  quiet (global_get name binding).
Proof. unfold global_get. quiet_tac. Qed.

Lemma quiet_print (b : bool) (s : string) : quiet (when b (print s)).
Proof. unfold when, print, emit. quiet_tac. Qed.

Lemma quiet_setitem_mask {A : Type} (a : list A) (mask : list bool) (vals : list A) :
  quiet (setitem_mask a mask vals).
Proof. unfold setitem_mask. quiet_tac. Qed.

Lemma quiet_pick_color (im : Image) (p : Vec3) : quiet (pick_color im p).
Proof. unfold pick_color. quiet_tac. Qed.

#[local] Hint Resolve quiet_nusc_get quiet_PointCloud_from_file quiet_Image_open quiet_dict_get
  quiet_global_get quiet_print quiet_setitem_mask quiet_pick_color : quiet.

Lemma quiet_camera_frame (nusc : NuScenes) (pointsensor_token camera_token : string) :
  quiet (camera_frame rotation_matrix fs nusc pointsensor_token camera_token).
Proof. unfold camera_frame. quiet_tac. Qed.

Lemma quiet_take_picture (cs_record : CalibratedSensorRec) (pc : PointCloud) :
  quiet (take_picture cs_record pc).
Proof. unfold take_picture. quiet_tac. Qed.

#[local] Hint Resolve quiet_camera_frame quiet_take_picture : quiet.

Lemma quiet_pointcloud_color_from_image (nusc : NuScenes) (pointsensor_token camera_token : string) :
  quiet (pointcloud_color_from_image rotation_matrix fs nusc pointsensor_token camera_token).
Proof. unfold pointcloud_color_from_image. quiet_tac. Qed.

#[local] Hint Resolve quiet_pointcloud_color_from_image : quiet.

Lemma quiet_camera_colors (g : option NuScenes) (s : SampleRec) (lt ch : string) :
  quiet (camera_colors rotation_matrix fs g s lt ch).
Proof. unfold camera_colors. quiet_tac. Qed.

#[local] Hint Resolve quiet_camera_colors : quiet.

Lemma quiet_color_step (g : option NuScenes) (s : SampleRec) (lt : string)
    (a : list Vec3) (ch : string) :
  quiet (color_step rotation_matrix fs g s lt a ch).
Proof. unfold color_step. quiet_tac. Qed.

#[local] Hint Resolve quiet_color_step : quiet.

Lemma quiet_point_cloud_colors (g : option NuScenes) (s : SampleRec) (lt : string)
    (pc : PointCloud) :
  quiet (point_cloud_colors rotation_matrix fs g s lt pc).
Proof. unfold point_cloud_colors. quiet_tac. Qed.

#[local] Hint Resolve quiet_point_cloud_colors : quiet.

Lemma written_map_EvWrite (lines : list string) : written (map EvWrite lines) = lines.
Proof. induction lines as [| l lines IH]; simpl; congruence. Qed.

(** Emission never fails, and writes the line of every coloured pair. *)
Lemma write_points_spec (pc : PointCloud) (coloring : list Vec3) :
  result (write_points pc coloring) = Return tt /\
  trace (write_points pc coloring) = map EvWrite (omap emitted (zip (map xyz pc) coloring)).
Proof.
  unfold write_points. induction (zip (map xyz pc) coloring) as [| [v c] l [IHr IHt]].
  - split; reflexivity.
  - change (omap emitted ((v, c) :: l))
      with (match emitted (v, c) with
            | Some y => y :: omap emitted l
            | None => omap emitted l
            end).
    cbn [forM_]. rewrite result_bind, trace_bind, IHr, IHt.
    assert (He : emitted (v, c) =
                 if any_minus_one c then None else Some (obj_line v (div_255 c)))
      by reflexivity.
    rewrite He. destruct (any_minus_one c); split; reflexivity.
Qed.

Lemma distance_keep_pointwise (min_dist max_dist : float) (pc : PointCloud) :
  distance_keep min_dist max_dist pc =
  map (fun p => in_range min_dist max_dist (distance_from_origin (xyz p))) pc.
Proof.
  unfold distance_keep, logical_and, np_ge, np_le, np_sqrt, np_sum_axis0, np_square.
  induction pc as [| p pc IH]; simpl; [reflexivity |]. rewrite IH. reflexivity.
Qed.

(** Filtering the cloud and the buffer by the mask and emitting what is left
    is emitting, point by point, what is within range. *)
Lemma filtered_emission (r1 : Mat3) (t1 : Vec3) (r2 : Mat3) (t2 : Vec3)
    (min_dist max_dist : float) (pc : PointCloud) (coloring : list Vec3) :
  let pc1 := translate t1 (rotate r1 pc) in
  let keep := distance_keep min_dist max_dist pc1 in
  omap emitted (zip (map xyz (translate t2 (rotate r2 (compress keep pc1))))
                    (compress keep coloring)) =
  omap (fun pcol : Point * Vec3 =>
          let e := vec_add (mat_vec r1 (xyz (fst pcol))) t1 in
          if in_range min_dist max_dist (distance_from_origin e)
          then emitted (vec_add (mat_vec r2 e) t2, snd pcol)
          else None)
       (zip pc coloring).
Proof.
  cbv zeta. rewrite distance_keep_pointwise.
  set (f := fun p : Point => in_range min_dist max_dist (distance_from_origin (xyz p))).
  set (pc1 := translate t1 (rotate r1 pc)).
  assert (H2 : forall l : PointCloud,
             map xyz (translate t2 (rotate r2 l)) =
             map (fun p => vec_add (mat_vec r2 (xyz p)) t2) l).
  { intros l. unfold translate, rotate. rewrite !map_map. reflexivity. }
  rewrite H2, omap_zip_map, omap_zip_compress.
  assert (H1 : pc1 = map (fun p => mkPoint (vec_add (mat_vec r1 (xyz p)) t1) (extra p)) pc).
  { unfold pc1, translate, rotate. rewrite map_map. reflexivity. }
  rewrite H1, omap_zip_map. reflexivity.
Qed.

Ltac quiet_step :=
  match goal with
  | |- context [result (bind ?m ?k)] =>
      let a := fresh "a" in
      let e := fresh "e" in
      let Ha := fresh "Ha" in
      let Hr := fresh "Hr" in
      let Hw := fresh "Hw" in
      destruct (bind_quiet_cases m k ltac:(auto with quiet))
        as [(a & Ha & Hr & Hw) | (e & Ha & Hr & Hw)];
      rewrite Hr, Hw; [| right; exists e; split; reflexivity]
  end.

(** A frame either fails before anything of it is written, or is written
    whole: the lines of its points that are within range and coloured. *)
Lemma process_frame_cases (g : option NuScenes) (explorer : NuScenesExplorer)
    (min_dist max_dist : float) (verbose : bool) (sd_rec : SampleDataRec) :
  (exists (sample_rec : SampleRec) (lidar_rec : SampleDataRec) (pc : PointCloud)
          (coloring : list Vec3) (cs_record : CalibratedSensorRec) (poserecord : EgoPoseRec),
     sample (nusc explorer) !! sd_sample_token sd_rec = Some sample_rec /\
     sample_data (nusc explorer) !! sd_token sd_rec = Some lidar_rec /\
     pointcloud_files fs !! osp_join (dataroot (nusc explorer)) (sd_filename lidar_rec)
       = Some pc /\
     result (point_cloud_colors rotation_matrix fs g sample_rec (sd_token sd_rec) pc)
       = Return coloring /\
     calibrated_sensor (nusc explorer) !! sd_calibrated_sensor_token lidar_rec
       = Some cs_record /\
     ego_pose (nusc explorer) !! sd_ego_pose_token lidar_rec = Some poserecord /\
     result (process_frame rotation_matrix fs g explorer min_dist max_dist verbose sd_rec)
       = Return tt /\
     written (trace (process_frame rotation_matrix fs g explorer min_dist max_dist verbose sd_rec))
       = frame_lines rotation_matrix cs_record poserecord min_dist max_dist pc coloring) \/
  (exists e : exn,
     result (process_frame rotation_matrix fs g explorer min_dist max_dist verbose sd_rec)
       = Raise e /\
     written (trace (process_frame rotation_matrix fs g explorer min_dist max_dist verbose sd_rec))
       = []).
Proof.
  unfold process_frame.
  quiet_step. quiet_step. apply nusc_get_Return in Ha0.
  quiet_step. apply nusc_get_Return in Ha1.
  quiet_step. apply PointCloud_from_file_Return in Ha2.
  quiet_step. quiet_step. apply nusc_get_Return in Ha4.
  quiet_step. quiet_step. apply nusc_get_Return in Ha6.
  left. exists a0, a1, a2, a3, a4, a6.
  do 6 (split; [assumption |]).
  destruct (write_points_spec
              (translate (ep_translation a6) (rotate (rotation_matrix (ep_rotation a6))
                 (compress (distance_keep min_dist max_dist
                              (translate (cs_translation a4)
                                 (rotate (rotation_matrix (cs_rotation a4)) a2)))
                           (translate (cs_translation a4)
                              (rotate (rotation_matrix (cs_rotation a4)) a2)))))
              (compress (distance_keep min_dist max_dist
                           (translate (cs_translation a4)
                              (rotate (rotation_matrix (cs_rotation a4)) a2))) a3))
    as [Hres Htr].
  split; [exact Hres |].
  rewrite Htr, written_map_EvWrite. apply filtered_emission.
Qed.

(** ** What the colour buffer holds *)

Lemma pick_color_inv (im : Image) (p c : Vec3) :
  result (pick_color im p) = Return c ->
  exists px, c = pixel_to_color px /\
    im_data_get im (F64.astype_int32 (F64.rint (v1 p))) (F64.astype_int32 (F64.rint (v0 p)))
      = Some px.
Proof.
  unfold pick_color. destruct (im_data_get _ _ _) as [px |]; simpl; try discriminate.
  intros H. injection H as <-. eauto.
Qed.

(** Every colour a camera returns was read from a pixel of its image. *)
Lemma camera_colors_are_pixels (nusc : NuScenes) (pointsensor_token camera_token : string)
    (col : list Vec3) (mask : list bool) (j : nat) (c : Vec3) :
  result (pointcloud_color_from_image rotation_matrix fs nusc pointsensor_token camera_token)
    = Return (col, mask) ->
  col !! j = Some c -> exists px, c = pixel_to_color px.
Proof.
  intros H Hj.
  destruct (pointcloud_color_from_image_inv _ _ _ _ _ H) as (im & cs & pc & k & _ & _ & _ & Hm).
  destruct (mapM_result_inv _ _ _ Hm) as [Hlen Hall].
  assert (Hlt : (j < length col)%nat) by (eapply lookup_lt_Some; exact Hj).
  rewrite Hlen in Hlt. destruct (lookup_lt_is_Some_2 _ _ Hlt) as [p Hp].
  destruct (Hall _ _ Hp) as (y & Hy & Hres). rewrite Hj in Hy. injection Hy as <-.
  destruct (pick_color_inv _ _ _ Hres) as (px & -> & _). eauto.
Qed.

(** An entry of the buffer is the sentinel when no camera saw the point,
    and the pixel colour the last camera that saw it gave otherwise. *)
Lemma buffer_entry (g : option NuScenes) (s : SampleRec) (lt : string) (pc0 : PointCloud)
    (coloring : list Vec3) (i : nat) (c : Vec3) :
  result (point_cloud_colors rotation_matrix fs g s lt pc0) = Return coloring ->
  coloring !! i = Some c ->
  (c = no_color /\
   forall ch cam, ch ∈ camera_channels ->
     result (camera_colors rotation_matrix fs g s lt ch) = Return cam -> snd cam !! i <> Some true) \/
  ((exists px, c = pixel_to_color px) /\
   exists ch cam, ch ∈ camera_channels /\
     result (camera_colors rotation_matrix fs g s lt ch) = Return cam /\
     snd cam !! i = Some true /\ fst cam !! rank (snd cam) i = Some c).
Proof.
  intros H Hc. unfold point_cloud_colors in H.
  destruct (color_loop_inv _ _ _ _ _ _ H) as (Hlen & cams & HF & Hdims & Hpaint).
  rewrite Hpaint in Hc.
  destruct (painted_cases (replicate (length pc0) no_color !! i) cams i)
    as [[Hun Hp] | (pre & cam & post & -> & Hs & _ & Hp)]; rewrite Hp in Hc.
  - left. apply lookup_replicate in Hc as [-> _]. split; [reflexivity |].
    intros ch cam Hch Hres. apply list_elem_of_lookup_1 in Hch as [k Hk].
    destruct (Forall2_lookup_l _ _ _ _ _ HF Hk) as (cam' & Hck & Hres').
    rewrite Hres in Hres'. injection Hres' as <-.
    exact (proj1 (Forall_lookup _ _) Hun _ _ Hck).
  - right.
    destruct (Forall2_lookup_r _ _ _ _ _ HF (list_lookup_middle pre post cam _ eq_refl))
      as (ch & Hch & Hres).
    split.
    + pose proof Hres as Hres'. apply camera_colors_inv in Hres' as (tok & nusc & _ & _ & Hpc).
      destruct cam as [col mask]. eapply camera_colors_are_pixels; [exact Hpc | exact Hc].
    + exists ch, cam. split; [eapply list_elem_of_lookup_2; exact Hch |]. auto.
Qed.

Lemma emitted_is_vertex_line (v c : Vec3) (line : string) :
  c = no_color \/ (exists px, c = pixel_to_color px) ->
  emitted (v, c) = Some line -> vertex_line line.
Proof.
  unfold emitted. cbn [fst snd]. intros [-> | [px ->]].
  - rewrite no_color_is_skipped. discriminate.
  - rewrite pixel_has_color. intros H. injection H as <-. exists v, px. reflexivity.
Qed.

(** Whatever a frame writes are vertex lines of points coloured from pixels. *)
Lemma process_frame_writes_vertex_lines (g : option NuScenes) (explorer : NuScenesExplorer)
    (min_dist max_dist : float) (verbose : bool) (sd_rec : SampleDataRec) :
  Forall vertex_line
    (written (trace (process_frame rotation_matrix fs g explorer min_dist max_dist
                       verbose sd_rec))).
Proof.
  destruct (process_frame_cases g explorer min_dist max_dist verbose sd_rec)
    as [(s & lidar_rec & pc & coloring & cs & pose & _ & _ & _ & Hcol & _ & _ & _ & ->)
       | (e & _ & ->)]; [| constructor].
  unfold frame_lines. apply Forall_forall. intros line Hin.
  apply list_elem_of_omap in Hin as ([p c] & Hpc & Hline). simpl in Hline.
  destruct (in_range _ _ _); try discriminate.
  apply list_elem_of_lookup_1 in Hpc as [i Hi].
  apply lookup_zip_with_Some in Hi as (p' & c' & Heq & _ & Hc). injection Heq as <- <-.
  eapply emitted_is_vertex_line; [| exact Hline].
  destruct (buffer_entry _ _ _ _ _ _ _ Hcol Hc) as [[-> _] | [Hpx _]]; auto.
Qed.

(** ** The loop over the frames *)

Lemma bind_run {A B : Type} (m : M A) (k : A -> M B) (a : A) :
  result m = Return a -> bind m k = (trace m ++ trace (k a), result (k a)).
Proof.
  destruct m as [tr r]. simpl. intros ->. simpl. destruct (k a). reflexivity.
Qed.

Lemma bind_stop {A B : Type} (m : M A) (k : A -> M B) (e : exn) :
  result m = Raise e -> bind m k = (trace m, Raise e).
Proof. destruct m as [tr r]. simpl. intros ->. reflexivity. Qed.

Lemma frames_loop_done (fuel : nat) (g : option NuScenes) (explorer : NuScenesExplorer)
    (min_dist max_dist : float) (verbose : bool) (sd_rec : SampleDataRec) (frame_ind : Z) :
  frames_loop rotation_matrix fs fuel g explorer min_dist max_dist verbose false sd_rec frame_ind
  = ret frame_ind.
Proof. destruct fuel; reflexivity. Qed.

Lemma process_frame_finishes (g : option NuScenes) (explorer : NuScenesExplorer)
    (min_dist max_dist : float) (verbose : bool) (sd_rec : SampleDataRec) :
  result (process_frame rotation_matrix fs g explorer min_dist max_dist verbose sd_rec)
    = Return tt \/
  exists e, result (process_frame rotation_matrix fs g explorer min_dist max_dist verbose sd_rec)
              = Raise e.
Proof.
  destruct (process_frame_cases g explorer min_dist max_dist verbose sd_rec)
    as [(s & lidar_rec & pc & coloring & cs & pose & _ & _ & _ & _ & _ & _ & H & _)
       | (e & H & _)]; eauto.
Qed.

Lemma link_events_last (r : SampleDataRec) : sd_next r = "" -> link_events r = [].
Proof. unfold link_events. intros ->. reflexivity. Qed.

Lemma link_events_next (r : SampleDataRec) :
  sd_next r <> "" -> link_events r = [EvGet "sample_data" (sd_next r)].
Proof.
  unfold link_events. intros H. destruct (String.eqb_spec (sd_next r) ""); congruence.
Qed.

(** One turn of the loop on a record whose frame is processed. *)
Lemma frames_loop_turn (fuel : nat) (g : option NuScenes) (explorer : NuScenesExplorer)
    (min_dist max_dist : float) (verbose : bool) (r : SampleDataRec) (frame_ind : Z) :
  result (process_frame rotation_matrix fs g explorer min_dist max_dist verbose r) = Return tt ->
  frames_loop rotation_matrix fs (S fuel) g explorer min_dist max_dist verbose true r frame_ind =
  if String.eqb (sd_next r) "" then
    (trace (process_frame rotation_matrix fs g explorer min_dist max_dist verbose r),
     Return (frame_ind + 1))
  else
    match sample_data (nusc explorer) !! sd_next r with
    | Some r' =>
        let rest := frames_loop rotation_matrix fs fuel g explorer min_dist max_dist verbose
                      true r' (frame_ind + 1) in
        (trace (process_frame rotation_matrix fs g explorer min_dist max_dist verbose r)
           ++ EvGet "sample_data" (sd_next r) :: trace rest, result rest)
    | None =>
        (trace (process_frame rotation_matrix fs g explorer min_dist max_dist verbose r)
           ++ [EvGet "sample_data" (sd_next r)], Raise (KeyError (sd_next r)))
    end.
Proof.
  intros Hf. cbn [frames_loop]. rewrite (bind_run _ _ tt Hf).
  destruct (String.eqb (sd_next r) ""); cbn [negb].
  - rewrite (bind_run _ _ (r, false)) by reflexivity. rewrite frames_loop_done.
    simpl. rewrite app_nil_r. reflexivity.
  - destruct (sample_data (nusc explorer) !! sd_next r) as [r' |] eqn:Hn.
    + rewrite (bind_run _ _ (r', true)).
      2:{ rewrite (bind_run _ _ r') by (apply nusc_get_Return; exact Hn). reflexivity. }
      rewrite (bind_run _ _ r') by (apply nusc_get_Return; exact Hn).
      rewrite nusc_get_trace. simpl. reflexivity.
    + rewrite (bind_stop _ _ (KeyError (sd_next r))).
      2:{ rewrite (bind_stop _ _ (KeyError (sd_next r))); [reflexivity |].
          rewrite nusc_get_result, Hn. reflexivity. }
      rewrite (bind_stop _ _ (KeyError (sd_next r)))
        by (rewrite nusc_get_result, Hn; reflexivity).
      rewrite nusc_get_trace. reflexivity.
Qed.

(** A chain of records whose frames are processed: every record is visited
    once, in order, and the loop ends with as many frames counted. *)
Lemma frames_loop_chain (g : option NuScenes) (explorer : NuScenesExplorer)
    (min_dist max_dist : float) (verbose : bool) (r : SampleDataRec) (l : list SampleDataRec) :
  chain (nusc explorer) r l ->
  forall (fuel : nat) (frame_ind : Z),
    (length l <= fuel)%nat ->
    (forall r', r' ∈ l ->
       result (process_frame rotation_matrix fs g explorer min_dist max_dist verbose r')
         = Return tt) ->
    frames_loop rotation_matrix fs fuel g explorer min_dist max_dist verbose true r frame_ind =
    (flat_map (fun r' => trace (process_frame rotation_matrix fs g explorer min_dist max_dist
                                  verbose r') ++ link_events r') l,
     Return (frame_ind + Z.of_nat (length l))).
Proof.
  induction 1 as [r Hlast | r r' l Hnext Hget Hchain IH]; intros fuel frame_ind Hfuel Hok;
    (destruct fuel as [| fuel]; [simpl in Hfuel; lia |]).
  - rewrite frames_loop_turn by (apply Hok; set_solver).
    rewrite Hlast. simpl. rewrite link_events_last, !app_nil_r by exact Hlast. reflexivity.
  - rewrite frames_loop_turn by (apply Hok; set_solver).
    destruct (String.eqb_spec (sd_next r) ""); [congruence |]. rewrite Hget.
    cbv zeta. rewrite IH; [| simpl in Hfuel; lia | intros; apply Hok; set_solver].
    cbn [flat_map trace result fst snd length]. rewrite link_events_next by exact Hnext.
    rewrite <- app_assoc. simpl. do 2 f_equal. lia.
Qed.

(** The same chain ending in a link to a record the store does not have:
    every record is visited, then the fetch of the missing one fails. *)
Lemma frames_loop_dangling (g : option NuScenes) (explorer : NuScenesExplorer)
    (min_dist max_dist : float) (verbose : bool) (r : SampleDataRec) (l : list SampleDataRec)
    (token : string) :
  dangling (nusc explorer) r l token ->
  forall (fuel : nat) (frame_ind : Z),
    (length l <= fuel)%nat ->
    (forall r', r' ∈ l ->
       result (process_frame rotation_matrix fs g explorer min_dist max_dist verbose r')
         = Return tt) ->
    frames_loop rotation_matrix fs fuel g explorer min_dist max_dist verbose true r frame_ind =
    (flat_map (fun r' => trace (process_frame rotation_matrix fs g explorer min_dist max_dist
                                  verbose r') ++ link_events r') l,
     Raise (KeyError token)).
Proof.
  induction 1 as [r Hnext Hget | r r' l token Hnext Hget Hchain IH];
    intros fuel frame_ind Hfuel Hok;
    (destruct fuel as [| fuel]; [simpl in Hfuel; lia |]).
  - rewrite frames_loop_turn by (apply Hok; set_solver).
    destruct (String.eqb_spec (sd_next r) ""); [congruence |]. rewrite Hget.
    simpl. rewrite link_events_next, app_nil_r by exact Hnext. reflexivity.
  - rewrite frames_loop_turn by (apply Hok; set_solver).
    destruct (String.eqb_spec (sd_next r) ""); [congruence |]. rewrite Hget.
    cbv zeta. rewrite IH; [| simpl in Hfuel; lia | intros; apply Hok; set_solver].
    cbn [flat_map trace result fst snd]. rewrite link_events_next by exact Hnext.
    rewrite <- app_assoc. reflexivity.
Qed.

(** On a finite chain the loop comes to an end, whatever the frames do. *)
Lemma frames_loop_terminates (g : option NuScenes) (explorer : NuScenesExplorer)
    (min_dist max_dist : float) (verbose : bool) (r : SampleDataRec) (l : list SampleDataRec) :
  chain (nusc explorer) r l ->
  forall (fuel : nat) (frame_ind : Z),
    (length l <= fuel)%nat ->
    result (frames_loop rotation_matrix fs fuel g explorer min_dist max_dist verbose
              true r frame_ind) <> Unfinished.
Proof.
  induction 1 as [r Hlast | r r' l Hnext Hget Hchain IH]; intros fuel frame_ind Hfuel;
    (destruct fuel as [| fuel]; [simpl in Hfuel; lia |]);
    (destruct (process_frame_finishes g explorer min_dist max_dist verbose r) as [Hf | [e Hf]];
     [rewrite frames_loop_turn by exact Hf
     | cbn [frames_loop]; rewrite (bind_stop _ _ e Hf); discriminate]).
  - rewrite Hlast. discriminate.
  - destruct (String.eqb_spec (sd_next r) ""); [congruence |]. rewrite Hget.
    cbv zeta. simpl. apply IH. simpl in Hfuel. lia.
Qed.

Lemma frames_loop_writes_vertex_lines (fuel : nat) (g : option NuScenes)
    (explorer : NuScenesExplorer) (min_dist max_dist : float) (verbose : bool)
    (has_more_frames : bool) (sd_rec : SampleDataRec) (frame_ind : Z) :
  Forall vertex_line
    (written (trace (frames_loop rotation_matrix fs fuel g explorer min_dist max_dist verbose
                       has_more_frames sd_rec frame_ind))).
Proof.
  revert has_more_frames sd_rec frame_ind.
  induction fuel as [| fuel IH]; intros [|] sd_rec frame_ind; try constructor.
  cbn [frames_loop]. rewrite written_bind. apply Forall_app. split.
  - apply process_frame_writes_vertex_lines.
  - destruct (result (process_frame _ _ _ _ _ _ _ _)); try constructor.
    rewrite written_bind.
    assert (Hq : quiet (if negb (String.eqb (sd_next sd_rec) "")
                        then sd_rec' <- nusc_get "sample_data" (sample_data (nusc explorer))
                                          (sd_next sd_rec) ;;
                             ret (sd_rec', true)
                        else ret (sd_rec, false))) by quiet_tac.
    destruct Hq as [-> _]. simpl.
    destruct (result _) as [[r more] | |]; try constructor. apply IH.
Qed.

(** ** The whole export *)

Lemma export_scene_pointcloud_run (fuel : nat) (g : option NuScenes)
    (explorer : NuScenesExplorer) (out_path scene_token channel : string)
    (min_dist max_dist : float) (verbose : bool)
    (scene_rec : SceneRec) (start_sample_rec : SampleRec) (start_token : string)
    (sd_rec : SampleDataRec) :
  channel ∈ valid_channels ->
  scene (nusc explorer) !! scene_token = Some scene_rec ->
  sample (nusc explorer) !! first_sample_token scene_rec = Some start_sample_rec ->
  data start_sample_rec !! channel = Some start_token ->
  sample_data (nusc explorer) !! start_token = Some sd_rec ->
  writable fs out_path = true ->
  export_scene_pointcloud rotation_matrix fs fuel g explorer out_path scene_token channel
    min_dist max_dist verbose =
  let loop := frames_loop rotation_matrix fs fuel g explorer min_dist max_dist verbose
                true sd_rec 0 in
  (prelude_events out_path scene_token start_token scene_rec ++ trace loop, result loop).
Proof.
  intros Hch Hscene Hsample Hdata Hsd Hw. unfold export_scene_pointcloud.
  rewrite bool_decide_true by exact Hch.
  rewrite (bind_run _ _ tt) by reflexivity.
  rewrite (bind_run _ _ scene_rec) by (apply nusc_get_Return; exact Hscene).
  rewrite (bind_run _ _ start_sample_rec) by (apply nusc_get_Return; exact Hsample).
  rewrite (bind_run _ _ start_token) by (unfold dict_get; rewrite Hdata; reflexivity).
  rewrite (bind_run _ _ sd_rec) by (apply nusc_get_Return; exact Hsd).
  rewrite (bind_run _ _ tt) by (unfold open_w; rewrite Hw; reflexivity).
  rewrite (bind_run _ _ tt) by reflexivity.
  rewrite !nusc_get_trace. unfold dict_get, open_w. rewrite Hdata, Hw. reflexivity.
Qed.

(** C7. With a primary channel outside the six range-sensor channels the
    export stops on the assertion, with the message that names the channel,
    and nothing at all has happened before: no record was fetched, no file
    opened, no frame processed.  With a channel of the set the check passes
    and processing begins with the fetch of the scene record. *)
Theorem unknown_channel_fails_first (fuel : nat) (g : option NuScenes)
    (explorer : NuScenesExplorer) (out_path scene_token channel : string)
    (min_dist max_dist : float) (verbose : bool) :
  (channel ∉ valid_channels ->
     export_scene_pointcloud rotation_matrix fs fuel g explorer out_path scene_token channel
       min_dist max_dist verbose
     = ([], Raise (AssertionError ("Input channel " ++ channel ++ " not valid.")))) /\
  (channel ∈ valid_channels ->
     exists tr,
       trace (export_scene_pointcloud rotation_matrix fs fuel g explorer out_path scene_token
                channel min_dist max_dist verbose)
       = EvGet "scene" scene_token :: tr).
Proof.
  unfold export_scene_pointcloud. split; intros H.
  - rewrite bool_decide_false by exact H. reflexivity.
  - rewrite bool_decide_true by exact H.
    rewrite (bind_run _ _ tt) by reflexivity. cbn [trace fst app ret].
    rewrite trace_bind, nusc_get_trace. cbn [app]. eauto.
Qed.

(** C5. The traversal starts at the record of the primary channel of the
    first sample and follows the [next] links.  On a chain of k records, the
    last with an empty link, the loop comes to an end; when every frame is
    processed it has visited exactly these k records, each once and in order,
    fetching the next record after every frame but the last, and counted k
    frames.  When the last link instead names a token without a record, the
    k frames are processed and the missing-record error of the store comes up. *)
Theorem scene_traversal (fuel : nat) (g : option NuScenes)
    (explorer : NuScenesExplorer) (out_path scene_token channel : string)
    (min_dist max_dist : float) (verbose : bool)
    (scene_rec : SceneRec) (start_sample_rec : SampleRec) (start_token : string)
    (sd_rec : SampleDataRec) (l : list SampleDataRec) :
  channel ∈ valid_channels ->
  scene (nusc explorer) !! scene_token = Some scene_rec ->
  sample (nusc explorer) !! first_sample_token scene_rec = Some start_sample_rec ->
  data start_sample_rec !! channel = Some start_token ->
  sample_data (nusc explorer) !! start_token = Some sd_rec ->
  writable fs out_path = true ->
  (length l <= fuel)%nat ->
  let run := export_scene_pointcloud rotation_matrix fs fuel g explorer out_path scene_token
               channel min_dist max_dist verbose in
  let visit := flat_map (fun r => trace (process_frame rotation_matrix fs g explorer
                                           min_dist max_dist verbose r) ++ link_events r) l in
  (chain (nusc explorer) sd_rec l -> result run <> Unfinished) /\
  ((forall r, r ∈ l ->
      result (process_frame rotation_matrix fs g explorer min_dist max_dist verbose r)
        = Return tt) ->
   (chain (nusc explorer) sd_rec l ->
      run = (prelude_events out_path scene_token start_token scene_rec ++ visit,
             Return (Z.of_nat (length l)))) /\
   (forall token, dangling (nusc explorer) sd_rec l token ->
      run = (prelude_events out_path scene_token start_token scene_rec ++ visit,
             Raise (KeyError token)))).
Proof.
  intros Hch Hscene Hsample Hdata Hsd Hw Hfuel run visit. unfold run.
  rewrite (export_scene_pointcloud_run fuel g explorer out_path scene_token channel min_dist
             max_dist verbose _ _ _ _ Hch Hscene Hsample Hdata Hsd Hw).
  cbv zeta. split; [| intros Hok; split].
  - intros Hchain. simpl. apply (frames_loop_terminates _ _ _ _ _ _ _ Hchain). exact Hfuel.
  - intros Hchain.
    rewrite (frames_loop_chain _ _ _ _ _ _ _ Hchain fuel 0 Hfuel Hok). reflexivity.
  - intros token Hd.
    rewrite (frames_loop_dangling _ _ _ _ _ _ _ _ Hd fuel 0 Hfuel Hok). reflexivity.
Qed.

Ltac quiet_step_or tac :=
  match goal with
  | |- context [written (trace (bind ?m ?k))] =>
      let a := fresh "a" in
      let e := fresh "e" in
      let Ha := fresh "Ha" in
      let Hr := fresh "Hr" in
      let Hw := fresh "Hw" in
      destruct (bind_quiet_cases m k ltac:(first [solve [auto with quiet] | quiet_tac]))
        as [(a & Ha & Hr & Hw) | (e & Ha & Hr & Hw)];
      rewrite Hw; [| tac]
  end.

(** The strings written to the file: nothing, or the header and then
    vertex lines only. *)
Lemma export_scene_pointcloud_written (fuel : nat) (g : option NuScenes)
    (explorer : NuScenesExplorer) (out_path scene_token channel : string)
    (min_dist max_dist : float) (verbose : bool) :
  let tr := trace (export_scene_pointcloud rotation_matrix fs fuel g explorer out_path
                     scene_token channel min_dist max_dist verbose) in
  written tr = [] \/
  exists lines, written tr = obj_header :: lines /\ Forall vertex_line lines.
Proof.
  cbv zeta. unfold export_scene_pointcloud.
  do 5 (quiet_step_or ltac:(left; reflexivity)).
  assert (Hopen : quiet (open_w fs out_path)) by (unfold open_w, emit; quiet_tac).
  destruct (bind_quiet_cases (open_w fs out_path)
              (fun _ => f_write obj_header ;;
                        frames_loop rotation_matrix fs fuel g explorer min_dist max_dist
                          verbose true a3 0) Hopen)
    as [(u & _ & _ & Hwo) | (eo & _ & _ & Hwo)]; rewrite Hwo; [| left; reflexivity].
  right. rewrite written_bind. simpl.
  eexists. split; [reflexivity |]. apply frames_loop_writes_vertex_lines.
Qed.

(** C4. In a frame the distance filter works on the coordinates of the ego
    frame: a point is kept exactly when the distance from the origin of its
    position after the sensor-to-ego transform is at least [min_dist] and at
    most [max_dist], both bounds included (3.0 and 30.0 by default), and the
    lines of the frame are those of the kept points only, taken on to the
    global frame by the ego pose. *)
Theorem distance_filter_on_ego_frame (g : option NuScenes) (explorer : NuScenesExplorer)
    (min_dist max_dist : float) (verbose : bool) (sd_rec : SampleDataRec) :
  result (process_frame rotation_matrix fs g explorer min_dist max_dist verbose sd_rec)
    = Return tt ->
  (exists (sample_rec : SampleRec) (lidar_rec : SampleDataRec) (pc : PointCloud)
          (coloring : list Vec3) (cs_record : CalibratedSensorRec) (poserecord : EgoPoseRec),
     sample (nusc explorer) !! sd_sample_token sd_rec = Some sample_rec /\
     sample_data (nusc explorer) !! sd_token sd_rec = Some lidar_rec /\
     pointcloud_files fs !! osp_join (dataroot (nusc explorer)) (sd_filename lidar_rec)
       = Some pc /\
     result (point_cloud_colors rotation_matrix fs g sample_rec (sd_token sd_rec) pc)
       = Return coloring /\
     calibrated_sensor (nusc explorer) !! sd_calibrated_sensor_token lidar_rec
       = Some cs_record /\
     ego_pose (nusc explorer) !! sd_ego_pose_token lidar_rec = Some poserecord /\
     (forall (i : nat) (p : Point), pc !! i = Some p ->
        distance_keep min_dist max_dist
          (translate (cs_translation cs_record)
             (rotate (rotation_matrix (cs_rotation cs_record)) pc)) !! i =
        Some (F64.leb min_dist
                (distance_from_origin (sensor_to_ego rotation_matrix cs_record (xyz p)))
              && F64.leb (distance_from_origin (sensor_to_ego rotation_matrix cs_record (xyz p)))
                   max_dist)) /\
     written (trace (process_frame rotation_matrix fs g explorer min_dist max_dist verbose sd_rec))
       = omap (fun pcol : Point * Vec3 =>
                 let e := sensor_to_ego rotation_matrix cs_record (xyz (fst pcol)) in
                 if F64.leb min_dist (distance_from_origin e)
                    && F64.leb (distance_from_origin e) max_dist
                 then emitted (ego_to_global rotation_matrix poserecord e, snd pcol)
                 else None)
              (zip pc coloring)) /\
  default_min_dist = F64.of_Z 3 /\ default_max_dist = F64.of_Z 30 /\
  in_range default_min_dist default_max_dist (F64.of_Z 3) = true /\
  in_range default_min_dist default_max_dist (F64.of_Z 30) = true.
Proof.
  intros H. split; [| repeat split; reflexivity].
  destruct (process_frame_cases g explorer min_dist max_dist verbose sd_rec)
    as [(s & lidar_rec & pc & coloring & cs & pose & H1 & H2 & H3 & H4 & H5 & H6 & _ & H8)
       | (e & He & _)]; [| congruence].
  exists s, lidar_rec, pc, coloring, cs, pose. do 6 (split; [assumption |]).
  split; [| exact H8].
  intros i p Hp. rewrite distance_keep_pointwise. unfold translate, rotate.
  rewrite !lookup_map, Hp. reflexivity.
Qed.

(** C6. Emission is no error and writes, in order, the line of every pair
    whose buffer entry holds no -1.  An entry of the buffer of a frame that no
    camera saw is still the sentinel and is skipped; an entry that some camera
    saw holds a pixel colour and is written.  So no point without a colour
    reaches the file. *)
Theorem uncolored_points_are_skipped :
  (forall (pc : PointCloud) (coloring : list Vec3),
     result (write_points pc coloring) = Return tt /\
     written (trace (write_points pc coloring)) = omap emitted (zip (map xyz pc) coloring)) /\
  (forall (g : option NuScenes) (s : SampleRec) (lt : string) (pc0 : PointCloud)
          (coloring : list Vec3) (i : nat) (c : Vec3),
     result (point_cloud_colors rotation_matrix fs g s lt pc0) = Return coloring ->
     coloring !! i = Some c ->
     ((forall ch col mask, ch ∈ camera_channels ->
         result (camera_colors rotation_matrix fs g s lt ch) = Return (col, mask) ->
         mask !! i <> Some true) ->
      c = no_color /\ forall v, emitted (v, c) = None) /\
     (forall ch col mask, ch ∈ camera_channels ->
        result (camera_colors rotation_matrix fs g s lt ch) = Return (col, mask) ->
        mask !! i = Some true ->
        (exists px, c = pixel_to_color px) /\
        forall v, emitted (v, c) = Some (obj_line v (div_255 c)))) /\
  (forall (g : option NuScenes) (explorer : NuScenesExplorer) (min_dist max_dist : float)
          (verbose : bool) (sd_rec : SampleDataRec),
     Forall vertex_line
       (written (trace (process_frame rotation_matrix fs g explorer min_dist max_dist
                          verbose sd_rec)))).
Proof.
  split; [| split].
  - intros pc coloring. destruct (write_points_spec pc coloring) as [Hr Ht].
    split; [exact Hr |]. rewrite Ht. apply written_map_EvWrite.
  - intros g s lt pc0 coloring i c H Hc.
    destruct (buffer_entry _ _ _ _ _ _ _ H Hc)
      as [[-> Hnone] | [[px ->] (ch' & cam' & Hin & Hres & Hseen & _)]]; split.
    + intros _. split; [reflexivity |]. intros v. unfold emitted. cbn [fst snd].
      rewrite no_color_is_skipped. reflexivity.
    + intros ch col mask Hin Hres Hm. exfalso.
      exact (Hnone ch (col, mask) Hin Hres Hm).
    + intros Hall. exfalso. destruct cam' as [col' mask'].
      exact (Hall ch' col' mask' Hin Hres Hseen).
    + intros ch col mask _ _ _. split; [eauto |]. intros v. unfold emitted. cbn [fst snd].
      rewrite pixel_has_color. reflexivity.
  - intros. apply process_frame_writes_vertex_lines.
Qed.

(** The lines of a frame are those of its emitted points, in order. *)
Lemma omap_filter_map {A B : Type} (t : A -> bool) (f : A -> B) (l : list A) :
  omap (fun x => if t x then Some (f x) else None) l = map f (List.filter t l).
Proof.
  induction l as [| x l IH]; [reflexivity |].
  change (omap (fun x => if t x then Some (f x) else None) (x :: l))
    with (match (if t x then Some (f x) else None) with
          | Some y => y :: omap (fun x => if t x then Some (f x) else None) l
          | None => omap (fun x => if t x then Some (f x) else None) l
          end).
  cbn [List.filter]. destruct (t x); cbn [map]; rewrite IH; reflexivity.
Qed.

Lemma frame_lines_emitted (cs_record : CalibratedSensorRec) (poserecord : EgoPoseRec)
    (min_dist max_dist : float) (pc : PointCloud) (coloring : list Vec3) :
  frame_lines rotation_matrix cs_record poserecord min_dist max_dist pc coloring =
  map (fun pcol : Point * Vec3 =>
         obj_line (ego_to_global rotation_matrix poserecord
                     (sensor_to_ego rotation_matrix cs_record (xyz (fst pcol))))
                  (div_255 (snd pcol)))
      (List.filter (fun pcol : Point * Vec3 =>
                      in_range min_dist max_dist
                        (distance_from_origin
                           (sensor_to_ego rotation_matrix cs_record (xyz (fst pcol))))
                      && negb (any_minus_one (snd pcol)))
                   (zip pc coloring)).
Proof.
  unfold frame_lines. rewrite <- omap_filter_map.
  induction (zip pc coloring) as [| pcol l IH]; [reflexivity |].
  change (omap ?f (pcol :: l))
    with (match f pcol with Some y => y :: omap f l | None => omap f l end).
  rewrite IH. cbv zeta. unfold emitted. cbn [fst snd].
  destruct (in_range _ _ _), (any_minus_one (snd pcol)); reflexivity.
Qed.

Lemma written_flat_map_frames (f : SampleDataRec -> list event) (l : list SampleDataRec) :
  written (flat_map (fun x => f x ++ link_events x) l) = flat_map (fun x => written (f x)) l.
Proof.
  induction l as [| x l IH]; simpl; trivial.
  rewrite !written_app, IH. f_equal.
  unfold link_events. destruct (String.eqb (sd_next x) ""); simpl; rewrite app_nil_r; reflexivity.
Qed.

(** C8. The output file.  Once the file is opened its first line is
    [OBJ File:], only vertex lines follow, and it holds just these strings.
    On a chain of records whose frames are processed the vertex lines are
    those of the frames, in the order of the chain.  The lines of a frame
    are one line for every emitted point, in the order of the cloud: the
    points of the sweep of the frame's record that lie within the two
    distances and have a colour; the line of a point is [v x y z r g b],
    with the coordinates of the point in the global frame and its colour,
    which is the colour of a pixel, divided by 255.  The coordinates are
    printed with 8 decimals, the channels with 4; a channel divided by 255
    lies between 0 and 1, and the pixel (128, 64, 32) gives the fields
    0.5020, 0.2510 and 0.1255. *)
Theorem obj_file_format :
  (forall (fuel : nat) (g : option NuScenes) (explorer : NuScenesExplorer)
          (out_path scene_token channel : string) (min_dist max_dist : float) (verbose : bool)
          (scene_rec : SceneRec) (start_sample_rec : SampleRec) (start_token : string)
          (sd_rec : SampleDataRec),
     channel ∈ valid_channels ->
     scene (nusc explorer) !! scene_token = Some scene_rec ->
     sample (nusc explorer) !! first_sample_token scene_rec = Some start_sample_rec ->
     data start_sample_rec !! channel = Some start_token ->
     sample_data (nusc explorer) !! start_token = Some sd_rec ->
     writable fs out_path = true ->
     let tr := trace (export_scene_pointcloud rotation_matrix fs fuel g explorer out_path
                        scene_token channel min_dist max_dist verbose) in
     (exists lines,
        written tr = ("OBJ File:" ++ nl)%string :: lines /\
        Forall vertex_line lines /\
        file_content tr = Some (String.concat "" (("OBJ File:" ++ nl)%string :: lines))) /\
     (forall l : list SampleDataRec,
        chain (nusc explorer) sd_rec l -> (length l <= fuel)%nat ->
        (forall r, r ∈ l ->
           result (process_frame rotation_matrix fs g explorer min_dist max_dist verbose r)
             = Return tt) ->
        written tr =
          ("OBJ File:" ++ nl)%string
          :: flat_map (fun r => written (trace (process_frame rotation_matrix fs g explorer
                                                  min_dist max_dist verbose r))) l)) /\
  (forall (g : option NuScenes) (explorer : NuScenesExplorer) (min_dist max_dist : float)
          (verbose : bool) (sd_rec : SampleDataRec),
     let frame := process_frame rotation_matrix fs g explorer min_dist max_dist verbose sd_rec in
     result frame = Return tt ->
     exists (sample_rec : SampleRec) (lidar_rec : SampleDataRec) (pc : PointCloud)
            (coloring : list Vec3) (cs_record : CalibratedSensorRec) (poserecord : EgoPoseRec),
       sample (nusc explorer) !! sd_sample_token sd_rec = Some sample_rec /\
       sample_data (nusc explorer) !! sd_token sd_rec = Some lidar_rec /\
       pointcloud_files fs !! osp_join (dataroot (nusc explorer)) (sd_filename lidar_rec)
         = Some pc /\
       result (point_cloud_colors rotation_matrix fs g sample_rec (sd_token sd_rec) pc)
         = Return coloring /\
       length coloring = length pc /\
       calibrated_sensor (nusc explorer) !! sd_calibrated_sensor_token lidar_rec
         = Some cs_record /\
       ego_pose (nusc explorer) !! sd_ego_pose_token lidar_rec = Some poserecord /\
       let emitted_points :=
         List.filter (fun pcol : Point * Vec3 =>
                        in_range min_dist max_dist
                          (distance_from_origin
                             (sensor_to_ego rotation_matrix cs_record (xyz (fst pcol))))
                        && negb (any_minus_one (snd pcol)))
                     (zip pc coloring) in
       written (trace frame) =
         map (fun pcol : Point * Vec3 =>
                obj_line (ego_to_global rotation_matrix poserecord
                            (sensor_to_ego rotation_matrix cs_record (xyz (fst pcol))))
                         (div_255 (snd pcol)))
             emitted_points /\
       Forall (fun pcol : Point * Vec3 => exists px : Pixel, snd pcol = pixel_to_color px)
              emitted_points) /\
  (forall (v : Vec3) (px : Pixel),
     obj_line v (div_255 (pixel_to_color px)) =
     ("v " ++ F64.format_f 8 (v0 v) ++ " " ++ F64.format_f 8 (v1 v) ++ " "
      ++ F64.format_f 8 (v2 v) ++ " "
      ++ F64.format_f 4 (F64.div (byte_to_float (red px)) (F64.of_Z 255)) ++ " "
      ++ F64.format_f 4 (F64.div (byte_to_float (green px)) (F64.of_Z 255)) ++ " "
      ++ F64.format_f 4 (F64.div (byte_to_float (blue px)) (F64.of_Z 255)) ++ nl)%string) /\
  (forall (d : nat) (x : float), is_finite x = true ->
     exists sign int frac : string,
       F64.format_f (S d) x = (sign ++ int ++ "." ++ frac)%string /\
       (sign = "" \/ sign = "-")%string /\ String.length frac = S d) /\
  (forall b : byte,
     is_finite (F64.div (byte_to_float b) (F64.of_Z 255)) = true /\
     F64.leb (F64.of_Z 0) (F64.div (byte_to_float b) (F64.of_Z 255)) = true /\
     F64.leb (F64.div (byte_to_float b) (F64.of_Z 255)) (F64.of_Z 1) = true) /\
  (let c := div_255 (pixel_to_color (mkPixel x80 x40 x20)) in
   F64.format_f 4 (v0 c) = "0.5020"%string /\ F64.format_f 4 (v1 c) = "0.2510"%string /\
   F64.format_f 4 (v2 c) = "0.1255"%string).
Proof.
  split; [| split; [| split; [| split; [| split]]]].
  - intros fuel g explorer out_path scene_token channel min_dist max_dist verbose
      scene_rec s tok sd_rec Hch Hscene Hsample Hdata Hsd Hw tr. unfold tr.
    rewrite (export_scene_pointcloud_run fuel g explorer out_path scene_token channel min_dist
               max_dist verbose _ _ _ _ Hch Hscene Hsample Hdata Hsd Hw).
    cbv zeta. cbn [trace fst]. split.
    + exists (written (trace (frames_loop rotation_matrix fs fuel g explorer min_dist max_dist
                                verbose true sd_rec 0))).
      split; [rewrite written_app; reflexivity |].
      split; [apply frames_loop_writes_vertex_lines |].
      unfold file_content, file_opened. rewrite existsb_app, written_app. reflexivity.
    + intros l Hchain Hfuel Hok.
      rewrite (frames_loop_chain _ _ _ _ _ _ _ Hchain fuel 0 Hfuel Hok).
      cbn [trace fst]. rewrite written_app, written_flat_map_frames. reflexivity.
  - intros g explorer min_dist max_dist verbose sd_rec frame Hres. unfold frame in *.
    destruct (process_frame_cases g explorer min_dist max_dist verbose sd_rec)
      as [(s & lidar_rec & pc & coloring & cs & pose & Hs & Hl & Hpc & Hcol & Hcs & Hpose
           & _ & Hw)
         | (e & He & _)]; [| congruence].
    exists s, lidar_rec, pc, coloring, cs, pose. do 4 (split; [assumption |]).
    assert (Hlen : length coloring = length pc).
    { unfold point_cloud_colors in Hcol.
      destruct (color_loop_inv _ _ _ _ _ _ Hcol) as [-> _]. apply length_replicate. }
    split; [exact Hlen |]. do 2 (split; [assumption |]). cbv zeta.
    split; [rewrite Hw; apply frame_lines_emitted |].
    apply Forall_forall. intros [p c] Hin.
    apply list_elem_of_In, List.filter_In in Hin as [Hin Ht]. cbn [fst snd] in *.
    apply andb_prop in Ht as [_ Hc]. apply negb_true_iff in Hc.
    apply list_elem_of_In, list_elem_of_lookup_1 in Hin as [i Hi].
    apply lookup_zip_with_Some in Hi as (p' & c' & Heq & _ & Hci). injection Heq as <- <-.
    destruct (buffer_entry _ _ _ _ _ _ _ Hcol Hci) as [[-> _] | [Hpx _]]; [| exact Hpx].
    rewrite no_color_is_skipped in Hc. discriminate.
  - intros v px. reflexivity.
  - intros d x Hx. apply format_f_decimals. exact Hx.
  - intros b. destruct b; vm_compute; repeat split; reflexivity.
  - vm_compute. repeat split; reflexivity.
Qed.

(** ** Reading the pixel *)

Lemma np_index_in_axis (n i : Z) : 0 <= i <= n - 1 -> np_index n i = Some i.
Proof.
  intros H. unfold np_index.
  replace (0 <=? i) with true by (symmetry; apply Z.leb_le; lia).
  replace (i <? n) with true by (symmetry; apply Z.ltb_lt; lia). reflexivity.
Qed.

Lemma pick_color_in_bounds (im : Image) (p : Vec3) :
  mantissa_bounded (v0 p) = true -> mantissa_bounded (v1 p) = true ->
  F64.ltb (F64.of_Z 1) (v0 p) = true ->
  F64.ltb (v0 p) (F64.of_Z (Z.of_N (im_width im) - 1)) = true ->
  F64.ltb (F64.of_Z 1) (v1 p) = true ->
  F64.ltb (v1 p) (F64.of_Z (Z.of_N (im_height im) - 1)) = true ->
  let x := F64.astype_int32 (F64.rint (v0 p)) in
  let y := F64.astype_int32 (F64.rint (v1 p)) in
  0 <= x <= Z.of_N (im_width im) - 1 /\ 0 <= y <= Z.of_N (im_height im) - 1 /\
  im_data_get im y x = Some (im_data im y x) /\
  pick_color im p = ret (pixel_to_color (im_data im y x)).
Proof.
  intros Hb0 Hb1 Hu1 Hu2 Hv1 Hv2 x y.
  pose proof (im_width_int im) as Hw. apply Z.ltb_lt in Hw.
  pose proof (im_height_int im) as Hh. apply Z.ltb_lt in Hh.
  pose proof (rounded_coordinate_in_axis _ _ Hb0 (Z.lt_le_incl _ _ Hw) Hu1 Hu2) as Hx.
  pose proof (rounded_coordinate_in_axis _ _ Hb1 (Z.lt_le_incl _ _ Hh) Hv1 Hv2) as Hy.
  fold x in Hx. fold y in Hy. split; [exact Hx |]. split; [exact Hy |].
  unfold pick_color, im_data_get. fold x y.
  rewrite (np_index_in_axis _ _ Hx), (np_index_in_axis _ _ Hy). split; reflexivity.
Qed.

Lemma mapM_total {A B : Type} (f : A -> M B) (l : list A) :
  (forall j x, l !! j = Some x -> exists y, result (f x) = Return y) ->
  exists ys, result (mapM f l) = Return ys.
Proof.
  induction l as [| x l IH]; intros H; simpl.
  - eexists. reflexivity.
  - destruct (H O x eq_refl) as [y Hy].
    destruct IH as [ys Hys]. { intros j x' Hj. apply (H (S j)). exact Hj. }
    exists (y :: ys). rewrite (bind_Return _ _ y Hy), (bind_Return _ _ ys Hys). reflexivity.
Qed.

(** C9. A projected point that passes the margin test of the mask has its
    rounded coordinates inside the image: 0 <= round(u) <= width - 1 and
    0 <= round(v) <= height - 1, so that the read [im_data[round(v), round(u)]]
    succeeds.  Consequently the colour loop of [pointcloud_color_from_image]
    never fails on an index: once the cloud is in the camera frame and the
    camera has an intrinsic matrix, the call returns. *)
Theorem sampled_pixel_in_bounds :
  (forall (im : Image) (intrinsic : Mat3) (p : Vec3) (depth : float),
     let u := fst (project intrinsic p) in
     let v := snd (project intrinsic p) in
     visible im depth u v ->
     let x := F64.astype_int32 (F64.rint u) in
     let y := F64.astype_int32 (F64.rint v) in
     0 <= x <= Z.of_N (im_width im) - 1 /\ 0 <= y <= Z.of_N (im_height im) - 1 /\
     im_data_get im y x = Some (im_data im y x) /\
     pick_color im (mkVec3 u v (F64.of_Z 1)) = ret (pixel_to_color (im_data im y x))) /\
  (forall (nusc : NuScenes) (pointsensor_token camera_token : string)
          (im : Image) (cs_record : CalibratedSensorRec) (pc : PointCloud) (intrinsic : Mat3),
     result (camera_frame rotation_matrix fs nusc pointsensor_token camera_token)
       = Return (im, cs_record, pc) ->
     cs_camera_intrinsic cs_record = Some intrinsic ->
     exists (coloring : list Vec3) (mask : list bool),
       result (pointcloud_color_from_image rotation_matrix fs nusc pointsensor_token
                 camera_token) = Return (coloring, mask)).
Proof.
  split.
  - intros im k p depth u v (_ & (Hu1 & Hu2) & Hv1 & Hv2).
    apply (pick_color_in_bounds im (mkVec3 u v (F64.of_Z 1))); cbn [v0 v1]; trivial;
      apply div_bounded.
  - intros nusc pt ct im cs pc k Hframe Hk.
    unfold pointcloud_color_from_image.
    rewrite (bind_Return _ _ (im, cs, pc) Hframe).
    rewrite (bind_Return _ _ (map (fun p => v2 (xyz p)) pc, view_points (map xyz pc) k true))
      by (unfold take_picture; rewrite Hk; reflexivity).
    set (points := view_points (map xyz pc) k true).
    set (depths := map (fun p => v2 (xyz p)) pc).
    destruct (mapM_total (pick_color im) (compress (camera_mask im depths points) points))
      as [coloring Hc].
    + intros j x Hj.
      destruct (compress_lookup_inv _ _ _ _ Hj) as (i & Hm & Hp & _).
      assert (Hi : (i < length depths)%nat).
      { unfold depths. rewrite length_map, <- (length_map xyz pc),
          <- (view_points_length (map xyz pc) k true).
        eapply lookup_lt_Some. exact Hp. }
      destruct (lookup_lt_is_Some_2 _ _ Hi) as [d Hd].
      rewrite (camera_mask_lookup im _ _ _ _ _ Hd Hp) in Hm. injection Hm as Hm.
      repeat (apply andb_prop in Hm as [Hm ?]).
      assert (Hx : exists q, x = mkVec3 (fst (project k q)) (snd (project k q)) (F64.of_Z 1)).
      { unfold points in Hp.
        assert (Hl : (i < length (map xyz pc))%nat).
        { rewrite <- (view_points_length (map xyz pc) k true). eapply lookup_lt_Some. exact Hp. }
        destruct (lookup_lt_is_Some_2 _ _ Hl) as [q Hq].
        rewrite (view_points_lookup _ k _ _ Hq) in Hp. injection Hp as <-. eauto. }
      destruct Hx as [q ->]. cbn [v0 v1] in *.
      destruct (pick_color_in_bounds im
                  (mkVec3 (fst (project k q)) (snd (project k q)) (F64.of_Z 1)))
        as (_ & _ & _ & ->); cbn [v0 v1]; trivial; try apply div_bounded.
      eexists. reflexivity.
    + exists coloring, (camera_mask im depths points).
      rewrite (bind_Return _ _ coloring Hc). reflexivity.
Qed.

(** ** The name [nusc] of line 58 *)

Lemma point_cloud_colors_unbound (s : SampleRec) (lt : string) (pc : PointCloud) (tok : string) :
  data s !! "CAM_FRONT_LEFT"%string = Some tok ->
  point_cloud_colors rotation_matrix fs None s lt pc = raise (NameError "nusc").
Proof.
  intros H. unfold point_cloud_colors, camera_channels. cbn [foldM].
  unfold color_step at 1, camera_colors, dict_get. rewrite H. reflexivity.
Qed.

Lemma process_frame_unbound_fails (explorer : NuScenesExplorer) (min_dist max_dist : float)
    (verbose : bool) (sd_rec : SampleDataRec) :
  exists e, result (process_frame rotation_matrix fs None explorer min_dist max_dist verbose
                      sd_rec) = Raise e /\
            written (trace (process_frame rotation_matrix fs None explorer min_dist max_dist
                              verbose sd_rec)) = [].
Proof.
  destruct (process_frame_cases None explorer min_dist max_dist verbose sd_rec)
    as [(s & lidar_rec & pc & coloring & cs & pose & _ & _ & _ & Hcol & _) | H]; [| exact H].
  exfalso. unfold point_cloud_colors in Hcol.
  destruct (color_loop_inv _ _ _ _ _ _ Hcol) as (_ & cams & HF & _).
  inversion HF as [| ch cam chs cams' Hres _]; subst.
  apply camera_colors_inv in Hres as (tok & nusc & _ & Hg & _). discriminate.
Qed.

Lemma process_frame_unbound_NameError (explorer : NuScenesExplorer) (min_dist max_dist : float)
    (verbose : bool) (sd_rec : SampleDataRec) (sample_rec : SampleRec)
    (lidar_rec : SampleDataRec) (pc : PointCloud) (camera_token : string) :
  sample (nusc explorer) !! sd_sample_token sd_rec = Some sample_rec ->
  sample_data (nusc explorer) !! sd_token sd_rec = Some lidar_rec ->
  pointcloud_files fs !! osp_join (dataroot (nusc explorer)) (sd_filename lidar_rec) = Some pc ->
  data sample_rec !! "CAM_FRONT_LEFT"%string = Some camera_token ->
  result (process_frame rotation_matrix fs None explorer min_dist max_dist verbose sd_rec)
    = Raise (NameError "nusc").
Proof.
  intros Hs Hl Hpc Hcam. unfold process_frame.
  rewrite (bind_Return _ _ tt) by (destruct verbose; reflexivity).
  rewrite (bind_Return _ _ sample_rec) by (apply nusc_get_Return; exact Hs).
  rewrite (bind_Return _ _ lidar_rec) by (apply nusc_get_Return; exact Hl).
  rewrite (bind_Return _ _ pc) by (apply PointCloud_from_file_Return; exact Hpc).
  rewrite result_bind, (point_cloud_colors_unbound _ _ _ _ Hcam). reflexivity.
Qed.

Lemma frames_loop_unbound (fuel : nat) (explorer : NuScenesExplorer) (min_dist max_dist : float)
    (verbose : bool) (sd_rec : SampleDataRec) (frame_ind : Z) :
  (forall n, result (frames_loop rotation_matrix fs fuel None explorer min_dist max_dist
                       verbose true sd_rec frame_ind) <> Return n) /\
  written (trace (frames_loop rotation_matrix fs fuel None explorer min_dist max_dist
                    verbose true sd_rec frame_ind)) = [].
Proof.
  destruct fuel as [| fuel]; [split; [discriminate | reflexivity] |].
  destruct (process_frame_unbound_fails explorer min_dist max_dist verbose sd_rec)
    as (e & Hr & Hw).
  cbn [frames_loop]. rewrite written_bind, result_bind, Hr, Hw. split; [discriminate | reflexivity].
Qed.

(** With the name unbound no call completes, and no vertex line is written. *)
Lemma export_unbound_fails (fuel : nat) (explorer : NuScenesExplorer)
    (out_path scene_token channel : string) (min_dist max_dist : float) (verbose : bool) :
  let run := export_scene_pointcloud rotation_matrix fs fuel None explorer out_path
               scene_token channel min_dist max_dist verbose in
  (forall n, result run <> Return n) /\
  (written (trace run) = [] \/ written (trace run) = [obj_header]).
Proof.
  cbv zeta. split.
  - intros n H. unfold export_scene_pointcloud in H. do 7 (bind_inv H).
    exact (proj1 (frames_loop_unbound fuel explorer min_dist max_dist verbose _ 0) n H).
  - unfold export_scene_pointcloud.
    do 5 (quiet_step_or ltac:(left; reflexivity)).
    assert (Hopen : quiet (open_w fs out_path)) by (unfold open_w, emit; quiet_tac).
    destruct (bind_quiet_cases (open_w fs out_path)
                (fun _ => f_write obj_header ;;
                          frames_loop rotation_matrix fs fuel None explorer min_dist max_dist
                            verbose true a3 0) Hopen)
      as [(u & _ & _ & Hwo) | (eo & _ & _ & Hwo)]; rewrite Hwo; [| left; reflexivity].
    right. rewrite written_bind. simpl.
    rewrite (proj2 (frames_loop_unbound fuel explorer min_dist max_dist verbose a3 0)).
    reflexivity.
Qed.

(** With the name unbound, a call that gets to the first camera of the first
    frame stops there on the NameError, the header alone in the file. *)
Lemma export_unbound_NameError (fuel : nat) (explorer : NuScenesExplorer)
    (out_path scene_token channel : string) (min_dist max_dist : float) (verbose : bool)
    (scene_rec : SceneRec) (start_sample_rec : SampleRec) (start_token : string)
    (sd_rec : SampleDataRec) (sample_rec : SampleRec) (lidar_rec : SampleDataRec)
    (pc : PointCloud) (camera_token : string) :
  channel ∈ valid_channels ->
  scene (nusc explorer) !! scene_token = Some scene_rec ->
  sample (nusc explorer) !! first_sample_token scene_rec = Some start_sample_rec ->
  data start_sample_rec !! channel = Some start_token ->
  sample_data (nusc explorer) !! start_token = Some sd_rec ->
  writable fs out_path = true ->
  sample (nusc explorer) !! sd_sample_token sd_rec = Some sample_rec ->
  sample_data (nusc explorer) !! sd_token sd_rec = Some lidar_rec ->
  pointcloud_files fs !! osp_join (dataroot (nusc explorer)) (sd_filename lidar_rec) = Some pc ->
  data sample_rec !! "CAM_FRONT_LEFT"%string = Some camera_token ->
  let run := export_scene_pointcloud rotation_matrix fs (S fuel) None explorer out_path
               scene_token channel min_dist max_dist verbose in
  result run = Raise (NameError "nusc") /\ written (trace run) = [obj_header].
Proof.
  intros Hch Hscene Hsample Hdata Hsd Hw Hs Hl Hpc Hcam. cbv zeta.
  rewrite (export_scene_pointcloud_run (S fuel) None explorer out_path scene_token channel
             min_dist max_dist verbose _ _ _ _ Hch Hscene Hsample Hdata Hsd Hw).
  cbv zeta. cbn [trace result fst snd].
  rewrite written_app, (proj2 (frames_loop_unbound (S fuel) explorer min_dist max_dist
                                 verbose sd_rec 0)).
  split; [| reflexivity].
  cbn [frames_loop]. rewrite result_bind.
  rewrite (process_frame_unbound_NameError explorer min_dist max_dist verbose sd_rec
             sample_rec lidar_rec pc camera_token Hs Hl Hpc Hcam).
  reflexivity.
Qed.

End Properties.

(** * The properties at work on the demo scene *)

(** ** Facts of the demo *)

Lemma demo_channel : "LIDAR_TOP"%string ∈ valid_channels.
Proof. apply list_elem_of_In. simpl. auto. Qed.

Lemma demo_scene (last : SampleDataRec) :
  scene (Demo.store_with Demo.cam_fr last) !! "scene-1"%string = Some (mkSceneRec "s1").
Proof. vm_compute. reflexivity. Qed.

Lemma demo_sample (last : SampleDataRec) :
  sample (Demo.store_with Demo.cam_fr last) !! "s1"%string = Some (Demo.sample_of "l1").
Proof. vm_compute. reflexivity. Qed.

Lemma demo_start : data (Demo.sample_of "l1") !! "LIDAR_TOP"%string = Some "l1"%string.
Proof. vm_compute. reflexivity. Qed.

Lemma demo_cam_front_left :
  data (Demo.sample_of "l1") !! "CAM_FRONT_LEFT"%string = Some "cam_fl"%string.
Proof. vm_compute. reflexivity. Qed.

Lemma demo_l1 (last : SampleDataRec) :
  sample_data (Demo.store_with Demo.cam_fr last) !! "l1"%string = Some Demo.l1.
Proof. vm_compute. reflexivity. Qed.

Lemma demo_l2 (last : SampleDataRec) :
  sample_data (Demo.store_with Demo.cam_fr last) !! "l2"%string = Some Demo.l2.
Proof. vm_compute. reflexivity. Qed.

Lemma demo_l3 (last : SampleDataRec) :
  sample_data (Demo.store_with Demo.cam_fr last) !! "l3"%string = Some last.
Proof. vm_compute. reflexivity. Qed.

Lemma demo_l4 : sample_data Demo.store_broken !! "l4"%string = None.
Proof. vm_compute. reflexivity. Qed.

Lemma demo_cloud : pointcloud_files Demo.files !! "/data/sweeps/l1.bin"%string = Some Demo.cloud.
Proof. vm_compute. reflexivity. Qed.

Lemma demo_chain : chain Demo.store Demo.l1 [Demo.l1; Demo.l2; Demo.l3].
Proof.
  apply chain_next with (r' := Demo.l2); [discriminate | apply demo_l2 |].
  apply chain_next with (r' := Demo.l3); [discriminate | apply demo_l3 |].
  apply chain_last. reflexivity.
Qed.

Lemma demo_dangling :
  dangling Demo.store_broken Demo.l1 [Demo.l1; Demo.l2; Demo.l3_broken] "l4".
Proof.
  apply dangling_next with (r' := Demo.l2); [discriminate | apply demo_l2 |].
  apply dangling_next with (r' := Demo.l3_broken); [discriminate | apply demo_l3 |].
  apply (dangling_last Demo.store_broken Demo.l3_broken); [discriminate | exact demo_l4].
Qed.

Lemma demo_frames_ok (explorer : NuScenesExplorer) (last : SampleDataRec) :
  explorer = Demo.explorer \/ explorer = Demo.explorer_broken ->
  last = Demo.l3 \/ last = Demo.l3_broken ->
  forall r, r ∈ [Demo.l1; Demo.l2; last] ->
    result (process_frame Demo.rotation_matrix Demo.files (Some Demo.store) explorer
              default_min_dist default_max_dist false r) = Return tt.
Proof.
  intros He Hl r Hin. apply list_elem_of_In in Hin. simpl in Hin.
  destruct He as [-> | ->], Hl as [-> | ->], Hin as [<- | [<- | [<- | []]]];
    vm_compute; reflexivity.
Qed.

Lemma demo_cam_f :
  sample_data Demo.store !! "cam_f"%string = Some (Demo.camera "cam_f" "img/f.jpg" "cs_here").
Proof. vm_compute. reflexivity. Qed.

Lemma demo_image_f :
  image_files Demo.files !! "/data/img/f.jpg"%string = Some (Demo.plain xff x00 x00).
Proof. vm_compute. reflexivity. Qed.

Lemma demo_cs (token : string) (cs : CalibratedSensorRec) :
  (token = "cs_lidar"%string /\ cs = Demo.cs_lidar) \/
  (token = "cs_here"%string /\ cs = Demo.cs_here) ->
  calibrated_sensor Demo.store !! token = Some cs.
Proof. intros [[-> ->] | [-> ->]]; vm_compute; reflexivity. Qed.

Lemma demo_pose : ego_pose Demo.store !! "pose"%string = Some Demo.pose.
Proof. vm_compute. reflexivity. Qed.

Lemma demo_colors1 : result Demo.colors1 = Return Demo.coloring1.
Proof. vm_compute. reflexivity. Qed.

Lemma demo_view_front :
  result (Demo.view "CAM_FRONT") = Return (replicate 4 Demo.red_pixel, Demo.mask_here).
Proof. vm_compute. reflexivity. Qed.

Lemma demo_view_front_right :
  result (Demo.view "CAM_FRONT_RIGHT") = Return (replicate 4 Demo.brown_pixel, Demo.mask_here).
Proof. vm_compute. reflexivity. Qed.

Lemma demo_frame1 : result (Demo.frame1 (Some Demo.store)) = Return tt.
Proof. vm_compute. reflexivity. Qed.

Lemma demo_point1_unseen (ch : string) (col : list Vec3) (mask : list bool) :
  ch ∈ camera_channels ->
  result (camera_colors Demo.rotation_matrix Demo.files (Some Demo.store)
            (Demo.sample_of "l1") "l1" ch) = Return (col, mask) ->
  mask !! 1%nat <> Some true.
Proof.
  intros Hin Hres. apply list_elem_of_In in Hin. simpl in Hin.
  destruct Hin as [<- | [<- | [<- | [<- | [<- | [<- | []]]]]]]; vm_compute in Hres;
    injection Hres as <- <-; discriminate.
Qed.

(** ** The properties on the demo *)

(** The front camera of the demo: the cloud of the first sweep reaches its
    frame through the lidar calibration, the ego pose, the ego pose again and
    the camera calibration. *)
Lemma camera_frame_demo :
  result (camera_frame Demo.rotation_matrix Demo.files Demo.store "l1" "cam_f") =
  Return (Demo.plain xff x00 x00, Demo.cs_here,
          map (fun p =>
                 mkPoint (ego_to_sensor Demo.rotation_matrix Demo.cs_here
                            (global_to_ego Demo.rotation_matrix Demo.pose
                               (ego_to_global Demo.rotation_matrix Demo.pose
                                  (sensor_to_ego Demo.rotation_matrix Demo.cs_lidar (xyz p)))))
                         (extra p)) Demo.cloud).
Proof.
  apply (proj2 (camera_frame_four_steps Demo.rotation_matrix Demo.files Demo.store
                  "l1" "cam_f" _ _ _)).
  exists (Demo.camera "cam_f" "img/f.jpg" "cs_here"), Demo.l1, Demo.cloud, Demo.cs_lidar,
    Demo.pose, Demo.pose.
  split; [exact demo_cam_f |]. split; [exact (demo_l1 Demo.l3) |].
  split; [exact demo_cloud |]. split; [exact demo_image_f |].
  split; [apply demo_cs; auto |]. split; [exact demo_pose |]. split; [exact demo_pose |].
  split; [apply demo_cs; auto | reflexivity].
Defined.


(** The first point of the demo is seen by the front camera (red picture)
    and the front-right camera (brown picture): it ends brown. *)
Lemma last_camera_wins_demo :
  exists c, replicate 4 Demo.brown_pixel !! rank Demo.mask_here 0 = Some c /\
            Demo.coloring1 !! 0%nat = Some c.
Proof.
  apply (proj2 (last_camera_wins Demo.rotation_matrix Demo.files (Some Demo.store)
                  (Demo.sample_of "l1") "l1" Demo.cloud Demo.coloring1 demo_colors1)
           0%nat (replicate 4 Demo.red_pixel) (replicate 4 Demo.brown_pixel)
           Demo.mask_here Demo.mask_here demo_view_front demo_view_front_right
           eq_refl eq_refl).
  intros ch' col' mask' Hin Hres.
  apply list_elem_of_In in Hin. simpl in Hin.
  destruct Hin as [<- | [<- | [<- | []]]]; vm_compute in Hres;
    injection Hres as <- <-; discriminate.
Defined.

(** The first frame of the demo: its lines are those of the points within
    [3, 30] metres of the vehicle. *)
Lemma distance_filter_demo :
  exists (pc : PointCloud) (coloring : list Vec3) (cs_record : CalibratedSensorRec)
         (poserecord : EgoPoseRec),
    written (trace (Demo.frame1 (Some Demo.store))) =
    omap (fun pcol : Point * Vec3 =>
            let e := sensor_to_ego Demo.rotation_matrix cs_record (xyz (fst pcol)) in
            if F64.leb default_min_dist (distance_from_origin e)
               && F64.leb (distance_from_origin e) default_max_dist
            then emitted (ego_to_global Demo.rotation_matrix poserecord e, snd pcol)
            else None)
         (zip pc coloring).
Proof.
  destruct (distance_filter_on_ego_frame Demo.rotation_matrix Demo.files (Some Demo.store)
              Demo.explorer default_min_dist default_max_dist false Demo.l1 demo_frame1)
    as [(s & lidar_rec & pc & coloring & cs & pose & _ & _ & _ & _ & _ & _ & _ & Hw) _].
  exists pc, coloring, cs, pose. exact Hw.
Defined.

(** The three sweeps of the demo are processed and three frames are counted;
    with the last link broken the three frames are processed and the
    missing record comes up. *)
Lemma scene_traversal_demo :
  result (Demo.run 3 (Some Demo.store) Demo.explorer "LIDAR_TOP") = Return 3 /\
  result (Demo.run 3 (Some Demo.store) Demo.explorer_broken "LIDAR_TOP")
    = Raise (KeyError "l4").
Proof.
  split.
  - pose proof (scene_traversal Demo.rotation_matrix Demo.files 3 (Some Demo.store)
                  Demo.explorer Demo.out_path "scene-1" "LIDAR_TOP" default_min_dist
                  default_max_dist false (mkSceneRec "s1") (Demo.sample_of "l1") "l1" Demo.l1
                  [Demo.l1; Demo.l2; Demo.l3]
                  demo_channel (demo_scene Demo.l3) (demo_sample Demo.l3) demo_start
                  (demo_l1 Demo.l3) eq_refl (le_n 3)) as H.
    cbv zeta in H. destruct H as [_ H].
    destruct (H (demo_frames_ok _ _ (or_introl eq_refl) (or_introl eq_refl))) as [Hchain _].
    unfold Demo.run. rewrite (Hchain demo_chain). reflexivity.
  - pose proof (scene_traversal Demo.rotation_matrix Demo.files 3 (Some Demo.store)
                  Demo.explorer_broken Demo.out_path "scene-1" "LIDAR_TOP" default_min_dist
                  default_max_dist false (mkSceneRec "s1") (Demo.sample_of "l1") "l1" Demo.l1
                  [Demo.l1; Demo.l2; Demo.l3_broken]
                  demo_channel (demo_scene Demo.l3_broken) (demo_sample Demo.l3_broken)
                  demo_start (demo_l1 Demo.l3_broken) eq_refl (le_n 3)) as H.
    cbv zeta in H. destruct H as [_ H].
    destruct (H (demo_frames_ok _ _ (or_intror eq_refl) (or_intror eq_refl))) as [_ Hd].
    unfold Demo.run. rewrite (Hd "l4"%string demo_dangling). reflexivity.
Defined.

(** The second point of the demo is projected on pixel (0, 0): no camera
    sees it, its entry is the sentinel and emission skips it. *)
Lemma uncolored_points_demo :
  Demo.coloring1 !! 1%nat = Some no_color /\ emitted (Demo.vec 1 2 8, no_color) = None.
Proof.
  split; [reflexivity |].
  destruct (proj1 (proj2 (uncolored_points_are_skipped Demo.rotation_matrix Demo.files))
              (Some Demo.store) (Demo.sample_of "l1") "l1"%string Demo.cloud Demo.coloring1
              1%nat no_color demo_colors1 eq_refl) as [Hunseen _].
  destruct (Hunseen demo_point1_unseen) as [_ He]. apply He.
Defined.

(** A camera channel is no primary channel: nothing happens but the error. *)
Lemma unknown_channel_demo :
  Demo.run 3 (Some Demo.store) Demo.explorer "CAM_FRONT" =
  ([], Raise (AssertionError "Input channel CAM_FRONT not valid.")).
Proof.
  apply (proj1 (unknown_channel_fails_first Demo.rotation_matrix Demo.files 3
                  (Some Demo.store) Demo.explorer Demo.out_path "scene-1" "CAM_FRONT"
                  default_min_dist default_max_dist false)).
  intros Hin. apply list_elem_of_In in Hin. simpl in Hin.
  repeat (destruct Hin as [Hin | Hin]; [discriminate |]). exact Hin.
Defined.

(** The file of the demo: of the six points of each of the two sweeps that
    have points, the three that are seen and within range. *)
Example demo_file :
  file_content (trace (Demo.run 3 (Some Demo.store) Demo.explorer "LIDAR_TOP")) =
  Some ("OBJ File:" ++ nl
        ++ "v 11.00000000 12.00000000 8.00000000 0.5020 0.2510 0.1255" ++ nl
        ++ "v 3.00000000 4.00000000 4.00000000 0.5020 0.2510 0.1255" ++ nl
        ++ "v 21.00000000 22.00000000 13.00000000 0.5020 0.2510 0.1255" ++ nl
        ++ "v 11.00000000 12.00000000 8.00000000 0.5020 0.2510 0.1255" ++ nl
        ++ "v 3.00000000 4.00000000 4.00000000 0.5020 0.2510 0.1255" ++ nl
        ++ "v 21.00000000 22.00000000 13.00000000 0.5020 0.2510 0.1255" ++ nl)%string.
Proof. vm_compute. reflexivity. Qed.

(** The file of the demo begins with the header, and the lines of its three
    frames follow, in order. *)
Lemma obj_file_demo :
  let frame r := written (trace (process_frame Demo.rotation_matrix Demo.files
                                   (Some Demo.store) Demo.explorer
                                   default_min_dist default_max_dist false r)) in
  written (trace (Demo.run 3 (Some Demo.store) Demo.explorer "LIDAR_TOP"))
    = ("OBJ File:" ++ nl)%string :: (frame Demo.l1 ++ frame Demo.l2 ++ frame Demo.l3 ++ []).
Proof.
  exact (proj2 (proj1 (obj_file_format Demo.rotation_matrix Demo.files) 3%nat
                  (Some Demo.store) Demo.explorer Demo.out_path "scene-1"%string
                  "LIDAR_TOP"%string default_min_dist default_max_dist false
                  (mkSceneRec "s1") (Demo.sample_of "l1") "l1"%string Demo.l1
                  demo_channel (demo_scene Demo.l3) (demo_sample Demo.l3) demo_start
                  (demo_l1 Demo.l3) eq_refl)
           [Demo.l1; Demo.l2; Demo.l3] demo_chain (le_n 3)
           (demo_frames_ok _ _ (or_introl eq_refl) (or_introl eq_refl))).
Defined.

(** The first point of the demo, projected on (2, 2) in a 5 x 5 picture. *)
Lemma sampled_pixel_demo :
  let u := fst (project Demo.k_id (Demo.vec 10 10 5)) in
  let v := snd (project Demo.k_id (Demo.vec 10 10 5)) in
  let x := F64.astype_int32 (F64.rint u) in
  let y := F64.astype_int32 (F64.rint v) in
  (x = 2 /\ y = 2) /\
  im_data_get (Demo.plain x80 x40 x20) y x = Some (mkPixel x80 x40 x20).
Proof.
  split; [split; vm_compute; reflexivity |].
  destruct (proj1 (sampled_pixel_in_bounds Demo.rotation_matrix Demo.files)
              (Demo.plain x80 x40 x20) Demo.k_id (Demo.vec 10 10 5) (Demo.f 5))
    as (_ & _ & Hget & _).
  - repeat split; vm_compute; reflexivity.
  - exact Hget.
Defined.

(** ** The global name *)

(** C10. The colours of [export_scene_pointcloud] come from the record store
    bound to the global name [nusc], not from its [explorer] argument: two
    calls with the same arguments and different bindings of the name write
    different files; and with the name unbound no call completes, no vertex
    line is ever written, and a call that gets to the first camera of the
    first frame stops there with a NameError. *)
Theorem global_nusc_is_read :
  (exists (rotation_matrix : Quaternion -> Mat3) (fs : FileSystem) (fuel : nat)
          (explorer : NuScenesExplorer) (out_path scene_token channel : string)
          (min_dist max_dist : float) (verbose : bool) (nusc1 nusc2 : NuScenes),
     written (trace (export_scene_pointcloud rotation_matrix fs fuel (Some nusc1) explorer
                       out_path scene_token channel min_dist max_dist verbose)) <>
     written (trace (export_scene_pointcloud rotation_matrix fs fuel (Some nusc2) explorer
                       out_path scene_token channel min_dist max_dist verbose))) /\
  (forall (rotation_matrix : Quaternion -> Mat3) (fs : FileSystem) (fuel : nat)
          (explorer : NuScenesExplorer) (out_path scene_token channel : string)
          (min_dist max_dist : float) (verbose : bool),
     let run := export_scene_pointcloud rotation_matrix fs fuel None explorer out_path
                  scene_token channel min_dist max_dist verbose in
     (forall n, result run <> Return n) /\
     (written (trace run) = [] \/ written (trace run) = [obj_header])) /\
  (forall (rotation_matrix : Quaternion -> Mat3) (fs : FileSystem) (fuel : nat)
          (explorer : NuScenesExplorer) (out_path scene_token channel : string)
          (min_dist max_dist : float) (verbose : bool)
          (scene_rec : SceneRec) (start_sample_rec : SampleRec) (start_token : string)
          (sd_rec : SampleDataRec) (sample_rec : SampleRec) (lidar_rec : SampleDataRec)
          (pc : PointCloud) (camera_token : string),
     channel ∈ valid_channels ->
     scene (nusc explorer) !! scene_token = Some scene_rec ->
     sample (nusc explorer) !! first_sample_token scene_rec = Some start_sample_rec ->
     data start_sample_rec !! channel = Some start_token ->
     sample_data (nusc explorer) !! start_token = Some sd_rec ->
     writable fs out_path = true ->
     sample (nusc explorer) !! sd_sample_token sd_rec = Some sample_rec ->
     sample_data (nusc explorer) !! sd_token sd_rec = Some lidar_rec ->
     pointcloud_files fs !! osp_join (dataroot (nusc explorer)) (sd_filename lidar_rec)
       = Some pc ->
     data sample_rec !! "CAM_FRONT_LEFT"%string = Some camera_token ->
     let run := export_scene_pointcloud rotation_matrix fs (S fuel) None explorer out_path
                  scene_token channel min_dist max_dist verbose in
     result run = Raise (NameError "nusc") /\ written (trace run) = [obj_header]).
Proof.
  split; [| split].
  - exists Demo.rotation_matrix, Demo.files, 3%nat, Demo.explorer, Demo.out_path,
      "scene-1"%string, "LIDAR_TOP"%string, default_min_dist, default_max_dist, false,
      Demo.store, Demo.store_alt.
    intros H. vm_compute in H. discriminate.
  - intros. apply export_unbound_fails.
  - intros. eapply export_unbound_NameError; eassumption.
Qed.

(** The demo with the name unbound. *)
Lemma global_nusc_demo :
  result (Demo.run 1 None Demo.explorer "LIDAR_TOP") = Raise (NameError "nusc") /\
  written (trace (Demo.run 1 None Demo.explorer "LIDAR_TOP")) = [obj_header].
Proof.
  exact (proj2 (proj2 global_nusc_is_read) Demo.rotation_matrix Demo.files 0%nat Demo.explorer
           Demo.out_path "scene-1"%string "LIDAR_TOP"%string default_min_dist default_max_dist
           false (mkSceneRec "s1") (Demo.sample_of "l1") "l1"%string Demo.l1
           (Demo.sample_of "l1") Demo.l1 Demo.cloud "cam_fl"%string
           demo_channel (demo_scene Demo.l3) (demo_sample Demo.l3) demo_start (demo_l1 Demo.l3)
           eq_refl (demo_sample Demo.l3) (demo_l1 Demo.l3) demo_cloud demo_cam_front_left).
Defined.

(** * Further properties of the script *)

Lemma bind_Raise_inv {A B : Type} (m : M A) (k : A -> M B) (e : exn) :
  result (bind m k) = Raise e ->
  result m = Raise e \/ exists a, result m = Return a /\ result (k a) = Raise e.
Proof.
  destruct m as [tr [a | e' | ]]; simpl.
  - intros H. right. exists a. split; [reflexivity |]. destruct (k a). exact H.
  - intros H. left. injection H as ->. reflexivity.
  - discriminate.
Qed.

(** ** Events of one kind *)

Lemma filter_trace_bind {A B : Type} (p : event -> bool) (m : M A) (k : A -> M B) :
  List.filter p (trace (bind m k)) =
  List.filter p (trace m) ++ match result m with
                             | Return a => List.filter p (trace (k a))
                             | _ => []
                             end.
Proof. rewrite trace_bind, List.filter_app. destruct (result m); reflexivity. Qed.

Lemma never_bind {A B : Type} (p : event -> bool) (m : M A) (k : A -> M B) :
  never p m -> (forall a, never p (k a)) -> never p (bind m k).
Proof.
  unfold never. intros Hm Hk. rewrite filter_trace_bind, Hm.
  destruct (result m); trivial. apply Hk.
Qed.

Lemma never_ret {A : Type} (p : event -> bool) (a : A) : never p (ret a).
Proof. reflexivity. Qed.

Lemma never_raise {A : Type} (p : event -> bool) (e : exn) : never p (@raise A e).
Proof. reflexivity. Qed.

Lemma never_unfinished {A : Type} (p : event -> bool) : never p (@unfinished A).
Proof. reflexivity. Qed.

Lemma never_emit (p : event -> bool) (ev : event) : p ev = false -> never p (emit ev).
Proof. unfold never. simpl. intros ->. reflexivity. Qed.

Lemma never_mapM {A B : Type} (p : event -> bool) (f : A -> M B) (l : list A) :
  (forall x, never p (f x)) -> never p (mapM f l).
Proof.
  intros Hf. induction l as [| x l IH]; simpl.
  - apply never_ret.
  - apply never_bind; [apply Hf |]. intros y. apply never_bind; [exact IH |].
    intros ys. apply never_ret.
Qed.

Lemma never_foldM {A B : Type} (p : event -> bool) (f : A -> B -> M A) (a : A) (l : list B) :
  (forall a x, never p (f a x)) -> never p (foldM f a l).
Proof.
  intros Hf. revert a. induction l as [| x l IH]; intros a; simpl.
  - apply never_ret.
  - apply never_bind; [apply Hf |]. intros a'. apply IH.
Qed.

Lemma never_forM_ {A : Type} (p : event -> bool) (l : list A) (f : A -> M unit) :
  (forall x, never p (f x)) -> never p (forM_ l f).
Proof.
  intros Hf. induction l as [| x l IH]; simpl.
  - apply never_ret.
  - apply never_bind; [apply Hf |]. intros _. exact IH.
Qed.

Ltac never_tac :=
  repeat first
    [ apply never_ret
    | apply never_raise
    | apply never_unfinished
    | apply never_emit; reflexivity
    | apply never_bind; [| intros ?]
    | apply never_mapM; intros ?
    | apply never_foldM; intros ? ?
    | apply never_forM_; intros ?
    | match goal with
      | |- never _ (match ?x with _ => _ end) => destruct x
      | |- never _ (if ?x then _ else _) => destruct x
      end ].

Lemma unprinted_app (tr1 tr2 : list event) :
  unprinted (tr1 ++ tr2) = unprinted tr1 ++ unprinted tr2.
Proof. apply List.filter_app. Qed.

Lemma written_unprinted (tr : list event) : written (unprinted tr) = written tr.
Proof. induction tr as [| [] tr IH]; simpl; congruence. Qed.

Lemma file_opened_unprinted (tr : list event) : file_opened (unprinted tr) = file_opened tr.
Proof. unfold file_opened. induction tr as [| [] tr IH]; simpl; congruence. Qed.

Lemma unprinted_never (tr : list event) : List.filter is_print tr = [] -> unprinted tr = tr.
Proof.
  unfold unprinted. induction tr as [| ev tr IH]; simpl; trivial.
  destruct (is_print ev); simpl; [discriminate |]. intros H. rewrite IH; trivial.
Qed.

Lemma same_but_prints_refl {A : Type} (m : M A) : same_but_prints m m.
Proof. split; reflexivity. Qed.

Lemma same_but_prints_bind {A B : Type} (m1 m2 : M A) (k1 k2 : A -> M B) :
  same_but_prints m1 m2 -> (forall a, same_but_prints (k1 a) (k2 a)) ->
  same_but_prints (bind m1 k1) (bind m2 k2).
Proof.
  intros [Hr Ht] Hk. split.
  - rewrite !result_bind, Hr. destruct (result m2); trivial. apply Hk.
  - rewrite !trace_bind, !unprinted_app, Ht, Hr. destruct (result m2); trivial.
    f_equal. apply Hk.
Qed.

Lemma same_but_prints_when (b1 b2 : bool) (s : string) :
  same_but_prints (when b1 (print s)) (when b2 (print s)).
Proof. destruct b1, b2; split; reflexivity. Qed.

(** ** The distance of a point *)

Lemma binary_round_aux_not_negative (mx ex : Z) (lx : location) :
  0 <= mx -> not_negative (binary_round_aux F64.prec F64.emax false mx ex lx) = true.
Proof.
  intros Hm. unfold binary_round_aux.
  pose proof (shr_fexp_bound mx ex lx Hm) as [H1 _].
  destruct (shr_fexp F64.prec F64.emax mx ex lx) as [mrs' e'] eqn:E1. cbn [fst] in H1.
  pose proof (shr_fexp_bound (round_nearest_even (shr_m mrs') (loc_of_shr_record mrs')) e'
                loc_Exact (round_nearest_even_nonneg _ _ H1)) as [H2 _].
  destruct (shr_fexp F64.prec F64.emax _ e' loc_Exact) as [mrs'' e''] eqn:E2. cbn [fst] in H2.
  destruct (shr_m mrs'') as [| p | p]; [reflexivity | | lia].
  destruct (e'' <=? F64.emax - F64.prec); reflexivity.
Qed.

Lemma square_not_negative (x : float) :
  is_nan (F64.mul x x) = is_nan x /\
  (is_nan x = false -> not_negative (F64.mul x x) = true).
Proof.
  destruct x as [s | s | | s m e]; cbn [F64.mul SFmul is_nan].
  - split; [reflexivity |]. intros _. destruct s; reflexivity.
  - split; [reflexivity |]. intros _. destruct s; reflexivity.
  - split; [reflexivity | discriminate].
  - assert (H : not_negative (binary_round_aux F64.prec F64.emax (xorb s s) (Z.pos (m * m))
                                (e + e) loc_Exact) = true).
    { rewrite xorb_nilpotent. apply binary_round_aux_not_negative. lia. }
    split; [| intros _; exact H].
    destruct (binary_round_aux _ _ _ _ _ _); try reflexivity; discriminate.
Qed.

Lemma add_not_negative (a b : float) :
  not_negative a = true -> not_negative b = true -> not_negative (F64.add a b) = true.
Proof.
  destruct a as [[|] | [|] | | [|] ma ea], b as [[|] | [|] | | [|] mb eb];
    try discriminate; intros _ _; try reflexivity.
  cbn [F64.add SFadd cond_Zopp]. unfold binary_normalize.
  set (ez := Z.min ea eb).
  destruct (Z.pos (fst (shl_align ma ea ez)) + Z.pos (fst (shl_align mb eb ez))) as [| p | p] eqn:E;
    try lia.
  unfold binary_round. destruct (shl_align p ez _) as [mz ez'].
  apply binary_round_aux_not_negative. lia.
Qed.

Lemma add_nan (a b : float) :
  is_nan a = true \/ is_nan b = true -> is_nan (F64.add a b) = true.
Proof.
  intros [H | H]; [destruct a | destruct b]; try discriminate; [reflexivity |].
  destruct a; reflexivity.
Qed.

Lemma sqrt_not_negative (a : float) :
  not_negative a = true -> not_negative (F64.sqrt a) = true.
Proof.
  destruct a as [[|] | [|] | | [|] m e]; try discriminate; intros _; try reflexivity.
  cbn [F64.sqrt SFsqrt]. unfold SFsqrt_core_binary.
  set (e' := Z.min _ _). set (s := e - 2 * e').
  set (m' := match s with Z.pos _ => Z.shiftl (Z.pos m) s | 0 => Z.pos m | Z.neg _ => 0 end).
  assert (Hm' : 0 <= m').
  { unfold m'. destruct s; try lia. apply Z.shiftl_nonneg. lia. }
  pose proof (Z.sqrtrem_spec m' Hm') as Hs.
  destruct (Z.sqrtrem m') as [q r].
  apply binary_round_aux_not_negative. lia.
Qed.

Lemma not_negative_not_nan (x : float) : not_negative x = true -> is_nan x = false.
Proof. destruct x as [[|] | [|] | | [|] m e]; try discriminate; reflexivity. Qed.

(** The distance is NaN when a coordinate is, and a number that is not
    negative otherwise. *)
Lemma distance_nan (v : Vec3) :
  is_nan (distance_from_origin v) = has_nan v /\
  (has_nan v = false -> not_negative (distance_from_origin v) = true).
Proof.
  unfold distance_from_origin, has_nan.
  destruct (square_not_negative (v0 v)) as [E0 N0].
  destruct (square_not_negative (v1 v)) as [E1 N1].
  destruct (square_not_negative (v2 v)) as [E2 N2].
  destruct (is_nan (v0 v)) eqn:H0.
  { split; [| discriminate]. cbn [orb].
    assert (H : is_nan (F64.add (F64.add (F64.mul (v0 v) (v0 v)) (F64.mul (v1 v) (v1 v)))
                          (F64.mul (v2 v) (v2 v))) = true) by auto using add_nan.
    destruct (F64.add _ _); try discriminate. reflexivity. }
  destruct (is_nan (v1 v)) eqn:H1.
  { split; [| discriminate]. cbn [orb].
    assert (H : is_nan (F64.add (F64.add (F64.mul (v0 v) (v0 v)) (F64.mul (v1 v) (v1 v)))
                          (F64.mul (v2 v) (v2 v))) = true) by auto using add_nan.
    destruct (F64.add _ _); try discriminate. reflexivity. }
  destruct (is_nan (v2 v)) eqn:H2.
  { split; [| discriminate]. cbn [orb].
    assert (H : is_nan (F64.add (F64.add (F64.mul (v0 v) (v0 v)) (F64.mul (v1 v) (v1 v)))
                          (F64.mul (v2 v) (v2 v))) = true) by auto using add_nan.
    destruct (F64.add _ _); try discriminate. reflexivity. }
  cbn [orb].
  assert (H : not_negative (distance_from_origin v) = true).
  { unfold distance_from_origin. auto using sqrt_not_negative, add_not_negative. }
  unfold distance_from_origin in H. split; [| intros _; exact H].
  apply not_negative_not_nan. exact H.
Qed.

Lemma in_range_nan (min_dist max_dist d : float) :
  is_nan d = true -> in_range min_dist max_dist d = false.
Proof.
  destruct d; try discriminate. intros _. unfold in_range, F64.leb, SFleb.
  destruct min_dist; reflexivity.
Qed.

Lemma in_range_everything (d : float) :
  not_negative d = true -> in_range (F64.of_Z 0) float_inf d = true.
Proof. destruct d as [[|] | [|] | | [|] m e]; try discriminate; reflexivity. Qed.

(** X9. The distance filter and NaN.  The distance of a point is a number
    that is not negative unless one of its coordinates is NaN.  So with the
    bounds 0 and infinity the filter keeps exactly the points without a NaN
    coordinate; and a point with a NaN coordinate is dropped whatever the
    bounds are. *)
Theorem distance_filter_and_nan :
  (forall pc : PointCloud,
     distance_keep (F64.of_Z 0) float_inf pc = map (fun p => negb (has_nan (xyz p))) pc) /\
  (forall (min_dist max_dist : float) (pc : PointCloud) (i : nat) (p : Point),
     pc !! i = Some p -> has_nan (xyz p) = true ->
     distance_keep min_dist max_dist pc !! i = Some false) /\
  (forall p : Point,
     has_nan (xyz p) = false -> not_negative (distance_from_origin (xyz p)) = true).
Proof.
  split; [| split].
  - intros pc. rewrite distance_keep_pointwise. apply map_ext. intros p.
    destruct (distance_nan (xyz p)) as [E N].
    destruct (has_nan (xyz p)); cbn [negb].
    + apply in_range_nan. exact E.
    + apply in_range_everything. auto.
  - intros min_dist max_dist pc i p Hp Hn.
    rewrite distance_keep_pointwise, lookup_map, Hp. cbn. f_equal.
    apply in_range_nan. destruct (distance_nan (xyz p)) as [E _]. congruence.
  - intros p Hn. apply distance_nan. exact Hn.
Qed.

(** ** Images too small for the margin *)

Lemma of_Z_one : F64.of_Z 1 = S754_finite false 4503599627370496 (-52).
Proof. vm_compute. reflexivity. Qed.
Lemma of_Z_zero : F64.of_Z 0 = S754_zero false.
Proof. vm_compute. reflexivity. Qed.
Lemma of_Z_minus_one : F64.of_Z (-1) = S754_finite true 4503599627370496 (-52).
Proof. vm_compute. reflexivity. Qed.

Lemma ltb_asym_positive (c : positive) (k : Z) (m : positive) (e : Z) :
  F64.ltb (S754_finite false c k) (S754_finite false m e) = true ->
  F64.ltb (S754_finite false m e) (S754_finite false c k) = false.
Proof.
  unfold F64.ltb, SFltb, SFcompare. rewrite (Z.compare_antisym k e).
  change (Pos.compare_cont Eq m c) with (m ?= c)%positive.
  change (Pos.compare_cont Eq c m) with (c ?= m)%positive.
  rewrite (Pos.compare_antisym c m).
  destruct (k ?= e); destruct (c ?= m)%positive; simpl; intros H; try discriminate; reflexivity.
Qed.

Lemma no_room_in_margin (u : float) (n : N) :
  (n <= 2)%N -> F64.ltb (F64.of_Z 1) u = true -> F64.ltb u (F64.of_Z (Z.of_N n - 1)) = false.
Proof.
  intros Hn.
  assert (Hz : Z.of_N n - 1 = -1 \/ Z.of_N n - 1 = 0 \/ Z.of_N n - 1 = 1) by lia.
  clear Hn. rewrite of_Z_one.
  destruct Hz as [-> | [-> | ->]]; rewrite ?of_Z_minus_one, ?of_Z_zero, ?of_Z_one;
    destruct u as [s | s | | s m e]; try discriminate;
    destruct s; try discriminate; try reflexivity.
  apply ltb_asym_positive.
Qed.

Lemma count_true_none (mask : list bool) :
  (forall i, mask !! i <> Some true) -> count_true mask = O.
Proof.
  induction mask as [| b mask IH]; intros H; [reflexivity |].
  destruct b; [exfalso; apply (H O); reflexivity |].
  simpl. apply IH. intros i. apply (H (S i)).
Qed.

Section MoreProperties.

Variable rotation_matrix : Quaternion -> Mat3.
Variable fs : FileSystem.

Ltac bind_inv' H :=
  let a := fresh "a" in
  let Ha := fresh "Ha" in
  apply bind_Return_inv in H as (a & Ha & H).

(** What a successful [camera_frame] read. *)
Lemma camera_frame_inv (nusc : NuScenes) (pointsensor_token camera_token : string)
    (im : Image) (cs_record : CalibratedSensorRec) (pc : PointCloud) :
  result (camera_frame rotation_matrix fs nusc pointsensor_token camera_token)
    = Return (im, cs_record, pc) ->
  exists (cam pointsensor : SampleDataRec) (pc0 : PointCloud),
    sample_data nusc !! camera_token = Some cam /\
    sample_data nusc !! pointsensor_token = Some pointsensor /\
    pointcloud_files fs !! osp_join (dataroot nusc) (sd_filename pointsensor) = Some pc0 /\
    image_files fs !! osp_join (dataroot nusc) (sd_filename cam) = Some im /\
    calibrated_sensor nusc !! sd_calibrated_sensor_token cam = Some cs_record /\
    length pc = length pc0.
Proof.
  unfold camera_frame. intros H.
  bind_inv' H. apply nusc_get_Return in Ha.
  bind_inv' H. apply nusc_get_Return in Ha0.
  bind_inv' H. apply PointCloud_from_file_Return in Ha1.
  bind_inv' H. apply Image_open_Return in Ha2.
  bind_inv' H. bind_inv' H. bind_inv' H.
  bind_inv' H. apply nusc_get_Return in Ha6.
  simpl in H. injection H as -> -> <-.
  exists a, a0, a1. repeat (split; [assumption |]).
  unfold rotate, translate. rewrite !length_map. reflexivity.
Qed.

(** The colour a masked-in point of the camera frame is given. *)
Lemma masked_point_color (im : Image) (intrinsic : Mat3) (pc : PointCloud)
    (coloring : list Vec3) (i : nat) (q : Point) :
  let points := view_points (map xyz pc) intrinsic true in
  let mask := camera_mask im (map (fun p => v2 (xyz p)) pc) points in
  result (mapM (pick_color im) (compress mask points)) = Return coloring ->
  pc !! i = Some q -> mask !! i = Some true ->
  let u := fst (project intrinsic (xyz q)) in
  let v := snd (project intrinsic (xyz q)) in
  coloring !! rank mask i =
    Some (pixel_to_color (im_data im (F64.astype_int32 (F64.rint v))
                                     (F64.astype_int32 (F64.rint u)))).
Proof.
  intros points mask Hc Hq Hm u v.
  assert (Hp : points !! i = Some (mkVec3 u v (F64.of_Z 1))).
  { unfold points. apply view_points_lookup. rewrite lookup_map, Hq. reflexivity. }
  destruct (mapM_result_inv _ _ _ Hc) as [_ Hall].
  destruct (Hall _ _ (compress_lookup _ _ _ _ Hm Hp)) as (y & Hy & Hr).
  rewrite Hy. f_equal.
  destruct (camera_mask_of_frame im intrinsic pc i q Hq) as [Hv _]. cbv zeta in Hv.
  apply Hv in Hm. destruct Hm as (_ & (Hu1 & Hu2) & Hv1 & Hv2).
  destruct (pick_color_in_bounds im (mkVec3 u v (F64.of_Z 1))) as (_ & _ & _ & Hpick);
    cbn [v0 v1]; trivial; try apply div_bounded.
  rewrite Hpick in Hr. cbn [v0 v1] in Hr. simpl in Hr. congruence.
Qed.

(** X1. What [pointcloud_color_from_image] returns is what its docstring
    announces: a mask with one entry for every point of the file of the point
    sensor, and one colour for every selected point, n colours for a mask
    that holds n times.  The colour of a selected point is the pixel of the
    camera's image at row round(v) and column round(u), (u, v) being the
    projection of the point taken to the camera frame; it stands among the
    colours at the rank the point has among the selected ones. *)
Theorem pointcloud_color_from_image_pixels (nusc : NuScenes)
    (pointsensor_token camera_token : string) (coloring : list Vec3) (mask : list bool) :
  result (pointcloud_color_from_image rotation_matrix fs nusc pointsensor_token camera_token)
    = Return (coloring, mask) ->
  exists (cam pointsensor : SampleDataRec) (pc0 : PointCloud) (im : Image)
         (cs_record : CalibratedSensorRec) (intrinsic : Mat3) (pc : PointCloud),
    sample_data nusc !! camera_token = Some cam /\
    sample_data nusc !! pointsensor_token = Some pointsensor /\
    pointcloud_files fs !! osp_join (dataroot nusc) (sd_filename pointsensor) = Some pc0 /\
    image_files fs !! osp_join (dataroot nusc) (sd_filename cam) = Some im /\
    calibrated_sensor nusc !! sd_calibrated_sensor_token cam = Some cs_record /\
    cs_camera_intrinsic cs_record = Some intrinsic /\
    result (camera_frame rotation_matrix fs nusc pointsensor_token camera_token)
      = Return (im, cs_record, pc) /\
    length mask = length pc0 /\
    length coloring = count_true mask /\
    forall (i : nat) (q : Point),
      pc !! i = Some q -> mask !! i = Some true ->
      let u := fst (project intrinsic (xyz q)) in
      let v := snd (project intrinsic (xyz q)) in
      coloring !! rank mask i =
        Some (pixel_to_color (im_data im (F64.astype_int32 (F64.rint v))
                                         (F64.astype_int32 (F64.rint u)))).
Proof.
  intros H.
  destruct (pointcloud_color_from_image_inv _ _ _ _ _ _ _ H)
    as (im & cs & pc & k & Hframe & Hk & Hmask & Hc).
  destruct (camera_frame_inv _ _ _ _ _ _ Hframe)
    as (cam & ps & pc0 & Hcam & Hps & Hpc0 & Him & Hcs & Hlen).
  exists cam, ps, pc0, im, cs, k, pc. do 7 (split; [assumption |]).
  assert (Hl : length mask = length pc).
  { rewrite Hmask. apply camera_mask_frame_length. }
  split; [congruence |]. split.
  - destruct (mapM_result_inv _ _ _ Hc) as [-> _].
    apply compress_length. rewrite Hl, view_points_length, length_map. reflexivity.
  - intros i q Hq Hm. subst mask. apply masked_point_color; assumption.
Qed.

(** ** The exceptions of the export *)

Lemma nusc_get_Raise {A : Type} (table : string) (rows : gmap string A) (token : string)
    (e : exn) :
  result (nusc_get table rows token) = Raise e -> e = KeyError token.
Proof. rewrite nusc_get_result. destruct (rows !! token); congruence. Qed.

Lemma PointCloud_from_file_Raise (path : string) (e : exn) :
  result (PointCloud_from_file fs path) = Raise e -> e = FileNotFoundError path.
Proof. rewrite PointCloud_from_file_result. destruct (pointcloud_files fs !! path); congruence. Qed.

Lemma Image_open_Raise (path : string) (e : exn) :
  result (Image_open fs path) = Raise e -> e = FileNotFoundError path.
Proof. rewrite Image_open_result. destruct (image_files fs !! path); congruence. Qed.

Ltac raise_inv H :=
  let a := fresh "a" in
  let Ha := fresh "Ha" in
  apply bind_Raise_inv in H as [H | (a & Ha & H)].

Ltac lookup_failure H :=
  first [ apply nusc_get_Raise in H; left; eexists; exact H
        | apply PointCloud_from_file_Raise in H; right; left; eexists; exact H
        | apply Image_open_Raise in H; right; left; eexists; exact H ].

Lemma camera_frame_Raise (g : option NuScenes) (explorer : NuScenesExplorer) (store : NuScenes)
    (pointsensor_token camera_token : string) (e : exn) :
  result (camera_frame rotation_matrix fs store pointsensor_token camera_token) = Raise e ->
  frame_error g explorer e.
Proof.
  unfold camera_frame, frame_error. intros H.
  do 8 (raise_inv H; [lookup_failure H |]). discriminate.
Qed.

(** Once the cloud is in the camera frame and the camera has its matrix,
    the colours are read without failure. *)
Lemma pointcloud_color_from_image_returns (store : NuScenes)
    (pointsensor_token camera_token : string)
    (im : Image) (cs_record : CalibratedSensorRec) (pc : PointCloud) (intrinsic : Mat3) :
  result (camera_frame rotation_matrix fs store pointsensor_token camera_token)
    = Return (im, cs_record, pc) ->
  cs_camera_intrinsic cs_record = Some intrinsic ->
  exists (coloring : list Vec3) (mask : list bool),
    result (pointcloud_color_from_image rotation_matrix fs store pointsensor_token camera_token)
      = Return (coloring, mask).
Proof.
  intros Hframe Hk. unfold pointcloud_color_from_image.
  rewrite (bind_Return _ _ (im, cs_record, pc) Hframe).
  rewrite (bind_Return _ _ (map (fun p => v2 (xyz p)) pc,
                            view_points (map xyz pc) intrinsic true))
    by (unfold take_picture; rewrite Hk; reflexivity).
  set (points := view_points (map xyz pc) intrinsic true).
  set (depths := map (fun p => v2 (xyz p)) pc).
  destruct (mapM_total (pick_color im) (compress (camera_mask im depths points) points))
    as [coloring Hc].
  - intros j x Hj.
    destruct (compress_lookup_inv _ _ _ _ Hj) as (i & Hm & Hp & _).
    assert (Hl : (i < length pc)%nat).
    { rewrite <- (length_map xyz pc), <- (view_points_length (map xyz pc) intrinsic true).
      eapply lookup_lt_Some. exact Hp. }
    destruct (lookup_lt_is_Some_2 _ _ Hl) as [q Hq].
    destruct (camera_mask_of_frame im intrinsic pc i q Hq) as [Hv _]. cbv zeta in Hv.
    apply Hv in Hm. destruct Hm as (_ & (Hu1 & Hu2) & Hv1 & Hv2).
    unfold points in Hp.
    rewrite (view_points_lookup (map xyz pc) intrinsic i (xyz q)) in Hp
      by (rewrite lookup_map, Hq; reflexivity).
    assert (Hx : x = mkVec3 (fst (project intrinsic (xyz q))) (snd (project intrinsic (xyz q)))
                            (F64.of_Z 1)) by congruence.
    subst x.
    destruct (pick_color_in_bounds im
                (mkVec3 (fst (project intrinsic (xyz q))) (snd (project intrinsic (xyz q)))
                        (F64.of_Z 1)))
      as (_ & _ & _ & ->); cbn [v0 v1]; trivial; try apply div_bounded.
    eexists. reflexivity.
  - exists coloring, (camera_mask im depths points).
    rewrite (bind_Return _ _ coloring Hc). reflexivity.
Qed.

Lemma pointcloud_color_from_image_Raise (explorer : NuScenesExplorer) (store : NuScenes)
    (pointsensor_token camera_token : string) (e : exn) :
  result (pointcloud_color_from_image rotation_matrix fs store pointsensor_token camera_token)
    = Raise e ->
  frame_error (Some store) explorer e.
Proof.
  intros H.
  destruct (result (camera_frame rotation_matrix fs store pointsensor_token camera_token))
    as [[[im cs] pc] | e' |] eqn:Hframe.
  - destruct (cs_camera_intrinsic cs) as [k |] eqn:Hk.
    + destruct (pointcloud_color_from_image_returns _ _ _ _ _ _ _ Hframe Hk) as (c & m & Hr).
      congruence.
    + unfold pointcloud_color_from_image in H.
      rewrite (bind_Return _ _ (im, cs, pc) Hframe) in H.
      raise_inv H.
      * unfold take_picture in H. rewrite Hk in H. simpl in H. injection H as <-.
        destruct (camera_frame_inv _ _ _ _ _ _ Hframe)
          as (cam & _ & _ & _ & _ & _ & _ & Hcs & _).
        right. right. right. split; [reflexivity |]. left.
        exists store, (sd_calibrated_sensor_token cam), cs. auto.
      * unfold take_picture in Ha. rewrite Hk in Ha. discriminate.
  - unfold pointcloud_color_from_image in H. rewrite result_bind, Hframe in H.
    injection H as <-. eapply camera_frame_Raise. exact Hframe.
  - unfold pointcloud_color_from_image in H. rewrite result_bind, Hframe in H. discriminate.
Qed.

Lemma camera_colors_Raise (g : option NuScenes) (explorer : NuScenesExplorer) (s : SampleRec)
    (lt ch : string) (e : exn) :
  result (camera_colors rotation_matrix fs g s lt ch) = Raise e -> frame_error g explorer e.
Proof.
  unfold camera_colors, dict_get, global_get. intros H.
  raise_inv H.
  { destruct (data s !! ch); try discriminate. injection H as <-. left. eauto. }
  raise_inv H.
  { destruct g; try discriminate. injection H as <-. right. right. left. auto. }
  destruct g as [store |]; try discriminate. injection Ha0 as <-.
  eapply pointcloud_color_from_image_Raise. exact H.
Qed.

(** The colours and the mask of a camera fit each other, and the mask fits
    the cloud of the point sensor in the global store. *)
Lemma camera_colors_shape (g : option NuScenes) (s : SampleRec) (lt ch : string)
    (coloring : list Vec3) (mask : list bool) :
  result (camera_colors rotation_matrix fs g s lt ch) = Return (coloring, mask) ->
  length coloring = count_true mask /\
  exists (store : NuScenes) (pointsensor : SampleDataRec) (pc0 : PointCloud),
    g = Some store /\ sample_data store !! lt = Some pointsensor /\
    pointcloud_files fs !! osp_join (dataroot store) (sd_filename pointsensor) = Some pc0 /\
    length mask = length pc0.
Proof.
  intros H. apply camera_colors_inv in H as (tok & store & _ & -> & H).
  destruct (pointcloud_color_from_image_inv _ _ _ _ _ _ _ H)
    as (im & cs & pc & k & Hframe & Hk & Hmask & Hc).
  destruct (camera_frame_inv _ _ _ _ _ _ Hframe)
    as (cam & ps & pc0 & Hcam & Hps & Hpc0 & Him & Hcs & Hlen).
  assert (Hl : length mask = length pc).
  { rewrite Hmask. apply camera_mask_frame_length. }
  split.
  - destruct (mapM_result_inv _ _ _ Hc) as [-> _].
    apply compress_length. rewrite Hl, view_points_length, length_map. reflexivity.
  - exists store, ps, pc0. repeat split; congruence.
Qed.

(** A turn of the colour loop fails with its camera, or on a mask that does
    not fit the buffer; never on the number of colours. *)
Lemma color_step_Raise (g : option NuScenes) (s : SampleRec) (lt : string)
    (a : list Vec3) (ch : string) (e : exn) :
  result (color_step rotation_matrix fs g s lt a ch) = Raise e ->
  result (camera_colors rotation_matrix fs g s lt ch) = Raise e \/
  (e = IndexError /\
   exists coloring mask,
     result (camera_colors rotation_matrix fs g s lt ch) = Return (coloring, mask) /\
     length mask <> length a).
Proof.
  unfold color_step. intros H. raise_inv H; [left; exact H |].
  destruct a0 as [col mask]. right.
  unfold setitem_mask in H.
  destruct (Nat.eqb_spec (length mask) (length a)) as [Heq | Hne]; cbn [negb] in H.
  - destruct (camera_colors_shape _ _ _ _ _ _ Ha) as [Hc _].
    destruct (mask_assign_total a mask col Heq Hc) as [a' Ha'].
    rewrite Ha' in H. discriminate.
  - injection H as <-. split; [reflexivity |]. exists col, mask. auto.
Qed.

Lemma color_loop_Raise (g : option NuScenes) (s : SampleRec) (lt : string)
    (chs : list string) (a : list Vec3) (e : exn) :
  result (foldM (color_step rotation_matrix fs g s lt) a chs) = Raise e ->
  exists ch,
    ch ∈ chs /\
    (result (camera_colors rotation_matrix fs g s lt ch) = Raise e \/
     (e = IndexError /\
      exists coloring mask,
        result (camera_colors rotation_matrix fs g s lt ch) = Return (coloring, mask) /\
        length mask <> length a)).
Proof.
  revert a. induction chs as [| ch chs IH]; intros a H; simpl in H; [discriminate |].
  raise_inv H.
  - exists ch. split; [apply elem_of_cons; auto |]. apply color_step_Raise. exact H.
  - destruct (color_step_inv _ _ _ _ _ _ _ _ Ha) as (_ & _ & Hlen & _).
    destruct (IH _ H) as (ch' & Hin & Hc). rewrite Hlen in Hc. exists ch'.
    split; [apply elem_of_cons; auto | exact Hc].
Qed.

Lemma process_frame_Raise (g : option NuScenes) (explorer : NuScenesExplorer)
    (min_dist max_dist : float) (verbose : bool) (sd_rec : SampleDataRec) (e : exn) :
  result (process_frame rotation_matrix fs g explorer min_dist max_dist verbose sd_rec)
    = Raise e ->
  frame_error g explorer e.
Proof.
  unfold process_frame. intros H.
  raise_inv H. { destruct verbose; discriminate. }
  raise_inv H. { unfold frame_error. lookup_failure H. }
  raise_inv H. { unfold frame_error. lookup_failure H. }
  raise_inv H. { unfold frame_error. lookup_failure H. }
  apply nusc_get_Return in Ha1. apply PointCloud_from_file_Return in Ha2.
  raise_inv H.
  { unfold point_cloud_colors in H. apply color_loop_Raise in H as (ch & _ & [H | (-> & c & m & H & Hne)]).
    - eapply camera_colors_Raise. exact H.
    - right. right. right. split; [reflexivity |]. right. intros ->.
      destruct (camera_colors_shape _ _ _ _ _ _ H) as (_ & store & ps & pc0 & Hg & Hps & Hf & Hl).
      injection Hg as <-. rewrite length_replicate in Hne. congruence. }
  raise_inv H. { unfold frame_error. lookup_failure H. }
  raise_inv H. { destruct verbose; discriminate. }
  raise_inv H. { unfold frame_error. lookup_failure H. }
  exfalso. revert H. unfold write_points.
  generalize (zip (map xyz
             (translate (ep_translation a6) (rotate (rotation_matrix (ep_rotation a6))
                (compress (distance_keep min_dist max_dist
                   (translate (cs_translation a4) (rotate (rotation_matrix (cs_rotation a4)) a2)))
                   (translate (cs_translation a4)
                      (rotate (rotation_matrix (cs_rotation a4)) a2))))))
             (compress (distance_keep min_dist max_dist
                   (translate (cs_translation a4) (rotate (rotation_matrix (cs_rotation a4)) a2)))
                a3)).
  intros l. induction l as [| [v c] l IH]; simpl; [discriminate |].
  intros H. raise_inv H; [destruct (any_minus_one c); discriminate | auto].
Qed.

Lemma frames_loop_Raise (fuel : nat) (g : option NuScenes) (explorer : NuScenesExplorer)
    (min_dist max_dist : float) (verbose : bool) (has_more_frames : bool)
    (sd_rec : SampleDataRec) (frame_ind : Z) (e : exn) :
  result (frames_loop rotation_matrix fs fuel g explorer min_dist max_dist verbose
            has_more_frames sd_rec frame_ind) = Raise e ->
  frame_error g explorer e.
Proof.
  revert has_more_frames sd_rec frame_ind.
  induction fuel as [| fuel IH]; intros [|] r ind H; cbn [frames_loop] in H; try discriminate.
  raise_inv H. { eapply process_frame_Raise. exact H. }
  raise_inv H.
  - destruct (negb (String.eqb (sd_next r) "")); [| discriminate].
    raise_inv H; [| discriminate]. unfold frame_error. lookup_failure H.
  - destruct a0 as [r' more]. eapply IH. exact H.
Qed.

Lemma export_scene_pointcloud_Raise (fuel : nat) (g : option NuScenes)
    (explorer : NuScenesExplorer) (out_path scene_token channel : string)
    (min_dist max_dist : float) (verbose : bool) (e : exn) :
  result (export_scene_pointcloud rotation_matrix fs fuel g explorer out_path scene_token
            channel min_dist max_dist verbose) = Raise e ->
  (e = AssertionError ("Input channel " ++ channel ++ " not valid.") /\
   channel ∉ valid_channels) \/
  e = PermissionError out_path \/
  frame_error g explorer e.
Proof.
  unfold export_scene_pointcloud. intros H.
  raise_inv H.
  { destruct (bool_decide_reflect (channel ∈ valid_channels)) as [| Hn]; [discriminate |].
    injection H as <-. left. auto. }
  right.
  raise_inv H. { right. left. apply nusc_get_Raise in H. eauto. }
  raise_inv H. { right. left. apply nusc_get_Raise in H. eauto. }
  raise_inv H.
  { unfold dict_get in H. destruct (data a1 !! channel); [discriminate |].
    injection H as <-. right. left. eauto. }
  raise_inv H. { right. left. apply nusc_get_Raise in H. eauto. }
  raise_inv H.
  { unfold open_w in H. destruct (writable fs out_path); [discriminate |].
    injection H as <-. left. reflexivity. }
  raise_inv H; [discriminate |].
  right. eapply frames_loop_Raise. exact H.
Qed.

(** X2. Where the colour loop fails.  What a camera returns always fits the
    assignment [coloring[:, cam_mask] = cam_coloring] in the number of
    colours; the assignment fails, with an IndexError, exactly on a mask
    that has not the length of the buffer.  When the global store is the
    store of the explorer every mask has that length: the colour loop then
    fails only where the colours of a camera, the token of the camera or the
    call of [pointcloud_color_from_image], fail, and with that exception.
    And of the exceptions of the export, the AssertionError is the one of
    the channel check, with its message, and the NameError is the one of the
    global name [nusc] left unbound. *)
Theorem colour_loop_fails_with_a_camera :
  (forall (g : option NuScenes) (s : SampleRec) (lt ch : string)
          (coloring : list Vec3) (mask : list bool) (a : list Vec3),
     result (camera_colors rotation_matrix fs g s lt ch) = Return (coloring, mask) ->
     length coloring = count_true mask /\
     (length mask = length a ->
        exists a', result (setitem_mask a mask coloring) = Return a' /\ length a' = length a) /\
     (length mask <> length a -> result (setitem_mask a mask coloring) = Raise IndexError)) /\
  (forall (explorer : NuScenesExplorer) (s : SampleRec) (sd_rec lidar_rec : SampleDataRec)
          (pc : PointCloud) (e : exn),
     sample_data (nusc explorer) !! sd_token sd_rec = Some lidar_rec ->
     pointcloud_files fs !! osp_join (dataroot (nusc explorer)) (sd_filename lidar_rec)
       = Some pc ->
     result (point_cloud_colors rotation_matrix fs (Some (nusc explorer)) s (sd_token sd_rec) pc)
       = Raise e ->
     exists ch, ch ∈ camera_channels /\
       result (camera_colors rotation_matrix fs (Some (nusc explorer)) s (sd_token sd_rec) ch)
         = Raise e) /\
  (forall (fuel : nat) (g : option NuScenes) (explorer : NuScenesExplorer)
          (out_path scene_token channel : string) (min_dist max_dist : float) (verbose : bool)
          (e : exn),
     result (export_scene_pointcloud rotation_matrix fs fuel g explorer out_path scene_token
               channel min_dist max_dist verbose) = Raise e ->
     (forall msg, e = AssertionError msg ->
        msg = ("Input channel " ++ channel ++ " not valid.")%string /\
        channel ∉ valid_channels) /\
     (forall name, e = NameError name -> g = None /\ name = "nusc"%string)).
Proof.
  split; [| split].
  - intros g s lt ch col mask a H.
    destruct (camera_colors_shape _ _ _ _ _ _ H) as [Hc _]. split; [exact Hc |].
    unfold setitem_mask. split.
    + intros Heq. rewrite Heq, Nat.eqb_refl. cbn [negb].
      destruct (mask_assign_total a mask col Heq Hc) as [a' Ha']. rewrite Ha'.
      exists a'. split; [reflexivity |].
      destruct (mask_assign_length _ _ _ _ Ha') as (H1 & _). exact H1.
    + intros Hne. destruct (Nat.eqb_spec (length mask) (length a)); [contradiction |].
      reflexivity.
  - intros explorer s sd_rec lidar_rec pc e Hl Hpc H.
    unfold point_cloud_colors in H.
    apply color_loop_Raise in H as (ch & Hin & [H | (_ & c & m & H & Hne)]).
    + exists ch. auto.
    + exfalso. apply Hne.
      destruct (camera_colors_shape _ _ _ _ _ _ H) as (_ & store & ps & pc0 & Hg & Hps & Hf & Hlen).
      injection Hg as <-. rewrite length_replicate. congruence.
  - intros fuel g explorer out_path scene_token channel min_dist max_dist verbose e H.
    apply export_scene_pointcloud_Raise in H
      as [[-> Hn] | [-> | [[key ->] | [[path ->] | [[-> Hg] | [-> _]]]]]];
      split; intros x Hx; try discriminate.
    + injection Hx as <-. auto.
    + injection Hx as <-. auto.
Qed.

(** ** The messages *)

Lemma process_frame_verbose (g : option NuScenes) (explorer : NuScenesExplorer)
    (min_dist max_dist : float) (v1 v2 : bool) (sd_rec : SampleDataRec) :
  same_but_prints
    (process_frame rotation_matrix fs g explorer min_dist max_dist v1 sd_rec)
    (process_frame rotation_matrix fs g explorer min_dist max_dist v2 sd_rec).
Proof.
  unfold process_frame.
  apply same_but_prints_bind; [apply same_but_prints_when | intros _].
  do 5 (apply same_but_prints_bind; [apply same_but_prints_refl | intros ?]).
  apply same_but_prints_bind; [apply same_but_prints_when | intros _].
  apply same_but_prints_refl.
Qed.

Lemma frames_loop_verbose (fuel : nat) (g : option NuScenes) (explorer : NuScenesExplorer)
    (min_dist max_dist : float) (v1 v2 : bool) (has_more_frames : bool)
    (sd_rec : SampleDataRec) (frame_ind : Z) :
  same_but_prints
    (frames_loop rotation_matrix fs fuel g explorer min_dist max_dist v1
       has_more_frames sd_rec frame_ind)
    (frames_loop rotation_matrix fs fuel g explorer min_dist max_dist v2
       has_more_frames sd_rec frame_ind).
Proof.
  revert has_more_frames sd_rec frame_ind.
  induction fuel as [| fuel IH]; intros [|] r ind; cbn [frames_loop];
    try apply same_but_prints_refl.
  apply same_but_prints_bind; [apply process_frame_verbose | intros _].
  apply same_but_prints_bind; [apply same_but_prints_refl | intros [r' more]].
  apply IH.
Qed.

Lemma never_print_process_frame (g : option NuScenes) (explorer : NuScenesExplorer)
    (min_dist max_dist : float) (sd_rec : SampleDataRec) :
  never is_print (process_frame rotation_matrix fs g explorer min_dist max_dist false sd_rec).
Proof.
  unfold process_frame, point_cloud_colors, color_step, camera_colors,
    pointcloud_color_from_image, camera_frame, take_picture, pick_color, setitem_mask,
    write_points, nusc_get, PointCloud_from_file, Image_open, dict_get, global_get,
    f_write, when.
  never_tac.
Qed.

Lemma never_print_frames_loop (fuel : nat) (g : option NuScenes) (explorer : NuScenesExplorer)
    (min_dist max_dist : float) (has_more_frames : bool)
    (sd_rec : SampleDataRec) (frame_ind : Z) :
  never is_print (frames_loop rotation_matrix fs fuel g explorer min_dist max_dist false
                    has_more_frames sd_rec frame_ind).
Proof.
  revert has_more_frames sd_rec frame_ind.
  induction fuel as [| fuel IH]; intros [|] r ind; cbn [frames_loop]; try reflexivity.
  apply never_bind; [apply never_print_process_frame | intros _].
  apply never_bind; [unfold nusc_get; never_tac | intros [r' more]].
  apply IH.
Qed.

(** X3. [verbose] decides on the messages and on nothing else: the call
    with the messages and the call without end alike, the second performs
    the events of the first, in order, with the messages taken out, and both
    leave the same file. *)
Theorem verbose_only_prints (fuel : nat) (g : option NuScenes) (explorer : NuScenesExplorer)
    (out_path scene_token channel : string) (min_dist max_dist : float) :
  let loud := export_scene_pointcloud rotation_matrix fs fuel g explorer out_path scene_token
                channel min_dist max_dist true in
  let silent := export_scene_pointcloud rotation_matrix fs fuel g explorer out_path scene_token
                  channel min_dist max_dist false in
  result loud = result silent /\
  trace silent = unprinted (trace loud) /\
  written (trace loud) = written (trace silent) /\
  file_content (trace loud) = file_content (trace silent).
Proof.
  intros loud silent.
  assert (Hs : same_but_prints loud silent).
  { unfold loud, silent, export_scene_pointcloud.
    do 7 (apply same_but_prints_bind; [apply same_but_prints_refl | intros ?]).
    apply frames_loop_verbose. }
  assert (Hn : never is_print silent).
  { unfold silent, export_scene_pointcloud.
    do 7 (apply never_bind;
          [unfold nusc_get, dict_get, open_w, f_write; never_tac | intros ?]).
    apply never_print_frames_loop. }
  destruct Hs as [Hr Ht].
  assert (Htr : trace silent = unprinted (trace loud)).
  { rewrite Ht. symmetry. apply unprinted_never. exact Hn. }
  split; [exact Hr |]. split; [exact Htr |].
  unfold file_content. rewrite Htr, written_unprinted, file_opened_unprinted. auto.
Qed.

(** ** The output file *)

Lemma never_open_frames_loop (fuel : nat) (g : option NuScenes) (explorer : NuScenesExplorer)
    (min_dist max_dist : float) (verbose : bool) (has_more_frames : bool)
    (sd_rec : SampleDataRec) (frame_ind : Z) :
  never is_open_file (frames_loop rotation_matrix fs fuel g explorer min_dist max_dist verbose
                        has_more_frames sd_rec frame_ind).
Proof.
  revert has_more_frames sd_rec frame_ind.
  induction fuel as [| fuel IH]; intros [|] r ind; cbn [frames_loop]; try reflexivity.
  apply never_bind; [| intros _].
  { unfold process_frame, point_cloud_colors, color_step, camera_colors,
      pointcloud_color_from_image, camera_frame, take_picture, pick_color, setitem_mask,
      write_points, nusc_get, PointCloud_from_file, Image_open, dict_get, global_get,
      f_write, when, print.
    never_tac. }
  apply never_bind; [unfold nusc_get; never_tac | intros [r' more]].
  apply IH.
Qed.

(** X4. When the output file comes to exist.  Either the channel is valid,
    the scene, its first sample, the record of the channel in that sample
    are found and the path can be written: then [out_path] is opened, once
    and no other file for writing, and the header is the first thing
    written.  Or one of these fails: then no file is opened, nothing is
    written, and the call ends in the assertion error, the error of a
    missing record or key, or the error of [open]. *)
Theorem output_file_creation (fuel : nat) (g : option NuScenes) (explorer : NuScenesExplorer)
    (out_path scene_token channel : string) (min_dist max_dist : float) (verbose : bool) :
  let run := export_scene_pointcloud rotation_matrix fs fuel g explorer out_path scene_token
               channel min_dist max_dist verbose in
  (exists (scene_rec : SceneRec) (start_sample_rec : SampleRec) (start_token : string)
          (sd_rec : SampleDataRec),
     channel ∈ valid_channels /\
     scene (nusc explorer) !! scene_token = Some scene_rec /\
     sample (nusc explorer) !! first_sample_token scene_rec = Some start_sample_rec /\
     data start_sample_rec !! channel = Some start_token /\
     sample_data (nusc explorer) !! start_token = Some sd_rec /\
     writable fs out_path = true /\
     List.filter is_open_file (trace run) = [EvOpenFile out_path] /\
     exists lines, written (trace run) = obj_header :: lines) \/
  (List.filter is_open_file (trace run) = [] /\
   written (trace run) = [] /\
   exists e, result run = Raise e /\
     ((exists msg, e = AssertionError msg) \/ (exists key, e = KeyError key) \/
      e = PermissionError out_path)).
Proof.
  intros run. unfold run.
  destruct (decide (channel ∈ valid_channels)) as [Hch | Hch].
  2:{ right. unfold export_scene_pointcloud. rewrite bool_decide_false by exact Hch.
      cbn. repeat split. eexists. split; [reflexivity |]. left. eauto. }
  destruct (scene (nusc explorer) !! scene_token) as [scene_rec |] eqn:Hscene.
  2:{ right. unfold export_scene_pointcloud. rewrite bool_decide_true by exact Hch.
      rewrite (bind_run _ _ tt) by reflexivity.
      rewrite (bind_stop _ _ (KeyError scene_token))
        by (rewrite nusc_get_result, Hscene; reflexivity).
      rewrite nusc_get_trace. cbn. repeat split. eexists. split; [reflexivity |].
      right. left. eauto. }
  destruct (sample (nusc explorer) !! first_sample_token scene_rec) as [s |] eqn:Hsample.
  2:{ right. unfold export_scene_pointcloud. rewrite bool_decide_true by exact Hch.
      rewrite (bind_run _ _ tt) by reflexivity.
      rewrite (bind_run _ _ scene_rec) by (apply nusc_get_Return; exact Hscene).
      rewrite (bind_stop _ _ (KeyError (first_sample_token scene_rec)))
        by (rewrite nusc_get_result, Hsample; reflexivity).
      rewrite !nusc_get_trace. cbn. repeat split. eexists. split; [reflexivity |].
      right. left. eauto. }
  destruct (data s !! channel) as [tok |] eqn:Hdata.
  2:{ right. unfold export_scene_pointcloud. rewrite bool_decide_true by exact Hch.
      rewrite (bind_run _ _ tt) by reflexivity.
      rewrite (bind_run _ _ scene_rec) by (apply nusc_get_Return; exact Hscene).
      rewrite (bind_run _ _ s) by (apply nusc_get_Return; exact Hsample).
      rewrite (bind_stop _ _ (KeyError channel))
        by (unfold dict_get; rewrite Hdata; reflexivity).
      rewrite !nusc_get_trace. unfold dict_get. rewrite Hdata.
      cbn. repeat split. eexists. split; [reflexivity |]. right. left. eauto. }
  destruct (sample_data (nusc explorer) !! tok) as [sd_rec |] eqn:Hsd.
  2:{ right. unfold export_scene_pointcloud. rewrite bool_decide_true by exact Hch.
      rewrite (bind_run _ _ tt) by reflexivity.
      rewrite (bind_run _ _ scene_rec) by (apply nusc_get_Return; exact Hscene).
      rewrite (bind_run _ _ s) by (apply nusc_get_Return; exact Hsample).
      rewrite (bind_run _ _ tok) by (unfold dict_get; rewrite Hdata; reflexivity).
      rewrite (bind_stop _ _ (KeyError tok)) by (rewrite nusc_get_result, Hsd; reflexivity).
      rewrite !nusc_get_trace. unfold dict_get. rewrite Hdata.
      cbn. repeat split. eexists. split; [reflexivity |]. right. left. eauto. }
  destruct (writable fs out_path) eqn:Hw.
  2:{ right. unfold export_scene_pointcloud. rewrite bool_decide_true by exact Hch.
      rewrite (bind_run _ _ tt) by reflexivity.
      rewrite (bind_run _ _ scene_rec) by (apply nusc_get_Return; exact Hscene).
      rewrite (bind_run _ _ s) by (apply nusc_get_Return; exact Hsample).
      rewrite (bind_run _ _ tok) by (unfold dict_get; rewrite Hdata; reflexivity).
      rewrite (bind_run _ _ sd_rec) by (apply nusc_get_Return; exact Hsd).
      rewrite (bind_stop _ _ (PermissionError out_path))
        by (unfold open_w; rewrite Hw; reflexivity).
      rewrite !nusc_get_trace. unfold dict_get, open_w. rewrite Hdata, Hw.
      cbn. repeat split. eexists. split; [reflexivity |]. right. right. reflexivity. }
  left. exists scene_rec, s, tok, sd_rec. do 6 (split; [first [assumption | reflexivity] |]).
  rewrite (export_scene_pointcloud_run rotation_matrix fs fuel g explorer out_path scene_token channel min_dist
             max_dist verbose _ _ _ _ Hch Hscene Hsample Hdata Hsd Hw).
  cbv zeta. cbn [trace fst]. split.
  - rewrite List.filter_app.
    rewrite (never_open_frames_loop fuel g explorer min_dist max_dist verbose true sd_rec 0).
    reflexivity.
  - rewrite written_app. cbn. eauto.
Qed.

(** ** A frame that fails *)



(** ** What a frame reads *)

Lemma bind_Return_trace {A B : Type} (m : M A) (k : A -> M B) (b : B) :
  result (bind m k) = Return b ->
  exists a, result m = Return a /\ result (k a) = Return b /\
            trace (bind m k) = trace m ++ trace (k a).
Proof.
  intros H. destruct (bind_Return_inv _ _ _ H) as (a & Ha & Hk).
  exists a. split; [exact Ha |]. split; [exact Hk |]. rewrite trace_bind, Ha. reflexivity.
Qed.

Lemma bind_ret_l {A B : Type} (a : A) (k : A -> M B) : bind (ret a) k = k a.
Proof. unfold bind, ret. destruct (k a). reflexivity. Qed.

Lemma never_any_trace {A : Type} (m : M A) : never (fun _ => true) m -> trace m = [].
Proof.
  unfold never. generalize (trace m). intros tr. destruct tr; [reflexivity | discriminate].
Qed.

Lemma PointCloud_from_file_trace (path : string) :
  trace (PointCloud_from_file fs path) = [EvLoadPointCloud path].
Proof.
  unfold PointCloud_from_file. rewrite trace_bind. simpl.
  destruct (pointcloud_files fs !! path); reflexivity.
Qed.

Lemma Image_open_trace (path : string) : trace (Image_open fs path) = [EvOpenImage path].
Proof.
  unfold Image_open. rewrite trace_bind. simpl. destruct (image_files fs !! path); reflexivity.
Qed.

Ltac trace_step H :=
  let a := fresh "a" in
  let Ha := fresh "Ha" in
  let Ht := fresh "Ht" in
  apply bind_Return_trace in H as (a & Ha & H & Ht); rewrite Ht; clear Ht; cbv beta in *.

(** The events of a camera that gives its colours: two records, the two
    files, four more records. *)
Lemma camera_frame_trace (store : NuScenes) (pointsensor_token camera_token : string)
    (r : Image * CalibratedSensorRec * PointCloud) :
  result (camera_frame rotation_matrix fs store pointsensor_token camera_token) = Return r ->
  exists cam pointsensor : SampleDataRec,
    sample_data store !! camera_token = Some cam /\
    sample_data store !! pointsensor_token = Some pointsensor /\
    trace (camera_frame rotation_matrix fs store pointsensor_token camera_token) =
      [EvGet "sample_data" camera_token; EvGet "sample_data" pointsensor_token;
       EvLoadPointCloud (osp_join (dataroot store) (sd_filename pointsensor));
       EvOpenImage (osp_join (dataroot store) (sd_filename cam));
       EvGet "calibrated_sensor" (sd_calibrated_sensor_token pointsensor);
       EvGet "ego_pose" (sd_ego_pose_token pointsensor);
       EvGet "ego_pose" (sd_ego_pose_token cam);
       EvGet "calibrated_sensor" (sd_calibrated_sensor_token cam)].
Proof.
  unfold camera_frame. intros H.
  trace_step H. apply nusc_get_Return in Ha.
  trace_step H. apply nusc_get_Return in Ha0.
  do 6 trace_step H.
  exists a, a0. split; [exact Ha |]. split; [exact Ha0 |].
  rewrite !nusc_get_trace, PointCloud_from_file_trace, Image_open_trace. reflexivity.
Qed.

Lemma camera_colors_trace (g : option NuScenes) (s : SampleRec) (lt ch : string)
    (r : list Vec3 * list bool) :
  result (camera_colors rotation_matrix fs g s lt ch) = Return r ->
  exists (store : NuScenes) (camera_token : string)
         (im : Image) (cs_record : CalibratedSensorRec) (pc : PointCloud),
    g = Some store /\ data s !! ch = Some camera_token /\
    result (camera_frame rotation_matrix fs store lt camera_token)
      = Return (im, cs_record, pc) /\
    trace (camera_colors rotation_matrix fs g s lt ch) =
    trace (camera_frame rotation_matrix fs store lt camera_token).
Proof.
  intros H. destruct r as [col mask].
  pose proof H as H'. apply camera_colors_inv in H' as (tok & store & Hd & -> & Hp).
  destruct (pointcloud_color_from_image_inv _ _ _ _ _ _ _ Hp)
    as (im & cs & pc & k & Hframe & _).
  exists store, tok, im, cs, pc. do 3 (split; [trivial |]).
  unfold camera_colors, dict_get, global_get. rewrite Hd.
  rewrite !bind_ret_l.
  unfold pointcloud_color_from_image. rewrite trace_bind, Hframe.
  match goal with
  | |- _ ++ trace ?m = _ => rewrite (never_any_trace m); [apply app_nil_r |]
  end.
  cbv beta iota. unfold take_picture, pick_color. never_tac.
Qed.

Lemma color_step_trace (g : option NuScenes) (s : SampleRec) (lt : string)
    (a a' : list Vec3) (ch : string) :
  result (color_step rotation_matrix fs g s lt a ch) = Return a' ->
  trace (color_step rotation_matrix fs g s lt a ch) =
  trace (camera_colors rotation_matrix fs g s lt ch).
Proof.
  unfold color_step. intros H. apply bind_Return_inv in H as ([col mask] & Ha & _).
  rewrite trace_bind, Ha.
  match goal with
  | |- _ ++ trace ?m = _ => rewrite (never_any_trace m); [apply app_nil_r |]
  end.
  unfold setitem_mask. never_tac.
Qed.

(** Every camera of the colour loop reads the file of the point sensor
    again, and one image. *)
Lemma color_loop_reads (store : NuScenes) (s : SampleRec) (lt : string)
    (pointsensor : SampleDataRec) (chs : list string) (a a' : list Vec3) :
  sample_data store !! lt = Some pointsensor ->
  result (foldM (color_step rotation_matrix fs (Some store) s lt) a chs) = Return a' ->
  List.filter is_load (trace (foldM (color_step rotation_matrix fs (Some store) s lt) a chs)) =
    replicate (length chs)
      (EvLoadPointCloud (osp_join (dataroot store) (sd_filename pointsensor))) /\
  length (List.filter is_image
            (trace (foldM (color_step rotation_matrix fs (Some store) s lt) a chs)))
    = length chs.
Proof.
  intros Hps. revert a. induction chs as [| ch chs IH]; intros a H; simpl in H.
  - split; reflexivity.
  - cbn [foldM].
    apply bind_Return_trace in H as (a1 & Ha & H & Ht). rewrite Ht.
    rewrite (color_step_trace _ _ _ _ _ _ Ha).
    destruct (color_step_inv _ _ _ _ _ _ _ _ Ha) as (cam & Hcam & _).
    destruct (camera_colors_trace _ _ _ _ _ Hcam)
      as (store' & tok & im & cs & pc & Hg & _ & Hframe & ->).
    injection Hg as <-.
    destruct (camera_frame_trace _ _ _ _ Hframe) as (camrec & ps & _ & Hps' & ->).
    assert (ps = pointsensor) by congruence. subst ps.
    destruct (IH _ H) as [IH1 IH2].
    rewrite !List.filter_app, IH1, length_app, IH2. split; reflexivity.
Qed.

Lemma process_frame_filter (p : event -> bool) (g : option NuScenes)
    (explorer : NuScenesExplorer) (min_dist max_dist : float) (verbose : bool)
    (sd_rec : SampleDataRec) :
  (forall table token, p (EvGet table token) = false) ->
  (forall s, p (EvPrint s) = false) ->
  (forall s, p (EvWrite s) = false) ->
  result (process_frame rotation_matrix fs g explorer min_dist max_dist verbose sd_rec)
    = Return tt ->
  exists (sample_rec : SampleRec) (lidar_rec : SampleDataRec) (pc : PointCloud)
         (coloring : list Vec3),
    sample_data (nusc explorer) !! sd_token sd_rec = Some lidar_rec /\
    result (point_cloud_colors rotation_matrix fs g sample_rec (sd_token sd_rec) pc)
      = Return coloring /\
    List.filter p (trace (process_frame rotation_matrix fs g explorer min_dist max_dist verbose
                            sd_rec)) =
    List.filter p [EvLoadPointCloud (osp_join (dataroot (nusc explorer))
                                              (sd_filename lidar_rec))]
      ++ List.filter p (trace (point_cloud_colors rotation_matrix fs g sample_rec
                                 (sd_token sd_rec) pc)).
Proof.
  intros Hget Hprint Hwrite. unfold process_frame. intros H.
  trace_step H. trace_step H. trace_step H. apply nusc_get_Return in Ha1.
  trace_step H. trace_step H. trace_step H. trace_step H. trace_step H.
  exists a0, a1, a2, a3. split; [exact Ha1 |]. split; [exact Ha3 |].
  rewrite !List.filter_app, !nusc_get_trace, PointCloud_from_file_trace.
  assert (Hp1 : forall b s, List.filter p (trace (when b (print s))) = []).
  { intros [|] s; simpl; rewrite ?Hprint; reflexivity. }
  rewrite !Hp1. cbn [List.filter]. rewrite !Hget. cbn [app].
  match goal with
  | |- context [List.filter p (trace (write_points ?pc ?c))] =>
      assert (Hw : List.filter p (trace (write_points pc c)) = [])
  end.
  { unfold write_points. apply never_forM_. intros [v c].
    destruct (any_minus_one c); [apply never_ret | apply never_emit, Hwrite]. }
  rewrite Hw, !app_nil_r. reflexivity.
Qed.

(** X6. A frame that is processed reads the file of its sweep seven times:
    once in the body of the loop, through the store of the explorer, and once
    in each of the six calls of [pointcloud_color_from_image], through the
    global store; and it opens six images. *)
Theorem frame_reads_cloud_seven_times (g : option NuScenes) (explorer : NuScenesExplorer)
    (min_dist max_dist : float) (verbose : bool) (sd_rec : SampleDataRec) :
  let frame := process_frame rotation_matrix fs g explorer min_dist max_dist verbose sd_rec in
  result frame = Return tt ->
  exists (store : NuScenes) (lidar_rec pointsensor : SampleDataRec),
    g = Some store /\
    sample_data (nusc explorer) !! sd_token sd_rec = Some lidar_rec /\
    sample_data store !! sd_token sd_rec = Some pointsensor /\
    List.filter is_load (trace frame) =
      EvLoadPointCloud (osp_join (dataroot (nusc explorer)) (sd_filename lidar_rec))
      :: replicate 6 (EvLoadPointCloud (osp_join (dataroot store) (sd_filename pointsensor))) /\
    length (List.filter is_image (trace frame)) = 6%nat.
Proof.
  intros frame H. unfold frame in *.
  destruct (process_frame_filter is_load g explorer min_dist max_dist verbose sd_rec
              ltac:(reflexivity) ltac:(reflexivity) ltac:(reflexivity) H)
    as (s & lidar_rec & pc & coloring & Hl & Hc & Hload).
  destruct (process_frame_filter is_image g explorer min_dist max_dist verbose sd_rec
              ltac:(reflexivity) ltac:(reflexivity) ltac:(reflexivity) H)
    as (s' & lidar_rec' & pc' & coloring' & _ & Hc' & Himage).
  rewrite Hload, Himage. clear Hload Himage.
  assert (Hstore : forall s pc coloring,
            result (point_cloud_colors rotation_matrix fs g s (sd_token sd_rec) pc)
              = Return coloring ->
            exists store pointsensor,
              g = Some store /\ sample_data store !! sd_token sd_rec = Some pointsensor).
  { intros s0 pc0 c0 H0. unfold point_cloud_colors, camera_channels in H0. cbn [foldM] in H0.
    apply bind_Return_inv in H0 as (a & Ha & _).
    destruct (color_step_inv _ _ _ _ _ _ _ _ Ha) as ([col mask] & Hcam & _).
    destruct (camera_colors_shape _ _ _ _ _ _ Hcam) as (_ & store & ps & _ & Hg & Hps & _).
    eauto. }
  destruct (Hstore _ _ _ Hc) as (store & ps & -> & Hps).
  exists store, lidar_rec, ps. do 3 (split; [trivial |]).
  unfold point_cloud_colors in *.
  destruct (color_loop_reads _ _ _ _ _ _ _ Hps Hc) as [E1 _].
  destruct (color_loop_reads _ _ _ _ _ _ _ Hps Hc') as [_ E2].
  rewrite E1. split; [reflexivity |].
  rewrite length_app, E2. reflexivity.
Qed.

(** ** Links that never end, and exports that return *)

Lemma frames_loop_endless (P : SampleDataRec -> Prop) (g : option NuScenes)
    (explorer : NuScenesExplorer) (min_dist max_dist : float) (verbose : bool) :
  (forall r, P r ->
     sd_next r <> "" /\
     (exists r', sample_data (nusc explorer) !! sd_next r = Some r' /\ P r') /\
     result (process_frame rotation_matrix fs g explorer min_dist max_dist verbose r)
       = Return tt) ->
  forall (fuel : nat) (r : SampleDataRec) (frame_ind : Z),
    P r ->
    let loop := frames_loop rotation_matrix fs fuel g explorer min_dist max_dist verbose
                  true r frame_ind in
    result loop = Unfinished /\ (fuel <= length (trace loop))%nat.
Proof.
  intros HP. induction fuel as [| fuel IH]; intros r ind Hr.
  - split; [reflexivity | simpl; lia].
  - destruct (HP r Hr) as (Hnext & (r' & Hget & Hr') & Hok). cbv zeta.
    rewrite frames_loop_turn by exact Hok.
    destruct (String.eqb_spec (sd_next r) ""); [congruence |]. rewrite Hget.
    destruct (IH r' (ind + 1) Hr') as [IH1 IH2]. cbv zeta in *.
    cbn [result trace fst snd]. split; [exact IH1 |].
    rewrite length_app. cbn [length]. lia.
Qed.

(** X7. Links that never end.  When, from the first record on, every
    record names a next record that exists and every frame is processed (as
    on a cycle of links), the loop has no end: whatever number of turns it
    is given, the export is cut off unfinished, having performed more events
    than it was given turns. *)
Theorem endless_links_never_finish (P : SampleDataRec -> Prop) (fuel : nat)
    (g : option NuScenes) (explorer : NuScenesExplorer) (out_path scene_token channel : string)
    (min_dist max_dist : float) (verbose : bool)
    (scene_rec : SceneRec) (start_sample_rec : SampleRec) (start_token : string)
    (sd_rec : SampleDataRec) :
  channel ∈ valid_channels ->
  scene (nusc explorer) !! scene_token = Some scene_rec ->
  sample (nusc explorer) !! first_sample_token scene_rec = Some start_sample_rec ->
  data start_sample_rec !! channel = Some start_token ->
  sample_data (nusc explorer) !! start_token = Some sd_rec ->
  writable fs out_path = true ->
  P sd_rec ->
  (forall r, P r ->
     sd_next r <> "" /\
     (exists r', sample_data (nusc explorer) !! sd_next r = Some r' /\ P r') /\
     result (process_frame rotation_matrix fs g explorer min_dist max_dist verbose r)
       = Return tt) ->
  let run := export_scene_pointcloud rotation_matrix fs fuel g explorer out_path scene_token
               channel min_dist max_dist verbose in
  result run = Unfinished /\ (fuel < length (trace run))%nat.
Proof.
  intros Hch Hscene Hsample Hdata Hsd Hw Hstart HP run. unfold run.
  rewrite (export_scene_pointcloud_run rotation_matrix fs fuel g explorer out_path scene_token
             channel min_dist max_dist verbose _ _ _ _ Hch Hscene Hsample Hdata Hsd Hw).
  cbv zeta.
  destruct (frames_loop_endless P g explorer min_dist max_dist verbose HP fuel sd_rec 0 Hstart)
    as [H1 H2].
  cbv zeta in *. cbn [result trace fst snd]. split; [exact H1 |].
  rewrite length_app. unfold prelude_events. cbn [length]. lia.
Qed.

Lemma frames_loop_Return_chain (g : option NuScenes) (explorer : NuScenesExplorer)
    (min_dist max_dist : float) (verbose : bool) :
  forall (fuel : nat) (r : SampleDataRec) (frame_ind n : Z),
    result (frames_loop rotation_matrix fs fuel g explorer min_dist max_dist verbose
              true r frame_ind) = Return n ->
    exists l : list SampleDataRec,
      chain (nusc explorer) r l /\ n = frame_ind + Z.of_nat (length l) /\
      (length l <= fuel)%nat /\
      forall x, x ∈ l ->
        result (process_frame rotation_matrix fs g explorer min_dist max_dist verbose x)
          = Return tt.
Proof.
  induction fuel as [| fuel IH]; intros r ind n H; [discriminate |].
  destruct (process_frame_finishes rotation_matrix fs g explorer min_dist max_dist verbose r)
    as [Hf | [e Hf]].
  2:{ cbn [frames_loop] in H. rewrite (bind_stop _ _ e Hf) in H. discriminate. }
  rewrite frames_loop_turn in H by exact Hf.
  destruct (String.eqb_spec (sd_next r) "") as [Hlast | Hnext].
  - injection H as <-. exists [r]. split; [constructor; exact Hlast |].
    split; [reflexivity |]. split; [simpl; lia |].
    intros x Hx. apply list_elem_of_singleton in Hx as ->. exact Hf.
  - destruct (sample_data (nusc explorer) !! sd_next r) as [r' |] eqn:Hget; [| discriminate].
    cbv zeta in H. cbn [result snd] in H.
    destruct (IH _ _ _ H) as (l & Hchain & -> & Hlen & Hok).
    exists (r :: l). split; [econstructor; eassumption |].
    split; [cbn [length]; lia |]. split; [simpl; lia |].
    intros x Hx. apply elem_of_cons in Hx as [-> | Hx]; [exact Hf | apply Hok, Hx].
Qed.

(** X8. An export that returns has walked a chain.  When the call returns,
    the channel was valid, the records of the prelude were found, the path
    could be written, and the links from the first record form a chain that
    ends in an empty link; every frame of the chain was processed, the
    frames counted are the records of the chain, at least one, and the file
    holds the header and then the lines of the frames in the order of the
    chain. *)
Theorem returned_export_walked_a_chain (fuel : nat) (g : option NuScenes)
    (explorer : NuScenesExplorer) (out_path scene_token channel : string)
    (min_dist max_dist : float) (verbose : bool) (n : Z) :
  let run := export_scene_pointcloud rotation_matrix fs fuel g explorer out_path scene_token
               channel min_dist max_dist verbose in
  result run = Return n ->
  exists (scene_rec : SceneRec) (start_sample_rec : SampleRec) (start_token : string)
         (sd_rec : SampleDataRec) (l : list SampleDataRec),
    channel ∈ valid_channels /\
    scene (nusc explorer) !! scene_token = Some scene_rec /\
    sample (nusc explorer) !! first_sample_token scene_rec = Some start_sample_rec /\
    data start_sample_rec !! channel = Some start_token /\
    sample_data (nusc explorer) !! start_token = Some sd_rec /\
    writable fs out_path = true /\
    chain (nusc explorer) sd_rec l /\
    n = Z.of_nat (length l) /\ 1 <= n /\
    (forall x, x ∈ l ->
       result (process_frame rotation_matrix fs g explorer min_dist max_dist verbose x)
         = Return tt) /\
    written (trace run) =
      obj_header :: flat_map (fun x => written (trace (process_frame rotation_matrix fs g
                                                         explorer min_dist max_dist verbose x))) l.
Proof.
  intros run H. unfold run in *. pose proof H as H'.
  unfold export_scene_pointcloud in H'.
  apply bind_Return_inv in H' as (u & Hch & H').
  destruct (bool_decide_reflect (channel ∈ valid_channels)) as [Hch' |]; [| discriminate].
  apply bind_Return_inv in H' as (scene_rec & Hscene & H'). apply nusc_get_Return in Hscene.
  apply bind_Return_inv in H' as (s & Hsample & H'). apply nusc_get_Return in Hsample.
  apply bind_Return_inv in H' as (tok & Hdata & H'). unfold dict_get in Hdata.
  destruct (data s !! channel) as [tok' |] eqn:Hdata'; [| discriminate].
  injection Hdata as ->.
  apply bind_Return_inv in H' as (sd_rec & Hsd & H'). apply nusc_get_Return in Hsd.
  apply bind_Return_inv in H' as (u' & Hopen & H'). unfold open_w in Hopen.
  destruct (writable fs out_path) eqn:Hw; [| discriminate].
  apply bind_Return_inv in H' as (u'' & _ & H').
  destruct (frames_loop_Return_chain _ _ _ _ _ _ _ _ _ H') as (l & Hchain & -> & Hlen & Hok).
  exists scene_rec, s, tok, sd_rec, l. do 5 (split; [assumption |]). split; [reflexivity |].
  split; [exact Hchain |]. split; [lia |]. split.
  { destruct Hchain; cbn [length]; lia. }
  split; [exact Hok |].
  rewrite (export_scene_pointcloud_run rotation_matrix fs fuel g explorer out_path scene_token
             channel min_dist max_dist verbose _ _ _ _ Hch' Hscene Hsample Hdata' Hsd Hw).
  cbv zeta.
  rewrite (frames_loop_chain rotation_matrix fs g explorer min_dist max_dist verbose _ _ Hchain
             fuel 0 Hlen Hok).
  cbn [trace fst]. rewrite written_app, written_flat_map_frames. reflexivity.
Qed.

(** X10. An image less than three pixels wide or high colours nothing: the
    margin of one pixel on every side leaves no room, so the mask of
    [pointcloud_color_from_image] holds nowhere and no colour is returned. *)
Theorem small_image_colours_nothing (store : NuScenes) (pointsensor_token camera_token : string)
    (coloring : list Vec3) (mask : list bool) (cam : SampleDataRec) (im : Image) :
  result (pointcloud_color_from_image rotation_matrix fs store pointsensor_token camera_token)
    = Return (coloring, mask) ->
  sample_data store !! camera_token = Some cam ->
  image_files fs !! osp_join (dataroot store) (sd_filename cam) = Some im ->
  (im_width im <= 2)%N \/ (im_height im <= 2)%N ->
  coloring = [] /\ count_true mask = O /\ forall i, mask !! i <> Some true.
Proof.
  intros H Hcam Him Hsmall.
  destruct (pointcloud_color_from_image_inv _ _ _ _ _ _ _ H)
    as (im' & cs & pc & k & Hframe & Hk & Hmask & Hc).
  destruct (camera_frame_inv _ _ _ _ _ _ Hframe)
    as (cam' & ps & pc0 & Hcam' & _ & _ & Him' & _ & _).
  assert (cam' = cam) by congruence. subst cam'.
  assert (im' = im) by congruence. subst im'.
  assert (Hnone : forall i, mask !! i <> Some true).
  { intros i Hi.
    assert (Hl : (i < length pc)%nat).
    { rewrite <- (camera_mask_frame_length im k pc), <- Hmask. eapply lookup_lt_Some. exact Hi. }
    destruct (lookup_lt_is_Some_2 _ _ Hl) as [q Hq].
    destruct (camera_mask_of_frame im k pc i q Hq) as [Hv _]. cbv zeta in Hv.
    rewrite <- Hmask in Hv. apply Hv in Hi. destruct Hi as (_ & (Hu1 & Hu2) & Hv1 & Hv2).
    destruct Hsmall as [Hs | Hs].
    - rewrite (no_room_in_margin _ _ Hs Hu1) in Hu2. discriminate.
    - rewrite (no_room_in_margin _ _ Hs Hv1) in Hv2. discriminate. }
  pose proof (count_true_none mask Hnone) as Hz.
  split; [| split; [exact Hz | exact Hnone]].
  destruct (mapM_result_inv _ _ _ Hc) as [Hlen _].
  rewrite compress_length in Hlen.
  - rewrite Hz in Hlen. destruct coloring; [reflexivity | discriminate].
  - rewrite Hmask, camera_mask_frame_length, view_points_length, length_map. reflexivity.
Qed.

(** ** What the messages report *)

Lemma count_true_le_length (mask : list bool) : (count_true mask <= length mask)%nat.
Proof. induction mask as [| [|] mask IH]; simpl; lia. Qed.

Lemma omap_zip_le {A B C : Type} (f : A * B -> option C) (g : A -> bool)
    (l : list A) (l' : list B) :
  (forall a b, g a = false -> f (a, b) = None) ->
  (length (omap f (zip l l')) <= count_true (map g l))%nat.
Proof.
  intros Hf. revert l'. induction l as [| a l IH]; intros [| b l']; simpl; try lia.
  specialize (IH l').
  change (list_omap (A * B)%type C f (zip l l')) with (omap f (zip l l')).
  destruct (g a) eqn:Hg.
  - destruct (f (a, b)); simpl; lia.
  - rewrite (Hf a b Hg). lia.
Qed.

Lemma never_print_point_cloud_colors (g : option NuScenes) (s : SampleRec) (lt : string)
    (pc : PointCloud) :
  never is_print (point_cloud_colors rotation_matrix fs g s lt pc).
Proof.
  unfold point_cloud_colors, color_step, camera_colors, pointcloud_color_from_image,
    camera_frame, take_picture, pick_color, setitem_mask, nusc_get, PointCloud_from_file,
    Image_open, dict_get, global_get.
  never_tac.
Qed.

(** X11. What the messages of a frame report.  With [verbose] a frame that
    is processed prints two messages: the file name of its record, and
    ["Distance filter: Keeping k of n points..."], where n is the number of
    points of the sweep and k the number of those within the two distances
    of the vehicle, taken in the ego frame.  The lines the frame writes are
    at most k, and k is at most n. *)
Theorem distance_message_counts (g : option NuScenes) (explorer : NuScenesExplorer)
    (min_dist max_dist : float) (sd_rec : SampleDataRec) :
  let frame := process_frame rotation_matrix fs g explorer min_dist max_dist true sd_rec in
  result frame = Return tt ->
  exists (lidar_rec : SampleDataRec) (pc : PointCloud) (cs_record : CalibratedSensorRec),
    sample_data (nusc explorer) !! sd_token sd_rec = Some lidar_rec /\
    pointcloud_files fs !! osp_join (dataroot (nusc explorer)) (sd_filename lidar_rec)
      = Some pc /\
    calibrated_sensor (nusc explorer) !! sd_calibrated_sensor_token lidar_rec
      = Some cs_record /\
    let kept := count_true (map (fun p => in_range min_dist max_dist
                                            (distance_from_origin
                                               (sensor_to_ego rotation_matrix cs_record (xyz p))))
                              pc) in
    List.filter is_print (trace frame) =
      [EvPrint ("Processing frame: " ++ sd_filename sd_rec);
       EvPrint ("Distance filter: Keeping " ++ format_d (Z.of_nat kept) ++ " of "
                ++ format_d (Z.of_nat (length pc)) ++ " points...")] /\
    (length (written (trace frame)) <= kept)%nat /\ (kept <= length pc)%nat.
Proof.
  intros frame H. unfold frame in *.
  destruct (process_frame_cases rotation_matrix fs g explorer min_dist max_dist true sd_rec)
    as [(s & lidar_rec & pc & coloring & cs & pose & Hs & Hl & Hpc & Hc & Hcs & Hpose & _ & Hw)
       | (e & He & _)]; [| congruence].
  exists lidar_rec, pc, cs. do 3 (split; [assumption |]). cbv zeta.
  assert (Hkeep : distance_keep min_dist max_dist
                    (translate (cs_translation cs) (rotate (rotation_matrix (cs_rotation cs)) pc))
                  = map (fun p => in_range min_dist max_dist
                                    (distance_from_origin
                                       (sensor_to_ego rotation_matrix cs (xyz p)))) pc).
  { rewrite distance_keep_pointwise. unfold translate, rotate. rewrite !map_map.
    apply map_ext. intros p. reflexivity. }
  split; [| split].
  - unfold process_frame in *.
    trace_step H. trace_step H. apply nusc_get_Return in Ha0.
    trace_step H. apply nusc_get_Return in Ha1.
    trace_step H. apply PointCloud_from_file_Return in Ha2.
    trace_step H. trace_step H. apply nusc_get_Return in Ha4.
    trace_step H. trace_step H.
    assert (a1 = lidar_rec) by congruence. subst a1.
    assert (a2 = pc) by congruence. subst a2.
    assert (a4 = cs) by congruence. subst a4.
    rewrite !List.filter_app, !nusc_get_trace, PointCloud_from_file_trace.
    rewrite (never_print_point_cloud_colors g a0 (sd_token sd_rec) pc).
    match goal with
    | |- context [List.filter is_print (trace (write_points ?pc ?c))] =>
        assert (Hwp : List.filter is_print (trace (write_points pc c)) = [])
    end.
    { unfold write_points, f_write. never_tac. }
    rewrite Hwp, Hkeep, length_map. reflexivity.
  - rewrite Hw. unfold frame_lines. apply omap_zip_le.
    intros p c Hr. cbv zeta. cbn [fst snd]. rewrite Hr. reflexivity.
  - rewrite <- (length_map (fun p => in_range min_dist max_dist
                                      (distance_from_origin
                                         (sensor_to_ego rotation_matrix cs (xyz p)))) pc).
    apply count_true_le_length.
Qed.

End MoreProperties.

(** ** More facts of the demo *)

Lemma demo_front_camera :
  result (pointcloud_color_from_image Demo.rotation_matrix Demo.files Demo.store "l1" "cam_f")
  = Return (replicate 4 Demo.red_pixel, Demo.mask_here).
Proof. vm_compute. reflexivity. Qed.

Lemma demo_blind_l1 :
  sample_data (nusc Faults.explorer_blind) !! "l1"%string = Some Demo.l1.
Proof. vm_compute. reflexivity. Qed.

Lemma demo_blind_colors :
  result (point_cloud_colors Demo.rotation_matrix Demo.files (Some (nusc Faults.explorer_blind))
            (Demo.sample_of "l1") "l1" Demo.cloud) = Raise IndexError.
Proof. vm_compute. reflexivity. Qed.




Lemma demo_loop_scene :
  scene (nusc Faults.explorer_loop) !! "scene-1"%string = Some (mkSceneRec "s1").
Proof. vm_compute. reflexivity. Qed.

Lemma demo_loop_sample :
  sample (nusc Faults.explorer_loop) !! "s1"%string = Some (Demo.sample_of "l1").
Proof. vm_compute. reflexivity. Qed.

Lemma demo_loop_l1 : sample_data (nusc Faults.explorer_loop) !! "l1"%string = Some Demo.l1.
Proof. vm_compute. reflexivity. Qed.

Lemma demo_loop_start : Faults.on_loop Demo.l1.
Proof. unfold Faults.on_loop. set_solver. Qed.

Lemma demo_loop_links (r : SampleDataRec) :
  Faults.on_loop r ->
  sd_next r <> ""%string /\
  (exists r', sample_data (nusc Faults.explorer_loop) !! sd_next r = Some r' /\
              Faults.on_loop r') /\
  result (process_frame Demo.rotation_matrix Demo.files (Some Faults.store_loop)
            Faults.explorer_loop default_min_dist default_max_dist false r) = Return tt.
Proof.
  unfold Faults.on_loop. intros Hr. apply list_elem_of_In in Hr. simpl in Hr.
  destruct Hr as [<- | [<- | [<- | []]]].
  - split; [discriminate |]. split; [| vm_compute; reflexivity].
    exists Demo.l2. split; [vm_compute; reflexivity | set_solver].
  - split; [discriminate |]. split; [| vm_compute; reflexivity].
    exists Faults.l3_loop. split; [vm_compute; reflexivity | set_solver].
  - split; [discriminate |]. split; [| vm_compute; reflexivity].
    exists Demo.l1. split; [vm_compute; reflexivity | set_solver].
Qed.

Lemma demo_run :
  result (export_scene_pointcloud Demo.rotation_matrix Demo.files 3 (Some Demo.store)
            Demo.explorer Demo.out_path "scene-1" "LIDAR_TOP"
            default_min_dist default_max_dist false) = Return 3.
Proof. vm_compute. reflexivity. Qed.

(** ** More properties on the demo *)

(** The front camera of the demo colours the four points it sees. *)
Lemma pointcloud_color_from_image_demo :
  length Demo.mask_here = length Demo.cloud /\
  length (replicate 4 Demo.red_pixel) = count_true Demo.mask_here.
Proof.
  destruct (pointcloud_color_from_image_pixels Demo.rotation_matrix Demo.files Demo.store
              "l1" "cam_f" _ _ demo_front_camera)
    as (cam & ps & pc0 & im & cs & k & pc & _ & Hps & Hpc0 & _ & _ & _ & _ & Hlen & Hcount & _).
  unfold Demo.store in Hps. rewrite (demo_l1 Demo.l3) in Hps. injection Hps as <-.
  change (pointcloud_files Demo.files !! "/data/sweeps/l1.bin"%string = Some pc0) in Hpc0.
  rewrite demo_cloud in Hpc0. injection Hpc0 as <-.
  split; [exact Hlen | exact Hcount].
Defined.

(** The demo with a front-right camera that has no intrinsic matrix: the
    IndexError of the colour loop is the one of a camera. *)
Lemma colour_loop_demo :
  exists ch, ch ∈ camera_channels /\
    result (camera_colors Demo.rotation_matrix Demo.files (Some Faults.store_blind)
              (Demo.sample_of "l1") "l1" ch) = Raise IndexError.
Proof.
  exact (proj1 (proj2 (colour_loop_fails_with_a_camera Demo.rotation_matrix Demo.files))
           Faults.explorer_blind (Demo.sample_of "l1") Demo.l1 Demo.l1 Demo.cloud IndexError
           demo_blind_l1 demo_cloud demo_blind_colors).
Defined.


(** The first frame of the demo reads six images. *)
Lemma frame_reads_demo :
  length (List.filter is_image (trace (Demo.frame1 (Some Demo.store)))) = 6%nat.
Proof.
  destruct (frame_reads_cloud_seven_times Demo.rotation_matrix Demo.files (Some Demo.store)
              Demo.explorer default_min_dist default_max_dist false Demo.l1 demo_frame1)
    as (store & lidar_rec & ps & _ & _ & _ & _ & H).
  exact H.
Defined.

(** The demo with its last sweep linked back to the first: five turns do
    not finish the export. *)
Lemma endless_links_demo :
  result (export_scene_pointcloud Demo.rotation_matrix Demo.files 5 (Some Faults.store_loop)
            Faults.explorer_loop Demo.out_path "scene-1" "LIDAR_TOP"
            default_min_dist default_max_dist false) = Unfinished.
Proof.
  pose proof (endless_links_never_finish Demo.rotation_matrix Demo.files Faults.on_loop 5
                (Some Faults.store_loop) Faults.explorer_loop Demo.out_path "scene-1"
                "LIDAR_TOP" default_min_dist default_max_dist false (mkSceneRec "s1")
                (Demo.sample_of "l1") "l1" Demo.l1
                demo_channel demo_loop_scene demo_loop_sample demo_start demo_loop_l1 eq_refl
                demo_loop_start demo_loop_links) as H.
  cbv zeta in H. exact (proj1 H).
Defined.

(** The export of the demo returned 3: its records form a chain of three. *)
Lemma returned_export_demo :
  exists (sd_rec : SampleDataRec) (l : list SampleDataRec),
    chain (nusc Demo.explorer) sd_rec l /\ 3 = Z.of_nat (length l).
Proof.
  destruct (returned_export_walked_a_chain Demo.rotation_matrix Demo.files 3 (Some Demo.store)
              Demo.explorer Demo.out_path "scene-1" "LIDAR_TOP" default_min_dist
              default_max_dist false 3 demo_run)
    as (scene_rec & s & tok & sd_rec & l & _ & _ & _ & _ & _ & _ & Hchain & Hn & _).
  exists sd_rec, l. split; [exact Hchain | exact Hn].
Defined.

Lemma demo_narrow :
  result (pointcloud_color_from_image Demo.rotation_matrix Faults.files_narrow Demo.store
            "l1" "cam_f") = Return ([], replicate 6 false).
Proof. vm_compute. reflexivity. Qed.

Lemma demo_narrow_image :
  image_files Faults.files_narrow !! "/data/img/f.jpg"%string = Some Faults.narrow.
Proof. vm_compute. reflexivity. Qed.

(** The front camera of the demo with a picture two pixels wide. *)
Lemma small_image_demo : count_true (replicate 6 false) = O.
Proof.
  destruct (small_image_colours_nothing Demo.rotation_matrix Faults.files_narrow Demo.store
              "l1" "cam_f" [] (replicate 6 false)
              (Demo.camera "cam_f" "img/f.jpg" "cs_here") Faults.narrow
              demo_narrow demo_cam_f demo_narrow_image (or_introl (N.le_refl 2)))
    as (_ & H & _).
  exact H.
Defined.

(** A point whose first coordinate is NaN is dropped by the default bounds. *)
Lemma distance_filter_nan_demo :
  distance_keep default_min_dist default_max_dist
    [mkPoint (mkVec3 S754_nan (F64.of_Z 0) (F64.of_Z 0)) []] !! 0%nat = Some false.
Proof.
  apply (proj1 (proj2 distance_filter_and_nan) default_min_dist default_max_dist
           [mkPoint (mkVec3 S754_nan (F64.of_Z 0) (F64.of_Z 0)) []] 0%nat
           (mkPoint (mkVec3 S754_nan (F64.of_Z 0) (F64.of_Z 0)) [])); reflexivity.
Defined.

Lemma demo_frame1_loud :
  result (process_frame Demo.rotation_matrix Demo.files (Some Demo.store) Demo.explorer
            default_min_dist default_max_dist true Demo.l1) = Return tt.
Proof. vm_compute. reflexivity. Qed.

(** The first frame of the demo, with its messages: two of them. *)
Lemma distance_message_demo :
  length (List.filter is_print
            (trace (process_frame Demo.rotation_matrix Demo.files (Some Demo.store)
                      Demo.explorer default_min_dist default_max_dist true Demo.l1))) = 2%nat.
Proof.
  destruct (distance_message_counts Demo.rotation_matrix Demo.files (Some Demo.store)
              Demo.explorer default_min_dist default_max_dist Demo.l1 demo_frame1_loud)
    as (lidar_rec & pc & cs & _ & _ & _ & H).
  cbv zeta in H. destruct H as [-> _]. reflexivity.
Defined.

(** * The main block *)

Lemma at_most_once_never {A : Type} (p : event -> bool) (ev : event) (m : M A) :
  never p m -> at_most_once p ev m.
Proof. intros H. left. exact H. Qed.

Lemma at_most_once_bind {A B : Type} (p : event -> bool) (ev : event) (m : M A) (k : A -> M B) :
  never p m -> (forall a, at_most_once p ev (k a)) -> at_most_once p ev (bind m k).
Proof.
  unfold at_most_once, never. intros Hm Hk. rewrite filter_trace_bind, Hm.
  destruct (result m); simpl; auto.
Qed.

Section MainProperties.

Variable rotation_matrix : Quaternion -> Mat3.
Variable fs : FileSystem.

Ltac raise_step H :=
  let a := fresh "a" in
  let Ha := fresh "Ha" in
  apply bind_Raise_inv in H as [H | (a & Ha & H)].

(** The export opens its output file, at most once, and no other file. *)
Lemma export_opens_once (fuel : nat) (g : option NuScenes) (explorer : NuScenesExplorer)
    (out_path scene_token channel : string) (min_dist max_dist : float) (verbose : bool) :
  at_most_once is_open_file (EvOpenFile out_path)
    (export_scene_pointcloud rotation_matrix fs fuel g explorer out_path scene_token channel
       min_dist max_dist verbose).
Proof.
  unfold export_scene_pointcloud.
  apply at_most_once_bind; [never_tac | intros _].
  apply at_most_once_bind; [unfold nusc_get; never_tac | intros scene_rec].
  apply at_most_once_bind; [unfold nusc_get; never_tac | intros s].
  apply at_most_once_bind; [unfold dict_get; never_tac | intros tok].
  apply at_most_once_bind; [unfold nusc_get; never_tac | intros sd_rec].
  unfold open_w. destruct (writable fs out_path).
  - right. rewrite filter_trace_bind. cbn [emit trace fst result snd List.filter is_open_file].
    rewrite filter_trace_bind. cbn [f_write emit trace fst result snd List.filter is_open_file].
    rewrite (never_open_frames_loop rotation_matrix fs fuel g explorer min_dist max_dist verbose
               true sd_rec 0).
    reflexivity.
  - left. reflexivity.
Qed.

Lemma scenes_loop_opens (fuel : nat) (w : World) (nusc : NuScenes)
    (scene_table : gmap string SceneRow) (explorer : NuScenesExplorer) (dir : string)
    (scene_tokens : list string) :
  forall created : list string,
    let opened := List.filter is_open_file
                    (trace (scenes_loop rotation_matrix fs fuel w nusc scene_table explorer
                              dir scene_tokens created)) in
    NoDup opened /\
    forall ev, ev ∈ opened ->
      exists (scene_token : string) (scene : SceneRow),
        scene_token ∈ scene_tokens /\ scene_table !! scene_token = Some scene /\
        ev = EvOpenFile (osp_join dir (row_name scene ++ ".obj")) /\
        path_exists w (osp_join dir (row_name scene ++ ".obj")) = false /\
        osp_join dir (row_name scene ++ ".obj") ∉ created.
Proof.
  induction scene_tokens as [| tok tokens IH]; intros created opened; subst opened.
  - simpl. split; [constructor | intros ev Hev; inversion Hev].
  - cbn [scenes_loop]. rewrite filter_trace_bind, nusc_get_trace, nusc_get_result.
    cbn [List.filter is_open_file app].
    destruct (scene_table !! tok) as [scene |] eqn:Hrow;
      [| split; [constructor | intros ev Hev; inversion Hev]].
    set (out_path := osp_join dir (row_name scene ++ ".obj")).
    destruct (path_exists w out_path) eqn:Hex; cbn [orb negb].
    { destruct (IH created) as [Hnd Hall]. split; [exact Hnd |].
      intros ev Hev. destruct (Hall ev Hev) as (t & r & Ht & Hr & Hrest).
      exists t, r. split; [apply elem_of_cons; auto | auto]. }
    destruct (bool_decide_reflect (out_path ∈ created)) as [Hin | Hnin]; cbn [negb].
    { destruct (IH created) as [Hnd Hall]. split; [exact Hnd |].
      intros ev Hev. destruct (Hall ev Hev) as (t & r & Ht & Hr & Hrest).
      exists t, r. split; [apply elem_of_cons; auto | auto]. }
    rewrite filter_trace_bind.
    destruct (IH (out_path :: created)) as [Hnd Hall].
    assert (Hfresh : EvOpenFile out_path ∉
                     List.filter is_open_file
                       (trace (scenes_loop rotation_matrix fs fuel w nusc scene_table explorer
                                 dir tokens (out_path :: created)))).
    { intros Hev. destruct (Hall _ Hev) as (t & r & _ & _ & Heq & _ & Hn).
      injection Heq as Heq. apply Hn. rewrite <- Heq. apply elem_of_cons. auto. }
    assert (Hrest : forall ev,
              ev ∈ List.filter is_open_file
                     (trace (scenes_loop rotation_matrix fs fuel w nusc scene_table explorer
                               dir tokens (out_path :: created))) ->
              exists (scene_token : string) (scene0 : SceneRow),
                scene_token ∈ tok :: tokens /\ scene_table !! scene_token = Some scene0 /\
                ev = EvOpenFile (osp_join dir (row_name scene0 ++ ".obj")) /\
                path_exists w (osp_join dir (row_name scene0 ++ ".obj")) = false /\
                osp_join dir (row_name scene0 ++ ".obj") ∉ created).
    { intros ev Hev. destruct (Hall ev Hev) as (t & r & Ht & Hr & Heq & Hp & Hn).
      exists t, r. split; [apply elem_of_cons; auto |]. split; [exact Hr |].
      split; [exact Heq |]. split; [exact Hp |].
      intros Hc. apply Hn. apply elem_of_cons. auto. }
    assert (Hhere : exists (scene_token : string) (scene0 : SceneRow),
              scene_token ∈ tok :: tokens /\ scene_table !! scene_token = Some scene0 /\
              EvOpenFile out_path = EvOpenFile (osp_join dir (row_name scene0 ++ ".obj")) /\
              path_exists w (osp_join dir (row_name scene0 ++ ".obj")) = false /\
              osp_join dir (row_name scene0 ++ ".obj") ∉ created).
    { exists tok, scene. split; [apply elem_of_cons; auto |]. auto. }
    destruct (export_opens_once fuel (Some nusc) explorer out_path (row_token scene)
                "LIDAR_TOP" default_min_dist default_max_dist default_verbose) as [-> | ->];
      destruct (result (export_scene_pointcloud _ _ _ _ _ _ _ _ _ _ _)); cbn [app].
    + split; [exact Hnd | exact Hrest].
    + split; [constructor | intros ev Hev; inversion Hev].
    + split; [constructor | intros ev Hev; inversion Hev].
    + split; [constructor; assumption |].
      intros ev Hev. apply elem_of_cons in Hev as [-> | Hev]; auto.
    + split; [apply NoDup_singleton |].
      intros ev Hev. apply list_elem_of_singleton in Hev as ->. exact Hhere.
    + split; [apply NoDup_singleton |].
      intros ev Hev. apply list_elem_of_singleton in Hev as ->. exact Hhere.
Qed.

(** X12. The main block never writes over a file.  Of the files it opens
    for writing each is opened once; each is the file [<name>.obj] of a scene
    of the table, in the directory of the point clouds; and none of them
    existed when the script began.  So a file that is there already, be it
    whole or left in part by an export that failed, is never replaced. *)
Theorem main_never_overwrites (fuel : nat) (w : World) (home : string) (store : NuScenes)
    (scene_rows : list SceneRow) (scene_table : gmap string SceneRow)
    (explorer : NuScenesExplorer) :
  let opened := List.filter is_open_file
                  (trace (main rotation_matrix fs fuel w home store scene_rows scene_table
                            explorer)) in
  NoDup opened /\
  forall ev, ev ∈ opened ->
    exists (scene_token : string) (scene : SceneRow),
      scene_token ∈ map row_token scene_rows /\
      scene_table !! scene_token = Some scene /\
      ev = EvOpenFile (scene_file home scene) /\
      path_exists w (scene_file home scene) = false.
Proof.
  intros opened.
  assert (Hdir : never is_open_file
                   (if negb (isdir w (expanduser home "/nuscenes-visualization/pointclouds"))
                    then match mkdir w (expanduser home "/nuscenes-visualization/pointclouds")
                         with
                         | Some e => raise e
                         | None => ret tt
                         end
                    else ret tt)) by never_tac.
  assert (Hopened :
            opened = [] \/
            opened = List.filter is_open_file
                       (trace (scenes_loop rotation_matrix fs fuel w store scene_table explorer
                                 (expanduser home "/nuscenes-visualization/pointclouds")
                                 (map row_token scene_rows) []))).
  { unfold opened, main. rewrite filter_trace_bind, Hdir. cbn [app].
    destruct (result _); auto. }
  clearbody opened.
  destruct Hopened as [-> | ->]; [split; [constructor | intros ev Hev; inversion Hev] |].
  destruct (scenes_loop_opens fuel w store scene_table explorer
              (expanduser home "/nuscenes-visualization/pointclouds")
              (map row_token scene_rows) []) as [Hnd Hall].
  split; [exact Hnd |].
  intros ev Hev. destruct (Hall ev Hev) as (tok & scene & Ht & Hr & Heq & Hp & _).
  exists tok, scene. auto.
Qed.

Lemma scenes_loop_Raise (fuel : nat) (w : World) (store : NuScenes)
    (scene_table : gmap string SceneRow) (explorer : NuScenesExplorer) (dir : string)
    (scene_tokens : list string) (e : exn) :
  forall created : list string,
    result (scenes_loop rotation_matrix fs fuel w store scene_table explorer dir scene_tokens
              created) = Raise e ->
    (exists path, e = PermissionError path) \/ frame_error (Some store) explorer e.
Proof.
  induction scene_tokens as [| tok tokens IH]; intros created H; [discriminate |].
  cbn [scenes_loop] in H. raise_step H.
  { right. left. apply nusc_get_Raise in H. eauto. }
  destruct (negb _).
  - raise_step H; [| eauto].
    apply (export_scene_pointcloud_Raise rotation_matrix fs) in H as [[_ Hn] | [-> | H]]; eauto.
    exfalso. apply Hn, demo_channel.
  - eauto.
Qed.

(** X13. In the main block the channel check and the global name do not
    fail.  The script calls [export_scene_pointcloud] with the channel
    ['LIDAR_TOP'], which is valid, and with the name [nusc] bound: when the
    script ends in an exception, this is the error of [os.mkdir], or else it
    is no AssertionError and no NameError. *)
Theorem main_binds_nusc (fuel : nat) (w : World) (home : string) (store : NuScenes)
    (scene_rows : list SceneRow) (scene_table : gmap string SceneRow)
    (explorer : NuScenesExplorer) (e : exn) :
  result (main rotation_matrix fs fuel w home store scene_rows scene_table explorer)
    = Raise e ->
  (isdir w (expanduser home "/nuscenes-visualization/pointclouds") = false /\
   mkdir w (expanduser home "/nuscenes-visualization/pointclouds") = Some e) \/
  ((forall msg, e <> AssertionError msg) /\ (forall name, e <> NameError name)).
Proof.
  unfold main. intros H. raise_step H.
  - left. destruct (isdir w _); [discriminate |]. split; [reflexivity |].
    destruct (mkdir w _) as [e' |]; [| discriminate]. injection H as <-. reflexivity.
  - right.
    apply scenes_loop_Raise in H
      as [[path ->] | [[key ->] | [[path ->] | [[_ Hg] | [-> _]]]]];
      [| | | discriminate Hg |]; split; intros x; discriminate.
Qed.

(** An export that returns has opened its file. *)
Lemma export_Return_opens (fuel : nat) (g : option NuScenes) (explorer : NuScenesExplorer)
    (out_path scene_token channel : string) (min_dist max_dist : float) (verbose : bool)
    (n : Z) :
  result (export_scene_pointcloud rotation_matrix fs fuel g explorer out_path scene_token
            channel min_dist max_dist verbose) = Return n ->
  EvOpenFile out_path ∈
    trace (export_scene_pointcloud rotation_matrix fs fuel g explorer out_path scene_token
             channel min_dist max_dist verbose).
Proof.
  intros H. pose proof H as H'. unfold export_scene_pointcloud in H'.
  apply bind_Return_inv in H' as (u & Hch & H').
  destruct (bool_decide_reflect (channel ∈ valid_channels)) as [Hch' |]; [| discriminate].
  apply bind_Return_inv in H' as (scene_rec & Hscene & H'). apply nusc_get_Return in Hscene.
  apply bind_Return_inv in H' as (s & Hsample & H'). apply nusc_get_Return in Hsample.
  apply bind_Return_inv in H' as (tok & Hdata & H'). unfold dict_get in Hdata.
  destruct (data s !! channel) as [tok' |] eqn:Hdata'; [| discriminate].
  injection Hdata as ->.
  apply bind_Return_inv in H' as (sd_rec & Hsd & H'). apply nusc_get_Return in Hsd.
  apply bind_Return_inv in H' as (u' & Hopen & _). unfold open_w in Hopen.
  destruct (writable fs out_path) eqn:Hw; [| discriminate].
  rewrite (export_scene_pointcloud_run rotation_matrix fs fuel g explorer out_path scene_token
             channel min_dist max_dist verbose _ _ _ _ Hch' Hscene Hsample Hdata' Hsd Hw).
  cbv zeta. cbn [trace fst]. apply elem_of_app. left.
  unfold prelude_events. apply list_elem_of_In. simpl. auto.
Qed.

Lemma scenes_loop_Return (fuel : nat) (w : World) (store : NuScenes)
    (scene_table : gmap string SceneRow) (explorer : NuScenesExplorer) (dir : string)
    (scene_tokens : list string) :
  forall created : list string,
    result (scenes_loop rotation_matrix fs fuel w store scene_table explorer dir scene_tokens
              created) = Return tt ->
    forall scene_token, scene_token ∈ scene_tokens ->
      exists scene : SceneRow,
        scene_table !! scene_token = Some scene /\
        (path_exists w (osp_join dir (row_name scene ++ ".obj")) = true \/
         osp_join dir (row_name scene ++ ".obj") ∈ created \/
         EvOpenFile (osp_join dir (row_name scene ++ ".obj")) ∈
           trace (scenes_loop rotation_matrix fs fuel w store scene_table explorer dir
                    scene_tokens created)).
Proof.
  induction scene_tokens as [| tok tokens IH]; intros created H t Ht; [inversion Ht |].
  cbn [scenes_loop] in *.
  apply bind_Return_trace in H as (scene & Hget & H & Htr). rewrite Htr. clear Htr.
  apply nusc_get_Return in Hget. cbv beta in *.
  set (out_path := osp_join dir (row_name scene ++ ".obj")) in *.
  destruct (path_exists w out_path) eqn:Hex; cbn [orb negb] in *.
  { apply elem_of_cons in Ht as [-> | Ht].
    - exists scene. auto.
    - destruct (IH _ H t Ht) as (r & Hr & [Hp | [Hp | Hp]]); exists r; split; auto.
      right. right. apply elem_of_app. auto. }
  destruct (bool_decide_reflect (out_path ∈ created)) as [Hin | Hnin]; cbn [negb] in *.
  { apply elem_of_cons in Ht as [-> | Ht].
    - exists scene. auto.
    - destruct (IH _ H t Ht) as (r & Hr & [Hp | [Hp | Hp]]); exists r; split; auto.
      right. right. apply elem_of_app. auto. }
  apply bind_Return_trace in H as (n & Hexp & H & Htr). rewrite Htr. clear Htr.
  pose proof (export_Return_opens _ _ _ _ _ _ _ _ _ _ Hexp) as Hopened.
  apply elem_of_cons in Ht as [-> | Ht].
  - exists scene. split; [exact Hget |]. right. right.
    apply elem_of_app. right. apply elem_of_app. left. exact Hopened.
  - destruct (IH _ H t Ht) as (r & Hr & [Hp | [Hp | Hp]]); exists r; split; auto.
    + apply elem_of_cons in Hp as [Hp | Hp]; [| auto].
      right. right. rewrite Hp. apply elem_of_app. right. apply elem_of_app. left.
      exact Hopened.
    + right. right. apply elem_of_app. right. apply elem_of_app. auto.
Qed.

(** X14. When the main block comes to its end, every scene has its file:
    the directory of the point clouds was there or was made, every token of
    the scene list has its record, and the file [<name>.obj] of that record
    either existed when the script began or was opened for writing by it. *)
Theorem main_completes (fuel : nat) (w : World) (home : string) (store : NuScenes)
    (scene_rows : list SceneRow) (scene_table : gmap string SceneRow)
    (explorer : NuScenesExplorer) :
  let run := main rotation_matrix fs fuel w home store scene_rows scene_table explorer in
  result run = Return tt ->
  (isdir w (expanduser home "/nuscenes-visualization/pointclouds") = true \/
   mkdir w (expanduser home "/nuscenes-visualization/pointclouds") = None) /\
  forall scene_token, scene_token ∈ map row_token scene_rows ->
    exists scene : SceneRow,
      scene_table !! scene_token = Some scene /\
      (path_exists w (scene_file home scene) = true \/
       EvOpenFile (scene_file home scene) ∈ trace run).
Proof.
  intros run H. unfold run, main in *.
  apply bind_Return_trace in H as (u & Hdir & H & Htr). rewrite Htr. clear Htr.
  split.
  - destruct (isdir w _); [auto |]. right. cbn [negb] in Hdir.
    destruct (mkdir w _); [discriminate | reflexivity].
  - intros t Ht.
    destruct (scenes_loop_Return _ _ _ _ _ _ _ _ H t Ht) as (r & Hr & [Hp | [Hp | Hp]]).
    + exists r. auto.
    + inversion Hp.
    + exists r. split; [exact Hr |]. right. apply elem_of_app. right. exact Hp.
Qed.

End MainProperties.

(** ** The script on the demo *)

Example demo_main :
  result (Script.run Script.world Demo.store) = Return tt /\
  List.filter is_open_file (trace (Script.run Script.world Demo.store)) =
    [EvOpenFile "/home/user/nuscenes-visualization/pointclouds/scene-0001.obj"] /\
  result (Script.run Script.world_after Demo.store) = Return tt /\
  trace (Script.run Script.world_after Demo.store) = [EvGet "scene" "scene-1"].
Proof. vm_compute. repeat split; reflexivity. Qed.

Lemma demo_main_blind : result (Script.run Script.world Faults.store_blind) = Raise IndexError.
Proof. vm_compute. reflexivity. Qed.

(** The script on the demo opens no file twice. *)
Lemma main_never_overwrites_demo :
  NoDup (List.filter is_open_file (trace (Script.run Script.world Demo.store))).
Proof.
  exact (proj1 (main_never_overwrites Demo.rotation_matrix Demo.files 3 Script.world
                  Script.home Demo.store Script.scene_rows Script.scene_table
                  (mkNuScenesExplorer Demo.store))).
Defined.

(** The script on the demo with the front-right camera that has no intrinsic
    matrix ends in an IndexError: no NameError. *)
Lemma main_binds_nusc_demo : IndexError <> NameError "nusc".
Proof.
  destruct (main_binds_nusc Demo.rotation_matrix Demo.files 3 Script.world Script.home
              Faults.store_blind Script.scene_rows Script.scene_table
              (mkNuScenesExplorer Faults.store_blind) IndexError demo_main_blind)
    as [[_ H] | [_ H]].
  - discriminate.
  - apply H.
Defined.

Lemma demo_main_done : result (Script.run Script.world Demo.store) = Return tt.
Proof. vm_compute. reflexivity. Qed.

Lemma demo_main_row : "scene-1"%string ∈ map row_token Script.scene_rows.
Proof. apply list_elem_of_In. simpl. auto. Qed.

(** The script on the demo: the scene has its record, and its file. *)
Lemma main_completes_demo :
  exists scene : SceneRow,
    Script.scene_table !! "scene-1"%string = Some scene /\
    (path_exists Script.world (scene_file Script.home scene) = true \/
     EvOpenFile (scene_file Script.home scene) ∈ trace (Script.run Script.world Demo.store)).
Proof.
  exact (proj2 (main_completes Demo.rotation_matrix Demo.files 3 Script.world Script.home
                  Demo.store Script.scene_rows Script.scene_table
                  (mkNuScenesExplorer Demo.store) demo_main_done)
           "scene-1"%string demo_main_row).
Defined.
